(** * SolarPi — Growatt SPF5000 register adapter

    A shallow embedding of the three revisions of the [GrowattSPF5000]
    adapter class: the register codec (linear scale, 32-bit big-endian
    combine, byte-packed hour/minute), the two cached control domains
    ([touChargingValues], [touDischargingValues]), the merge of inbound
    control messages ([updateControl]), the schema validation that guards
    every write, the mutex-wrapped channel calls and the command dispatcher
    ([sendCommand]).

    Conventions of the embedding.
    - A JavaScript number is an exact rational ([Q], kept reduced by
      [Qred]); the rounding of IEEE doubles is not modelled.  Every number
      the adapter produces is an integer below 2^53 or such an integer
      divided by ten, for which the double is the one the decimal literal
      denotes.
    - A string is a [string] of code units below 256.
    - An object is a finite map of its own properties
      ([gmap string value]); the names inherited from [Object.prototype]
      are listed in [Object_prototype_names].
    - Asynchronous methods are functions in a state and exception monad
      over the [world] (adapter fields, mutex, the channel's call log and
      the console), run one after the other.
    - [JSON.parse] is a parameter ([Runtime]); a reference reader
      instantiates it on concrete messages.
    - What the embedding does not follow (a wait on a held mutex, a
      replaced prototype, a conversion through a value's text) ends in the
      outcome [OutOfModel], never in a made-up result.

    The three revisions of the class are the modules [Packed] (the first
    class of src/unnamed/part_001: one window per domain, the hour in the
    high byte), [Tenths] (the second class of that file: voltages in 0.1
    units, hours in whole words) and [Extended] (src/unnamed/part_002: three
    windows per domain, registers from 1070).  The module [Backup] holds the
    two stand-alone scripts that dump the registers to a file. *)

From Stdlib Require Import ZArith QArith String Ascii List Bool Sorted Lia.
From stdpp Require Import gmap strings list fin_maps pretty.

Set Warnings "-register-all".

Local Open Scope Z_scope.
Local Open Scope string_scope.

(** ** JavaScript primitives *)

Module JS.

(** The language's values.  [VNaN] is the number NaN, [VNum] a finite
    number; [VFunction] stands for any function object (only ever met as
    an inherited method). *)
Inductive value : Type :=
  | VUndef
  | VNull
  | VBool (b : bool)
  | VNum (q : Q)
  | VNaN
  | VStr (s : string)
  | VArr (elems : list value)
  | VObj (props : list (string * value))
  | VFunction.

Definition num (z : Z) : value := VNum (inject_Z z).

(** [ToInt32] on an integer: reduction modulo 2^32 into [-2^31, 2^31). *)
Definition wrap32 (z : Z) : Z := (z + 2 ^ 31) mod 2 ^ 32 - 2 ^ 31.

(** Truncation toward zero, the integer part used by [ToInt32]. *)
Definition Qtrunc (q : Q) : Z := Z.quot (Qnum q) (Zpos (Qden q)).

Definition ToInt32_Q (q : Q) : Z := wrap32 (Qtrunc q).

(** [ToInt32] of a value: exact on every primitive but strings; strings,
    arrays and objects are converted through [ToNumber] of their text,
    which is not modelled ([None]). *)
Definition ToInt32 (v : value) : option Z :=
  match v with
  | VNum q => Some (ToInt32_Q q)
  | VUndef | VNull | VNaN | VFunction => Some 0
  | VBool b => Some (if b then 1 else 0)
  | VStr _ | VArr _ | VObj _ => None
  end.

(** The operators [<<], [>>], [|] and [&] on int32 operands. *)
Definition shl (a n : Z) : Z := wrap32 (Z.shiftl a (n mod 32)).
Definition sar (a n : Z) : Z := Z.shiftr a (n mod 32).
Definition bor (a b : Z) : Z := Z.lor a b.
Definition band (a b : Z) : Z := Z.land a b.

(** [x / 10.0] on a finite number. *)
Definition div10 (q : Q) : Q := Qred (q / 10).

(** [a === b] on strings. *)
Definition str_eq (a b : string) : bool := String.eqb a b.

End JS.
Export JS.

(** ** Register windows *)

(** The [data] array of a [ReadRegisterResult]: 16-bit words.  [data[i]]
    is [data !! i]; an index past the end reads [undefined]. *)
Definition word_value (w : option Z) : value :=
  match w with Some z => num z | None => VUndef end.

(** [ToInt32(data[i])]: [undefined] converts to 0. *)
Definition word_int32 (w : option Z) : Z :=
  match w with Some z => wrap32 z | None => 0 end.

(** ** RegisterCodec: the per-field decoding and encoding rules *)

Module Codec.

(** [(hour << 8) | minute] *)
Definition packHM (hour minute : value) : option value :=
  h ← ToInt32 hour; m ← ToInt32 minute; Some (num (bor (shl h 8) m)).

(** [hour << 8] *)
Definition packH (hour : value) : option value :=
  h ← ToInt32 hour; Some (num (shl h 8)).

(** [(v === "ON") ? 1 : 0] *)
Definition on_word (v : value) : value :=
  match v with
  | VStr s => if str_eq s "ON" then num 1 else num 0
  | _ => num 0
  end.

(** [word >> 8] and [word & 0xFF]. *)
Definition unpackHour (w : option Z) : Z := sar (word_int32 w) 8.
Definition unpackMinute (w : option Z) : Z := band (word_int32 w) 255.

(** [hi << 16 | lo] *)
Definition combine32 (hi lo : option Z) : Z :=
  bor (shl (word_int32 hi) 16) (word_int32 lo).

(** [(hi << 16 | lo) / 10.0] *)
Definition combine32_div10 (hi lo : option Z) : value :=
  VNum (div10 (inject_Z (combine32 hi lo))).

(** [data[i] / 10.0]: [undefined / 10.0] is NaN. *)
Definition scale_div10 (w : option Z) : value :=
  match w with
  | Some z => VNum (div10 (inject_Z z))
  | None => VNaN
  end.

(** [(data[i] == 1) ? "ON" : "OFF"] *)
Definition onoff (w : option Z) : value :=
  match w with
  | Some 1 => VStr "ON"
  | _ => VStr "OFF"
  end.

(** [table[data[i]] || data[i]]: the table's text, or the raw word for a
    code the table does not know. *)
Definition enum_lookup (table : list (Z * string)) (w : option Z) : value :=
  match w with
  | Some z =>
      match List.find (fun entry => Z.eqb (fst entry) z) table with
      | Some entry => VStr (snd entry)
      | None => num z
      end
  | None => VUndef
  end.

End Codec.
Export Codec.

(** ** Objects *)

Module Obj.

(** An object's own properties. *)
Abbreviation obj := (gmap string value).

(** The property names every plain object inherits from
    [Object.prototype]. *)
Definition Object_prototype_names : list string :=
  [ "constructor"; "hasOwnProperty"; "isPrototypeOf"; "propertyIsEnumerable";
    "toLocaleString"; "toString"; "valueOf"; "__defineGetter__";
    "__defineSetter__"; "__lookupGetter__"; "__lookupSetter__"; "__proto__" ].

Definition inherited (key : string) : bool :=
  existsb (String.eqb key) Object_prototype_names.

(** [o[key]] for a name that is not inherited ([o.chargePower]). *)
Definition get (o : obj) (key : string) : value :=
  match o !! key with Some v => v | None => VUndef end.

(** [typeof o[key] !== 'undefined'] *)
Definition has_field (o : obj) (key : string) : bool :=
  match o !! key with
  | Some VUndef => false
  | Some _ => true
  | None => inherited key
  end.

(** [o[key] = v].  An own property is overwritten and a missing one
    created, also over an inherited method.  The inherited accessor
    [__proto__] ignores a primitive; given an object, an array or [null] it
    replaces the prototype, which the embedding does not follow ([None]). *)
Definition assign (o : obj) (key : string) (v : value) : option obj :=
  match o !! key with
  | Some _ => Some (<[key := v]> o)
  | None =>
      if String.eqb key "__proto__" then
        match v with
        | VObj _ | VArr _ | VNull => None
        | _ => Some o
        end
      else Some (<[key := v]> o)
  end.

(** The own enumerable properties of a parsed value, in source order: the
    members of an object (a repeated name keeps its last value), the
    elements of an array and the code units of a string under their
    indices.  [None] for [null] and [undefined], on which [Object.keys]
    throws a [TypeError]. *)
Definition indexed {A} (f : A -> value) (l : list A) : list (string * value) :=
  imap (fun i x => (pretty i, f x)) l.

Definition own_props (v : value) : option (list (string * value)) :=
  match v with
  | VUndef | VNull => None
  | VObj props => Some props
  | VArr elems => Some (indexed id elems)
  | VStr s => Some (indexed (fun c => VStr (String c "")) (list_ascii_of_string s))
  | VBool _ | VNum _ | VNaN | VFunction => Some []
  end.

(** [Object.keys(v)].  The order in which JavaScript lists the names
    (index-like names first) is not reproduced; the adapter assigns each
    name once and independently. *)
Definition Object_keys (v : value) : option (list string) :=
  props ← own_props v; Some (remove_dups (props.*1)).

(** [props[key]] where a later member overrides an earlier one. *)
Fixpoint prop_get (props : list (string * value)) (key : string) : option value :=
  match props with
  | [] => None
  | (k, v) :: rest =>
      match prop_get rest key with
      | Some v' => Some v'
      | None => if String.eqb key k then Some v else None
      end
  end.

(** [v[key]] for one of the names [Object.keys(v)] lists. *)
Definition own_get (v : value) (key : string) : value :=
  default VUndef (props ← own_props v; prop_get props key).

(** [v[key]] for a [key] that is neither an index, [length] nor inherited:
    a [TypeError] ([None]) on [null] and [undefined]. *)
Definition member (v : value) (key : string) : option value :=
  match v with
  | VUndef | VNull => None
  | VObj props => Some (default VUndef (prop_get props key))
  | _ => Some VUndef
  end.

(** The text of a value inside a template literal.  Integers print in
    decimal; other numbers (shortest round-trip decimal), arrays and
    functions are not modelled ([None]). *)
Definition ToString (v : value) : option string :=
  match v with
  | VUndef => Some "undefined"
  | VNull => Some "null"
  | VBool b => Some (if b then "true" else "false")
  | VNaN => Some "NaN"
  | VStr s => Some s
  | VObj _ => Some "[object Object]"
  | VNum q =>
      if ((Zpos (Qden q) =? 1) && (Z.abs (Qnum q) <? 10 ^ 21))%Z
      then Some (pretty (Qnum q)) else None
  | VArr _ | VFunction => None
  end.

(** [controlMessage.replace] over the global apostrophe pattern: every
    apostrophe becomes a double quote (code unit 34). *)
Definition replace_quotes (s : string) : string :=
  string_of_list_ascii
    (map (fun c => if Ascii.eqb c "'"%char then "034"%char else c)
         (list_ascii_of_string s)).

End Obj.
Export Obj.

(** ** Schema validation (Ajv with default options) *)

Module Ajv.

(** The two property schemas the adapter writes:
    [{ type: "number", minimum, maximum }] and
    [{ type: "string", pattern }] with the pattern an unanchored
    alternation of literals ([ON|OFF]). *)
Inductive prop_schema : Type :=
  | SNumber (minimum maximum : Q)
  | SString (pattern : list string).

(** [{ type: "object", properties, required, additionalProperties }] *)
Record schema : Type := Schema {
  properties : list (string * prop_schema);
  required : list string;
  additionalProperties : bool
}.

(** [new RegExp(lit).test(s)] for a literal: [lit] occurs in [s]. *)
Fixpoint occurs (lit s : string) : bool :=
  String.prefix lit s ||
  match s with
  | EmptyString => false
  | String _ rest => occurs lit rest
  end.

Definition check_prop (ps : prop_schema) (v : value) : bool :=
  match ps, v with
  | SNumber lo hi, VNum q => Qle_bool lo q && Qle_bool q hi
  | SString alts, VStr s => existsb (fun lit => occurs lit s) alts
  | _, _ => false
  end.

Definition defined (v : option value) : bool :=
  match v with
  | None | Some VUndef => false
  | Some _ => true
  end.

(** [validate(data)]: every required name is defined, no own name is
    undeclared (unless additional properties are allowed) and every
    declared property that is defined meets its schema. *)
Definition validate (sch : schema) (data : obj) : bool :=
  forallb (fun key => defined (data !! key)) (required sch)
  && (additionalProperties sch
      || bool_decide (map_Forall (fun key _ => key ∈ (properties sch).*1) data))
  && forallb (fun '(key, ps) =>
                match data !! key with
                | None | Some VUndef => true
                | Some v => check_prop ps v
                end) (properties sch).



End Ajv.
Export Ajv.

(** ** The adapter's world: channel, mutex, cached domains *)

Module World.

(** One call on the register-access channel, as a recording fake sees it. *)
Inductive call : Type :=
  | ReadInputRegisters (dataAddress len : Z)
  | ReadHoldingRegisters (dataAddress len : Z)
  | WriteRegisters (dataAddress : Z) (values : list value).

(** The channel's answer: the [data] words of the result, or a rejection
    (a timeout, a link error). *)
Inductive reply : Type :=
  | Data (data : list Z)
  | Rejected (reason : string).

(** [modbusClient]: any deterministic device, given by its answer to a call
    after the calls made so far. *)
Definition ModbusRTU : Type := list call -> call -> reply.

(** What a method can throw. *)
Inductive thrown : Type :=
  | ThrownString (s : string)
  | SyntaxError
  | TypeError
  | ChannelError (reason : string).

(** The fields of a [GrowattSPF5000] instance that change, the channel's
    call log and the console. *)
Record world : Type := World {
  touChargingValues : obj;
  touDischargingValues : obj;
  mutex : bool;
  calls : list call;
  console : list string
}.

Definition set_touChargingValues (o : obj) (w : world) : world :=
  World o (touDischargingValues w) (mutex w) (calls w) (console w).
Definition set_touDischargingValues (o : obj) (w : world) : world :=
  World (touChargingValues w) o (mutex w) (calls w) (console w).
Definition set_mutex (b : bool) (w : world) : world :=
  World (touChargingValues w) (touDischargingValues w) b (calls w) (console w).
Definition add_call (c : call) (w : world) : world :=
  World (touChargingValues w) (touDischargingValues w) (mutex w)
        (calls w ++ [c]) (console w).
Definition add_console (line : string) (w : world) : world :=
  World (touChargingValues w) (touDischargingValues w) (mutex w)
        (calls w) (console w ++ [line]).

(** How a method ends: it returns, it throws (an [async] method rejects),
    or it leaves the embedding ([OutOfModel]: a wait on a held mutex, a
    replaced prototype, a conversion that is not modelled). *)
Inductive outcome (A : Type) : Type :=
  | Ret (a : A)
  | Throw (e : thrown)
  | OutOfModel.
Arguments Ret {A} a.
Arguments Throw {A} e.
Arguments OutOfModel {A}.

Definition M (A : Type) : Type := world -> outcome A * world.

Definition ret {A} (a : A) : M A := fun w => (Ret a, w).
Definition throw {A} (e : thrown) : M A := fun w => (Throw e, w).
Definition out_of_model {A} : M A := fun w => (OutOfModel, w).

Definition bind {A B} (m : M A) (k : A -> M B) : M B :=
  fun w =>
    match m w with
    | (Ret a, w') => k a w'
    | (Throw e, w') => (Throw e, w')
    | (OutOfModel, w') => (OutOfModel, w')
    end.

Notation "'let*' x ':=' m 'in' k" := (bind m (fun x => k))
  (at level 10, x pattern, m at level 100, k at level 200).
Notation "m ';;' k" := (bind m (fun _ => k))
  (at level 100, k at level 200, right associativity).

(** [try { body } catch (error) { handler }] *)
Definition try_catch {A} (body : M A) (handler : thrown -> M A) : M A :=
  fun w =>
    match body w with
    | (Throw e, w') => handler e w'
    | r => r
    end.

(** [try { body } finally { fin }]: [fin] runs on every exit of [body]. *)
Definition try_finally {A} (body : M A) (fin : M unit) : M A :=
  fun w =>
    let '(r, w') := body w in
    match fin w' with
    | (Ret _, w'') => (r, w'')
    | (Throw e, w'') => (Throw e, w'')
    | (OutOfModel, w'') => (OutOfModel, w'')
    end.

Definition get_world : M world := fun w => (Ret w, w).
Definition modify (f : world -> world) : M unit := fun w => (Ret tt, f w).
Definition console_log (line : string) : M unit := modify (add_console line).
Definition lift_option {A} (e : thrown) (o : option A) : M A :=
  match o with Some a => ret a | None => throw e end.

(** [keys.forEach(body)] *)
Fixpoint forEach {A} (l : list A) (body : A -> M unit) : M unit :=
  match l with
  | [] => ret tt
  | x :: rest => body x ;; forEach rest body
  end.

(** [await this.mutex.acquire()]: takes the free mutex.  On a held mutex
    the caller waits for another task, which a sequential run has not. *)
Definition acquire : M unit :=
  fun w => if mutex w then (OutOfModel, w) else (Ret tt, set_mutex true w).

(** [release()] *)
Definition release : M unit := modify (set_mutex false).

(** One call on the channel: recorded, then answered. *)
Definition channel_call (modbusClient : ModbusRTU) (c : call) : M (list Z) :=
  fun w =>
    match modbusClient (calls w) c with
    | Data data => (Ret data, add_call c w)
    | Rejected reason => (Throw (ChannelError reason), add_call c w)
    end.

(** The three wrapper methods. *)
Definition readInputRegisters (modbusClient : ModbusRTU) (dataAddress len : Z)
  : M (list Z) :=
  acquire ;;
  try_finally (channel_call modbusClient (ReadInputRegisters dataAddress len))
              release.

Definition readHoldingRegisters (modbusClient : ModbusRTU) (dataAddress len : Z)
  : M (list Z) :=
  acquire ;;
  try_finally (channel_call modbusClient (ReadHoldingRegisters dataAddress len))
              release.

Definition writeRegisters (modbusClient : ModbusRTU) (dataAddress : Z)
                          (values : list value) : M (list Z) :=
  acquire ;;
  try_finally (channel_call modbusClient (WriteRegisters dataAddress values))
              release.

End World.
Export World.

(** ** The parts of the class the three revisions share *)

(** The runtime's JSON reader: [None] when [JSON.parse] throws. *)
Class Runtime : Type := { JSON_parse : string -> option value }.

Module Shared.
Section Shared.
Context {RT : Runtime}.

Record ControlData : Type := { subTopic : string; values : obj }.

(** The body of the [forEach] in [updateControl]. *)
Definition merge_key (subTopic : string) (control : value) (key : string)
  : M unit :=
  fun w =>
    let v := own_get control key in
    if str_eq subTopic "touCharging" && has_field (touChargingValues w) key then
      match assign (touChargingValues w) key v with
      | Some o => (Ret tt, set_touChargingValues o w)
      | None => (OutOfModel, w)
      end
    else if str_eq subTopic "touDischarging"
            && has_field (touDischargingValues w) key then
      match assign (touDischargingValues w) key v with
      | Some o => (Ret tt, set_touDischargingValues o w)
      | None => (OutOfModel, w)
      end
    else (Ret tt, w).

(** [updateControl(subTopic, controlMessage)].  The returned objects are
    the cached objects themselves; the embedding returns their contents at
    the time of the return.  The console line lacks the time stamp that
    [logDate()] puts before it. *)
Definition updateControl (subTopic controlMessage : string) : M (list ControlData) :=
  try_catch
    (let* control := lift_option SyntaxError
                       (JSON_parse (replace_quotes controlMessage)) in
     let* keys := lift_option TypeError (Object_keys control) in
     forEach keys (merge_key subTopic control))
    (fun _ => console_log "Error parsing controlMessage in updateControl(). Continuing.") ;;
  let* w := get_world in
  ret [ {| subTopic := "touCharging"; values := touChargingValues w |};
        {| subTopic := "touDischarging"; values := touDischargingValues w |} ].

(** [getTime(modbusClient)] *)
Definition getTime (modbusClient : ModbusRTU) : M obj :=
  let* data := readHoldingRegisters modbusClient 45 6 in
  ret (list_to_map
         [ ("year", word_value (data !! 0%nat));
           ("month", word_value (data !! 1%nat));
           ("day", word_value (data !! 2%nat));
           ("hour", word_value (data !! 3%nat));
           ("minute", word_value (data !! 4%nat));
           ("second", word_value (data !! 5%nat)) ]).

Section Dispatcher.
Variables (setTouCharging setTouDischarging : ModbusRTU -> M unit)
          (getTouCharging getTouDischarging : ModbusRTU -> M obj).

(** [sendCommand(modbusClient, commandString)], over the revision's own
    [set] and [get] methods.  The time stamp that [logDate()] puts before
    each console line is left out. *)
Definition sendCommand (modbusClient : ModbusRTU) (commandString : string)
  : M (option ControlData) :=
  let* command := lift_option SyntaxError (JSON_parse commandString) in
  let* name := lift_option TypeError (member command "command") in
  let unknown :=
    match ToString name with
    | Some text => throw (ThrownString ("Unknown command: " ++ text))
    | None => out_of_model
    end in
  match name with
  | VStr c =>
      if str_eq c "setTouCharging" then
        console_log "Received Set TOU Charging command" ;;
        setTouCharging modbusClient ;; ret None
      else if str_eq c "getTouCharging" then
        console_log "Received Get TOU Charging command" ;;
        let* v := getTouCharging modbusClient in
        ret (Some {| subTopic := "touCharging"; values := v |})
      else if str_eq c "setTouDischarging" then
        console_log "Received Set TOU Discharging command" ;;
        setTouDischarging modbusClient ;; ret None
      else if str_eq c "getTouDischarging" then
        console_log "Received Get TOU Discharging command" ;;
        let* v := getTouDischarging modbusClient in
        ret (Some {| subTopic := "touDischarging"; values := v |})
      else if str_eq c "getTime" then
        console_log "Received Get Time command" ;;
        let* v := getTime modbusClient in
        ret (Some {| subTopic := "time"; values := v |})
      else unknown
  | _ => unknown
  end.

(** [getControlValues(modbusClient)]: the two elements of the array literal
    are evaluated in order, [touCharging] first. *)
Definition getControlValues (modbusClient : ModbusRTU) : M (list ControlData) :=
  let* charging := getTouCharging modbusClient in
  let* discharging := getTouDischarging modbusClient in
  ret [ {| subTopic := "touCharging"; values := charging |};
        {| subTopic := "touDischarging"; values := discharging |} ].

End Dispatcher.
End Shared.
End Shared.
Export Shared.

(** ** The sensor snapshot of the packed and the extended revision *)

(** The two tables of [parseInputRegisters]. *)
Definition statusMap : list (Z * string) :=
  [ (0, "Standby"); (1, "PV an Grid Combine Discharge"); (2, "Discharge");
    (3, "Fault"); (4, "Flash"); (5, "PV charge"); (6, "AC charge");
    (7, "Combine charge"); (8, "Combine charge and Bypass");
    (9, "PV charge and Bypass"); (10, "AC charge and Bypass"); (11, "Bypass");
    (12, "PV charge and Discharge") ].

Definition errorMap : list (Z * string) :=
  [ (2, "Over Temperature"); (3, "Bat Voltage High"); (5, "Output short");
    (6, "Output voltage high"); (7, "Over Load"); (8, "Bus voltage high");
    (9, "Bus start fail"); (51, "over current"); (52, "Bus voltage low");
    (53, "inverter softstart fail"); (56, "battery open");
    (58, "output voltage low"); (60, "negtive power"); (61, "PV voltage high");
    (62, "SCI com error"); (80, "can fault"); (81, "host loss") ].

(** [parseInputRegisters(inputRegisters)], the same text in both
    revisions: the sensor snapshot as the object literal it returns. *)
Definition parseInputRegisters (data : list Z) : list (string * value) :=
  let d (i : nat) := data !! i in
  [ ("inverterStatus", enum_lookup statusMap (d 0%nat));
    ("ppv", combine32_div10 (d 3%nat) (d 4%nat));
    ("vpv1", scale_div10 (d 1%nat));
    ("ppv1", combine32_div10 (d 3%nat) (d 4%nat));
    ("vpv2", scale_div10 (d 2%nat));
    ("ppv2", combine32_div10 (d 5%nat) (d 6%nat));
    ("vgrid", scale_div10 (d 20%nat));
    ("epvToday", VNum (div10 (inject_Z (combine32 (d 48%nat) (d 49%nat)
                                        + combine32 (d 52%nat) (d 53%nat)))));
    ("epvTotal", VNum (div10 (inject_Z (combine32 (d 50%nat) (d 51%nat)
                                        + combine32 (d 54%nat) (d 55%nat)))));
    ("inverterTemperature", scale_div10 (d 25%nat));
    ("inverterError", enum_lookup errorMap (d 40%nat));
    ("pDischarge", combine32_div10 (d 73%nat) (d 74%nat));
    ("pCharge", combine32_div10 (d 77%nat) (d 78%nat));
    ("soc", word_value (d 18%nat));
    ("pImport", combine32_div10 (d 36%nat) (d 37%nat));
    ("pExport", combine32_div10 (d 69%nat) (d 70%nat));
    ("pLoad", combine32_div10 (d 69%nat) (d 70%nat));
    ("eImportToday", combine32_div10 (d 48%nat) (d 49%nat));
    ("eImportTotal", combine32_div10 (d 50%nat) (d 51%nat));
    ("eExportToday", combine32_div10 (d 85%nat) (d 86%nat));
    ("eExportTotal", combine32_div10 (d 87%nat) (d 88%nat));
    ("eDischargeToday", combine32_div10 (d 60%nat) (d 61%nat));
    ("eDischargeTotal", combine32_div10 (d 62%nat) (d 63%nat));
    ("eChargeToday", combine32_div10 (d 60%nat) (d 61%nat));
    ("eChargeTotal", combine32_div10 (d 62%nat) (d 63%nat));
    ("eLoadToday", combine32_div10 (d 64%nat) (d 65%nat));
    ("eLoadTotal", combine32_div10 (d 66%nat) (d 67%nat)) ].

(** [getSensorData(modbusClient)] of the packed and the extended revision *)
Definition getSensorData (modbusClient : ModbusRTU) : M (list (string * value)) :=
  let* inputRegisters := readInputRegisters modbusClient 0 90 in
  ret (parseInputRegisters inputRegisters).

(** ** Helpers of the [set] methods *)

(** A schema's failure branch: the errors go to the console (their text is
    not modelled) and a bare string is thrown. *)
Definition validation_failed {A} (message : string) : M A :=
  console_log "Validate errors:" ;; throw (ThrownString message).

(** An array of words some of which go through [ToInt32]. *)
Definition words (ws : list (option value)) : M (list value) :=
  match mapM id ws with
  | Some l => ret l
  | None => out_of_model
  end.

(** ** Extended-schedule revision: three windows per domain, registers from 1070 *)

Module Extended.
Section Extended.
Context {RT : Runtime}.

Definition touChargingValues_default : obj :=
  list_to_map
    [ ("chargePower", num 100); ("stopSOC", num 100); ("ac", VStr "OFF");
      ("startHour1", num 0); ("startMinute1", num 0);
      ("stopHour1", num 0); ("stopMinute1", num 0); ("enablePeriod1", VStr "OFF");
      ("startHour2", num 0); ("startMinute2", num 0);
      ("stopHour2", num 0); ("stopMinute2", num 0); ("enablePeriod2", VStr "OFF");
      ("startHour3", num 0); ("startMinute3", num 0);
      ("stopHour3", num 0); ("stopMinute3", num 0); ("enablePeriod3", VStr "OFF") ].

Definition touDischargingValues_default : obj :=
  list_to_map
    [ ("dischargePower", num 100); ("dischargeStopSOC", num 5);
      ("startHour1", num 0); ("startMinute1", num 0);
      ("stopHour1", num 0); ("stopMinute1", num 0); ("enablePeriod1", VStr "OFF");
      ("startHour2", num 0); ("startMinute2", num 0);
      ("stopHour2", num 0); ("stopMinute2", num 0); ("enablePeriod2", VStr "OFF");
      ("startHour3", num 0); ("startMinute3", num 0);
      ("stopHour3", num 0); ("stopMinute3", num 0); ("enablePeriod3", VStr "OFF") ].

(** A fresh instance before any call. *)
Definition initial : world :=
  World touChargingValues_default touDischargingValues_default false [] [].

Definition hour : prop_schema := SNumber 0 23.
Definition minute : prop_schema := SNumber 0 59.
Definition percent : prop_schema := SNumber 0 100.
Definition switch : prop_schema := SString ["ON"; "OFF"].

Definition windows : list (string * prop_schema) :=
  [ ("startHour1", hour); ("startMinute1", minute);
    ("stopHour1", hour); ("stopMinute1", minute); ("enablePeriod1", switch);
    ("startHour2", hour); ("startMinute2", minute);
    ("stopHour2", hour); ("stopMinute2", minute); ("enablePeriod2", switch);
    ("startHour3", hour); ("startMinute3", minute);
    ("stopHour3", hour); ("stopMinute3", minute); ("enablePeriod3", switch) ].

Definition touCharging_schema : schema :=
  {| properties :=
       [ ("chargePower", percent); ("stopSOC", percent); ("ac", switch) ]
       ++ windows;
     required :=
       [ "chargePower"; "stopSOC"; "ac"; "startHour1"; "startMinute1";
         "stopHour1"; "stopMinute1"; "enablePeriod1"; "startHour2";
         "startMinute2"; "stopHour2"; "stopMinute2"; "enablePeriod2";
         "startHour3"; "startMinute3"; "stopHour3"; "stopMinute3";
         "enablePeriod3" ];
     additionalProperties := false |}.

Definition touDischarging_schema : schema :=
  {| properties :=
       [ ("dischargePower", percent); ("dischargeStopSOC", percent) ]
       ++ windows;
     required :=
       [ "dischargePower"; "dischargeStopSOC"; "startHour1"; "startMinute1";
         "stopHour1"; "stopMinute1"; "enablePeriod1"; "startHour2";
         "startMinute2"; "stopHour2"; "stopMinute2"; "enablePeriod2";
         "startHour3"; "startMinute3"; "stopHour3"; "stopMinute3";
         "enablePeriod3" ];
     additionalProperties := false |}.

(** The nine words of the three windows, the same expression in both
    [set] methods. *)
Definition window_words (v : obj) : list (option value) :=
  [ packHM (get v "startHour1") (get v "startMinute1");
    packHM (get v "stopHour1") (get v "stopMinute1");
    Some (on_word (get v "enablePeriod1"));
    packHM (get v "startHour2") (get v "startMinute2");
    packHM (get v "stopHour2") (get v "stopMinute2");
    Some (on_word (get v "enablePeriod2"));
    packHM (get v "startHour3") (get v "startMinute3");
    packHM (get v "stopHour3") (get v "stopMinute3");
    Some (on_word (get v "enablePeriod3")) ].

Definition setTouCharging (modbusClient : ModbusRTU) : M unit :=
  let* w := get_world in
  let v := touChargingValues w in
  if negb (validate touCharging_schema v) then
    validation_failed "Error validating setTouCharging"
  else
    let writeRegisters1 :=
      [ get v "chargePower"; get v "stopSOC"; on_word (get v "ac") ] in
    let* writeRegisters2 := words (window_words v) in
    writeRegisters modbusClient 1090 writeRegisters1 ;;
    writeRegisters modbusClient 1100 writeRegisters2 ;;
    ret tt.

Definition setTouDischarging (modbusClient : ModbusRTU) : M unit :=
  let* w := get_world in
  let v := touDischargingValues w in
  if negb (validate touDischarging_schema v) then
    validation_failed "Error validating setTouDischarging"
  else
    let writeRegisters1 :=
      [ get v "dischargePower"; get v "dischargeStopSOC" ] in
    let* writeRegisters2 := words (window_words v) in
    writeRegisters modbusClient 1070 writeRegisters1 ;;
    writeRegisters modbusClient 1080 writeRegisters2 ;;
    ret tt.

(** The fifteen window fields decoded from the nine words of [data2]. *)
Definition window_fields (data2 : list Z) : list (string * value) :=
  let d (i : nat) := data2 !! i in
  [ ("startHour1", num (unpackHour (d 0%nat)));
    ("startMinute1", num (unpackMinute (d 0%nat)));
    ("stopHour1", num (unpackHour (d 1%nat)));
    ("stopMinute1", num (unpackMinute (d 1%nat)));
    ("enablePeriod1", onoff (d 2%nat));
    ("startHour2", num (unpackHour (d 3%nat)));
    ("startMinute2", num (unpackMinute (d 3%nat)));
    ("stopHour2", num (unpackHour (d 4%nat)));
    ("stopMinute2", num (unpackMinute (d 4%nat)));
    ("enablePeriod2", onoff (d 5%nat));
    ("startHour3", num (unpackHour (d 6%nat)));
    ("startMinute3", num (unpackMinute (d 6%nat)));
    ("stopHour3", num (unpackHour (d 7%nat)));
    ("stopMinute3", num (unpackMinute (d 7%nat)));
    ("enablePeriod3", onoff (d 8%nat)) ].

Definition getTouCharging (modbusClient : ModbusRTU) : M obj :=
  let* data1 := readHoldingRegisters modbusClient 1090 3 in
  let* data2 := readHoldingRegisters modbusClient 1100 9 in
  let v : obj :=
    list_to_map
      ([ ("chargePower", word_value (data1 !! 0%nat));
         ("stopSOC", word_value (data1 !! 1%nat));
         ("ac", onoff (data1 !! 2%nat)) ]
       ++ window_fields data2) in
  modify (set_touChargingValues v) ;;
  ret v.

Definition getTouDischarging (modbusClient : ModbusRTU) : M obj :=
  let* data1 := readHoldingRegisters modbusClient 1070 2 in
  let* data2 := readHoldingRegisters modbusClient 1080 9 in
  let v : obj :=
    list_to_map
      ([ ("dischargePower", word_value (data1 !! 0%nat));
         ("dischargeStopSOC", word_value (data1 !! 1%nat)) ]
       ++ window_fields data2) in
  modify (set_touDischargingValues v) ;;
  ret v.

Definition sendCommand : ModbusRTU -> string -> M (option ControlData) :=
  Shared.sendCommand setTouCharging setTouDischarging
                     getTouCharging getTouDischarging.

Definition getControlValues : ModbusRTU -> M (list ControlData) :=
  Shared.getControlValues getTouCharging getTouDischarging.

End Extended.
End Extended.

(** ** Packed revision: one window per domain, hour in the high byte *)

Module Packed.
Section Packed.
Context {RT : Runtime}.

Definition touChargingValues_default : obj :=
  list_to_map
    [ ("uwAC2BatVolt", num 50); ("chargeConfig", num 0);
      ("utiChargeStart", num 0); ("utiChargeEnd", num 0) ].

Definition touDischargingValues_default : obj :=
  list_to_map
    [ ("batLowToUtiVolt", num 30); ("utiOutStart", num 0); ("utiOutEnd", num 0) ].

Definition initial : world :=
  World touChargingValues_default touDischargingValues_default false [] [].

Definition touCharging_schema : schema :=
  {| properties :=
       [ ("uwAC2BatVolt", SNumber 0 100); ("chargeConfig", SNumber 0 2);
         ("utiChargeStart", SNumber 0 23); ("utiChargeEnd", SNumber 0 23) ];
     required := [ "uwAC2BatVolt"; "chargeConfig"; "utiChargeStart"; "utiChargeEnd" ];
     additionalProperties := false |}.

Definition touDischarging_schema : schema :=
  {| properties :=
       [ ("batLowToUtiVolt", SNumber 20 90);
         ("utiOutStart", SNumber 0 23); ("utiOutEnd", SNumber 0 23) ];
     required := [ "batLowToUtiVolt"; "utiOutStart"; "utiOutEnd" ];
     additionalProperties := false |}.

Definition setTouCharging (modbusClient : ModbusRTU) : M unit :=
  let* w := get_world in
  let v := touChargingValues w in
  if negb (validate touCharging_schema v) then
    validation_failed "Error validating setTouCharging"
  else
    let writeRegisters1 := [ get v "uwAC2BatVolt" ] in
    let writeRegisters2 := [ get v "chargeConfig" ] in
    let* writeRegisters3 :=
      words [ packH (get v "utiChargeStart"); packH (get v "utiChargeEnd") ] in
    writeRegisters modbusClient 95 writeRegisters1 ;;
    writeRegisters modbusClient 2 writeRegisters2 ;;
    writeRegisters modbusClient 5 writeRegisters3 ;;
    ret tt.

Definition setTouDischarging (modbusClient : ModbusRTU) : M unit :=
  let* w := get_world in
  let v := touDischargingValues w in
  if negb (validate touDischarging_schema v) then
    validation_failed "Error validating setTouDischarging"
  else
    let writeRegisters1 := [ get v "batLowToUtiVolt" ] in
    let* writeRegisters2 :=
      words [ packH (get v "utiOutStart"); packH (get v "utiOutEnd") ] in
    writeRegisters modbusClient 37 writeRegisters1 ;;
    writeRegisters modbusClient 3 writeRegisters2 ;;
    ret tt.

Definition getTouCharging (modbusClient : ModbusRTU) : M obj :=
  let* data1 := readHoldingRegisters modbusClient 0 7 in
  let* data2 := readHoldingRegisters modbusClient 95 1 in
  let v : obj :=
    list_to_map
      [ ("uwAC2BatVolt", word_value (data2 !! 0%nat));
        ("chargeConfig", word_value (data1 !! 2%nat));
        ("utiChargeStart", num (unpackHour (data1 !! 6%nat)));
        ("utiChargeEnd", num (unpackHour (data1 !! 7%nat))) ] in
  modify (set_touChargingValues v) ;;
  ret v.

Definition getTouDischarging (modbusClient : ModbusRTU) : M obj :=
  let* data1 := readHoldingRegisters modbusClient 3 2 in
  let* data3 := readHoldingRegisters modbusClient 37 1 in
  let v : obj :=
    list_to_map
      [ ("batLowToUtiVolt", word_value (data3 !! 0%nat));
        ("utiOutStart", num (unpackHour (data1 !! 0%nat)));
        ("utiOutEnd", num (unpackHour (data1 !! 1%nat))) ] in
  modify (set_touDischargingValues v) ;;
  ret v.

Definition sendCommand : ModbusRTU -> string -> M (option ControlData) :=
  Shared.sendCommand setTouCharging setTouDischarging
                     getTouCharging getTouDischarging.

Definition getControlValues : ModbusRTU -> M (list ControlData) :=
  Shared.getControlValues getTouCharging getTouDischarging.

End Packed.
End Packed.

(** ** Tenths revision: voltages in 0.1 units, hours in whole words *)

Module Tenths.
Section Tenths.
Context {RT : Runtime}.

Definition touChargingValues_default : obj := Packed.touChargingValues_default.
Definition touDischargingValues_default : obj := Packed.touDischargingValues_default.

Definition initial : world :=
  World touChargingValues_default touDischargingValues_default false [] [].

Definition touCharging_schema : schema :=
  {| properties :=
       [ ("uwAC2BatVolt", SNumber 30 100); ("chargeConfig", SNumber 0 2);
         ("utiChargeStart", SNumber 0 23); ("utiChargeEnd", SNumber 0 23) ];
     required := [ "uwAC2BatVolt"; "chargeConfig"; "utiChargeStart"; "utiChargeEnd" ];
     additionalProperties := false |}.

Definition touDischarging_schema : schema := Packed.touDischarging_schema.

(** [v * 10]; the product with a string, an array or an object goes
    through [ToNumber] of a text and is not modelled. *)
Definition times10 (v : value) : option value :=
  match v with
  | VNum q => Some (VNum (Qred (q * 10)))
  | VUndef | VNaN | VFunction => Some VNaN
  | VNull => Some (num 0)
  | VBool b => Some (num (if b then 10 else 0))
  | VStr _ | VArr _ | VObj _ => None
  end.

Definition setTouCharging (modbusClient : ModbusRTU) : M unit :=
  let* w := get_world in
  let v := touChargingValues w in
  if negb (validate touCharging_schema v) then
    validation_failed "Error validating setTouCharging"
  else
    let* writeRegisters1 := words [ times10 (get v "uwAC2BatVolt") ] in
    let writeRegisters2 := [ get v "chargeConfig" ] in
    let writeRegisters3 := [ get v "utiChargeStart"; get v "utiChargeEnd" ] in
    writeRegisters modbusClient 95 writeRegisters1 ;;
    writeRegisters modbusClient 2 writeRegisters2 ;;
    writeRegisters modbusClient 5 writeRegisters3 ;;
    ret tt.

Definition setTouDischarging (modbusClient : ModbusRTU) : M unit :=
  let* w := get_world in
  let v := touDischargingValues w in
  if negb (validate touDischarging_schema v) then
    validation_failed "Error validating setTouDischarging"
  else
    let* writeRegisters1 := words [ times10 (get v "batLowToUtiVolt") ] in
    let writeRegisters2 := [ get v "utiOutStart"; get v "utiOutEnd" ] in
    writeRegisters modbusClient 37 writeRegisters1 ;;
    writeRegisters modbusClient 3 writeRegisters2 ;;
    ret tt.

Definition getTouCharging (modbusClient : ModbusRTU) : M obj :=
  let* data1 := readHoldingRegisters modbusClient 0 7 in
  let* data2 := readHoldingRegisters modbusClient 95 1 in
  let v : obj :=
    list_to_map
      [ ("uwAC2BatVolt", scale_div10 (data2 !! 0%nat));
        ("chargeConfig", word_value (data1 !! 2%nat));
        ("utiChargeStart", word_value (data1 !! 5%nat));
        ("utiChargeEnd", word_value (data1 !! 6%nat)) ] in
  modify (set_touChargingValues v) ;;
  ret v.

Definition getTouDischarging (modbusClient : ModbusRTU) : M obj :=
  let* data1 := readHoldingRegisters modbusClient 3 2 in
  let* data3 := readHoldingRegisters modbusClient 37 1 in
  let v : obj :=
    list_to_map
      [ ("batLowToUtiVolt", scale_div10 (data3 !! 0%nat));
        ("utiOutStart", word_value (data1 !! 0%nat));
        ("utiOutEnd", word_value (data1 !! 1%nat)) ] in
  modify (set_touDischargingValues v) ;;
  ret v.

Definition sendCommand : ModbusRTU -> string -> M (option ControlData) :=
  Shared.sendCommand setTouCharging setTouDischarging
                     getTouCharging getTouDischarging.

(** [data[address - offset]]: a negative index reads [undefined]. *)
Definition at_address (data : list Z) (address offset : Z) : option Z :=
  if (address <? offset)%Z then None else data !! Z.to_nat (address - offset).

Definition parseInputRegisters1 (data : list Z) : list (string * value) :=
  let d (i : nat) := data !! i in
  [ ("inverterStatus", enum_lookup statusMap (d 0%nat));
    ("ppv", combine32_div10 (d 3%nat) (d 4%nat));
    ("vpv1", scale_div10 (d 1%nat));
    ("ppv1", combine32_div10 (d 3%nat) (d 4%nat));
    ("vpv2", scale_div10 (d 2%nat));
    ("ppv2", combine32_div10 (d 5%nat) (d 6%nat));
    ("buck1curr", scale_div10 (d 7%nat));
    ("vgrid", scale_div10 (d 20%nat));
    ("inverterTemperature", scale_div10 (d 25%nat));
    ("soc", word_value (d 18%nat)) ].

Definition parseInputRegisters2 (data2 : list Z) (offset2 : Z)
                                (data3 : list Z) (offset3 : Z)
  : list (string * value) :=
  let d2 (address : Z) := at_address data2 address offset2 in
  let d3 (address : Z) := at_address data3 address offset3 in
  [ ("epvToday", VNum (div10 (inject_Z (combine32 (d2 48) (d2 49)
                                        + combine32 (d3 52) (d3 53)))));
    ("epvTotal", VNum (div10 (inject_Z (combine32 (d2 50) (d3 51)
                                        + combine32 (d3 54) (d3 55)))));
    ("inverterError", enum_lookup errorMap (d2 40));
    ("pImport", combine32_div10 (d2 36) (d2 37));
    ("constantpowerok", word_value (d2 47));
    ("eImportToday", combine32_div10 (d2 48) (d2 49));
    ("eImportTotal", combine32_div10 (d2 50) (d2 51));
    ("pDischarge", combine32_div10 (d3 73) (d3 74));
    ("pExport", combine32_div10 (d3 69) (d3 70));
    ("pLoad", combine32_div10 (d3 69) (d3 70));
    ("eDischargeToday", combine32_div10 (d3 60) (d3 61));
    ("eDischargeTotal", combine32_div10 (d3 62) (d3 63));
    ("eChargeToday", combine32_div10 (d3 60) (d3 61));
    ("eChargeTotal", combine32_div10 (d3 62) (d3 63));
    ("eLoadToday", combine32_div10 (d3 64) (d3 65));
    ("eLoadTotal", combine32_div10 (d3 66) (d3 67)) ].

Definition parseInputRegisters4 (data : list Z) (offset4 : Z)
  : list (string * value) :=
  let d (address : Z) := at_address data address offset4 in
  [ ("pCharge", combine32_div10 (d 77) (d 78));
    ("eExportToday", combine32_div10 (d 85) (d 86));
    ("eExportTotal", combine32_div10 (d 87) (d 88)) ].

(** [getSensorData(modbusClient)]: four windows, parsed and spread into one
    object; the three parsers share no field name. *)
Definition getSensorData (modbusClient : ModbusRTU) : M (list (string * value)) :=
  let startdata1 := 0 in let lengthdata1 := 26 in
  let startdata2 := 26 in let lengthdata2 := 25 in
  let startdata3 := 51 in let lengthdata3 := 25 in
  let startdata4 := 76 in let lengthdata4 := 15 in
  let* inputRegisters1 := readInputRegisters modbusClient startdata1 lengthdata1 in
  let* inputRegisters2 := readInputRegisters modbusClient startdata2 lengthdata2 in
  let* inputRegisters3 := readInputRegisters modbusClient startdata3 lengthdata3 in
  let* inputRegisters4 := readInputRegisters modbusClient startdata4 lengthdata4 in
  ret (parseInputRegisters1 inputRegisters1
       ++ parseInputRegisters2 inputRegisters2 startdata2 inputRegisters3 startdata3
       ++ parseInputRegisters4 inputRegisters4 startdata4)%list.

Definition getControlValues : ModbusRTU -> M (list ControlData) :=
  Shared.getControlValues getTouCharging getTouDischarging.

End Tenths.
End Tenths.

(** ** A reference JSON reader

    An instance of [Runtime] to run the adapter on concrete messages: the
    JSON grammar (objects, arrays, strings with escapes, numbers with
    fraction and exponent, the three literals, white space), numbers read as
    exact rationals.  An escape above [u00FF] names a code unit the string
    model does not hold and is refused.  The theorems below hold for every
    [Runtime]; this one only instantiates them. *)

Module JsonReader.

Definition dquote : ascii := "034"%char.
Definition backslash : ascii := "092"%char.

Definition is_ws (c : ascii) : bool :=
  let n := nat_of_ascii c in
  (n =? 32)%nat || (n =? 9)%nat || (n =? 10)%nat || (n =? 13)%nat.

Fixpoint skip_ws (l : list ascii) : list ascii :=
  match l with
  | c :: rest => if is_ws c then skip_ws rest else l
  | [] => []
  end.

Definition digit (c : ascii) : option Z :=
  let n := nat_of_ascii c in
  if ((48 <=? n) && (n <=? 57))%nat then Some (Z.of_nat n - 48) else None.

Definition hex_digit (c : ascii) : option Z :=
  let n := nat_of_ascii c in
  if ((48 <=? n) && (n <=? 57))%nat then Some (Z.of_nat n - 48)
  else if ((65 <=? n) && (n <=? 70))%nat then Some (Z.of_nat n - 55)
  else if ((97 <=? n) && (n <=? 102))%nat then Some (Z.of_nat n - 87)
  else None.

(** A maximal run of digits: its value, its length and the rest. *)
Fixpoint digits (l : list ascii) (acc : Z) (count : nat) : Z * nat * list ascii :=
  match l with
  | c :: rest =>
      match digit c with
      | Some d => digits rest (10 * acc + d) (S count)
      | None => (acc, count, l)
      end
  | [] => (acc, count, [])
  end.

Definition pow10 (e : Z) : Q :=
  if (0 <=? e)%Z then inject_Z (10 ^ e) else (/ inject_Z (10 ^ (- e)))%Q.

Definition read_exponent (l : list ascii) : option (Z * list ascii) :=
  match l with
  | c :: rest =>
      if Ascii.eqb c "e" || Ascii.eqb c "E" then
        let '(sign, rest1) :=
          match rest with
          | s :: r => if Ascii.eqb s "-" then (-1, r)
                      else if Ascii.eqb s "+" then (1, r) else (1, rest)
          | [] => (1, rest)
          end in
        match digits rest1 0 0 with
        | (_, O, _) => None
        | (e, _, rest2) => Some (sign * e, rest2)
        end
      else Some (0, l)
  | [] => Some (0, l)
  end.

Definition read_fraction (l : list ascii) : option (Q * list ascii) :=
  match l with
  | c :: rest =>
      if Ascii.eqb c "." then
        match digits rest 0 0 with
        | (_, O, _) => None
        | (f, k, rest1) => Some ((inject_Z f * pow10 (- Z.of_nat k))%Q, rest1)
        end
      else Some (0%Q, l)
  | [] => Some (0%Q, l)
  end.

(** A number: an optional minus, an integer part without leading zero, an
    optional fraction and an optional exponent. *)
Definition read_number (l : list ascii) : option (value * list ascii) :=
  let '(negative, l1) :=
    match l with
    | c :: rest => if Ascii.eqb c "-" then (true, rest) else (false, l)
    | [] => (false, l)
    end in
  '(int, l2) ←
    match l1 with
    | c :: rest =>
        if Ascii.eqb c "0" then Some (0, rest)
        else match digits l1 0 0 with
             | (_, O, _) => None
             | (n, _, rest1) => Some (n, rest1)
             end
    | [] => None
    end;
  '(frac, l3) ← read_fraction l2;
  '(e, l4) ← read_exponent l3;
  let magnitude := ((inject_Z int + frac) * pow10 e)%Q in
  Some (VNum (Qred (if negative : bool then (- magnitude)%Q else magnitude)), l4).

(** The characters of a string after its opening quote. *)
Fixpoint read_string (l : list ascii) (acc : list ascii) : option (string * list ascii) :=
  match l with
  | [] => None
  | c :: rest =>
      if Ascii.eqb c dquote then Some (string_of_list_ascii (rev acc), rest)
      else if Ascii.eqb c backslash then
        match rest with
        | e :: rest1 =>
            let plain (x : ascii) := read_string rest1 (x :: acc) in
            if Ascii.eqb e dquote then plain dquote
            else if Ascii.eqb e backslash then plain backslash
            else if Ascii.eqb e "/" then plain "/"%char
            else if Ascii.eqb e "b" then plain "008"%char
            else if Ascii.eqb e "f" then plain "012"%char
            else if Ascii.eqb e "n" then plain "010"%char
            else if Ascii.eqb e "r" then plain "013"%char
            else if Ascii.eqb e "t" then plain "009"%char
            else if Ascii.eqb e "u" then
              match rest1 with
              | a :: b :: c' :: d :: rest2 =>
                  match hex_digit a, hex_digit b, hex_digit c', hex_digit d with
                  | Some 0, Some 0, Some x, Some y =>
                      read_string rest2 (ascii_of_nat (Z.to_nat (16 * x + y)) :: acc)
                  | _, _, _, _ => None
                  end
              | _ => None
              end
            else None
        | [] => None
        end
      else if (nat_of_ascii c <? 32)%nat then None
      else read_string rest (c :: acc)
  end.

Definition starts_with (lit : string) (l : list ascii) : option (list ascii) :=
  let p := list_ascii_of_string lit in
  if bool_decide (take (length p) l = p) then Some (drop (length p) l) else None.

(** A value, the elements of an array after its bracket and the members of
    an object after its brace.  Every call has consumed a character since
    the one before, so a fuel above the length of the text is never used
    up. *)
Fixpoint read_value (fuel : nat) (l : list ascii) : option (value * list ascii) :=
  match fuel with
  | O => None
  | S fuel' =>
      match skip_ws l with
      | [] => None
      | c :: rest =>
          if Ascii.eqb c "{" then
            match skip_ws rest with
            | c' :: rest' =>
                if Ascii.eqb c' "}" then Some (VObj [], rest')
                else read_members fuel' rest []
            | [] => None
            end
          else if Ascii.eqb c "[" then
            match skip_ws rest with
            | c' :: rest' =>
                if Ascii.eqb c' "]" then Some (VArr [], rest')
                else read_elements fuel' rest []
            | [] => None
            end
          else if Ascii.eqb c dquote then
            '(s, rest') ← read_string rest []; Some (VStr s, rest')
          else
            match starts_with "true" (c :: rest), starts_with "false" (c :: rest),
                  starts_with "null" (c :: rest) with
            | Some rest', _, _ => Some (VBool true, rest')
            | _, Some rest', _ => Some (VBool false, rest')
            | _, _, Some rest' => Some (VNull, rest')
            | _, _, _ => read_number (c :: rest)
            end
      end
  end
with read_elements (fuel : nat) (l : list ascii) (acc : list value)
  : option (value * list ascii) :=
  match fuel with
  | O => None
  | S fuel' =>
      '(v, rest) ← read_value fuel' l;
      match skip_ws rest with
      | c :: rest' =>
          if Ascii.eqb c "," then read_elements fuel' rest' (acc ++ [v])
          else if Ascii.eqb c "]" then Some (VArr (acc ++ [v]), rest')
          else None
      | [] => None
      end
  end
with read_members (fuel : nat) (l : list ascii) (acc : list (string * value))
  : option (value * list ascii) :=
  match fuel with
  | O => None
  | S fuel' =>
      match skip_ws l with
      | c :: rest =>
          if Ascii.eqb c dquote then
            '(key, rest1) ← read_string rest [];
            match skip_ws rest1 with
            | c1 :: rest2 =>
                if Ascii.eqb c1 ":" then
                  '(v, rest3) ← read_value fuel' rest2;
                  match skip_ws rest3 with
                  | c3 :: rest4 =>
                      if Ascii.eqb c3 "," then
                        read_members fuel' rest4 (acc ++ [(key, v)])
                      else if Ascii.eqb c3 "}" then
                        Some (VObj (acc ++ [(key, v)]), rest4)
                      else None
                  | [] => None
                  end
                else None
            | [] => None
            end
          else None
      | [] => None
      end
  end.

Definition read (text : string) : option value :=
  let l := list_ascii_of_string text in
  '(v, rest) ← read_value (S (length l)) l;
  match skip_ws rest with
  | [] => Some v
  | _ :: _ => None
  end.

End JsonReader.

#[export] Instance reference_runtime : Runtime := {| JSON_parse := JsonReader.read |}.

(** A device that answers every read with zeros and acknowledges every
    write, and one that rejects every call. *)
Definition zero_device : ModbusRTU :=
  fun _ c =>
    match c with
    | ReadInputRegisters _ len | ReadHoldingRegisters _ len =>
        Data (repeat 0 (Z.to_nat len))
    | WriteRegisters _ _ => Data []
    end.

Definition dead_device : ModbusRTU := fun _ _ => Rejected "Timed out".

(** A device with the given input and holding registers: a read of [len]
    words from [dataAddress] returns them; writes are acknowledged and
    change nothing. *)
Definition register_device (input holding : Z -> Z) : ModbusRTU :=
  fun _ c =>
    match c with
    | ReadInputRegisters dataAddress len =>
        Data (map input (seqZ dataAddress len))
    | ReadHoldingRegisters dataAddress len =>
        Data (map holding (seqZ dataAddress len))
    | WriteRegisters _ _ => Data []
    end.

Definition input_device (register : Z -> Z) : ModbusRTU :=
  register_device register (fun _ => 0).

(** ** The backup scripts

    The two stand-alone scripts that dump the inverter's registers to the
    file [growattbackup.txt]: [backupGrowattSPF5000.ts], which reads each
    register space in one window, and its revision that reads in windows of
    at most 26 registers.  The embedding starts where the serial connection
    is open (the configuration file and the port are not modelled); the
    scripts call the channel directly, without a mutex.  [runBackup] returns
    the text it hands to [fs.writeFile]; a rejected read is an unhandled
    rejection of the script, before which nothing is written. *)

Module Backup.

(** The line feed. *)
Definition nl : string := String "010"%char "".

(** [for (let i in data) { backupText = backupText.concat(`${i} ${data[i]}\n`) }],
    from index [i] on. *)
Fixpoint register_lines_from (i : nat) (backupText : string) (data : list Z)
  : string :=
  match data with
  | [] => backupText
  | z :: rest =>
      register_lines_from (S i) (backupText ++ pretty i ++ " " ++ pretty z ++ nl)
                          rest
  end.

Definition register_lines : string -> list Z -> string := register_lines_from 0.

Definition readHoldingRegisters (modbusClient : ModbusRTU) (dataAddress len : Z)
  : M (list Z) :=
  channel_call modbusClient (ReadHoldingRegisters dataAddress len).

Definition readInputRegisters (modbusClient : ModbusRTU) (dataAddress len : Z)
  : M (list Z) :=
  channel_call modbusClient (ReadInputRegisters dataAddress len).

(** [runBackup()] of [backupGrowattSPF5000.ts]. *)
Definition runBackup (modbusClient : ModbusRTU) : M string :=
  console_log "This back up utility is currently only written for SPF5000 inverters" ;;
  console_log "Connecting to inverter" ;;
  console_log "Reading values" ;;
  let* data1 := readHoldingRegisters modbusClient 0 162 in
  let* data3 := readInputRegisters modbusClient 0 90 in
  let backupText := "" in
  let backupText :=
    backupText ++ "Growatt Registers Backup" ++ nl ++ "Holding Registers 0-162" ++ nl in
  let backupText := register_lines backupText data1 in
  let backupText := backupText ++ "Input Registers 0-90" ++ nl in
  let backupText := register_lines backupText data3 in
  let backupText := backupText ++ "End" ++ nl in
  console_log "Writing to growattbackup.txt" ;;
  console_log "Backup done" ;;
  ret backupText.

(** [runBackup()] of the revision that reads in windows. *)
Definition runBackup_windows (modbusClient : ModbusRTU) : M string :=
  console_log "This back up utility is currently only written for SPF5000 inverters" ;;
  console_log "Connecting to inverter" ;;
  console_log "Reading values" ;;
  let* data1 := readHoldingRegisters modbusClient 0 26 in
  let* data2 := readHoldingRegisters modbusClient 26 25 in
  let* data3 := readHoldingRegisters modbusClient 51 25 in
  let* data4 := readHoldingRegisters modbusClient 76 25 in
  let* data5 := readHoldingRegisters modbusClient 101 25 in
  let* data6 := readHoldingRegisters modbusClient 126 25 in
  let* data7 := readHoldingRegisters modbusClient 151 12 in
  let* idata1 := readInputRegisters modbusClient 0 26 in
  let* idata2 := readInputRegisters modbusClient 26 25 in
  let* idata3 := readInputRegisters modbusClient 51 25 in
  let* idata4 := readInputRegisters modbusClient 76 14 in
  let backupText := "" in
  let backupText := backupText ++ "Holding Registers 0-25" ++ nl in
  let backupText := register_lines backupText data1 in
  let backupText := backupText ++ "Holding Registers 26-50" ++ nl in
  let backupText := register_lines backupText data2 in
  let backupText := backupText ++ "Holding Registers 51-75" ++ nl in
  let backupText := register_lines backupText data3 in
  let backupText := backupText ++ "Holding Registers 76-100" ++ nl in
  let backupText := register_lines backupText data4 in
  let backupText := backupText ++ "Holding Registers 101-125" ++ nl in
  let backupText := register_lines backupText data5 in
  let backupText := backupText ++ "Holding Registers 126-150" ++ nl in
  let backupText := register_lines backupText data6 in
  let backupText := backupText ++ "Holding Registers 151-162" ++ nl in
  let backupText := register_lines backupText data7 in
  let backupText := backupText ++ "Input Registers 0-25" ++ nl in
  let backupText := register_lines backupText idata1 in
  let backupText := backupText ++ "Input Registers 26-50" ++ nl in
  let backupText := register_lines backupText idata2 in
  let backupText := backupText ++ "Input Registers 51-75" ++ nl in
  let backupText := register_lines backupText idata3 in
  let backupText := backupText ++ "Input Registers 76-90" ++ nl in
  let backupText := register_lines backupText idata4 in
  let backupText := backupText ++ "End" ++ nl in
  console_log "Writing to growattbackup.txt" ;;
  console_log "Backup done" ;;
  ret backupText.

End Backup.

(** * The vocabulary of the properties

    Tables of the fields and methods the properties range over, the
    pure functions the methods are compared with, the claims that are
    refuted, stated as propositions, and the worlds and devices of the
    examples. *)

(** ** The sensor snapshot *)

(** The fields of [parseInputRegisters] that are one 32-bit combine over ten,
    with the index of their first word. *)
Definition two_word_fields : list (string * nat) :=
  [ ("ppv", 3); ("ppv1", 3); ("ppv2", 5); ("pDischarge", 73); ("pCharge", 77);
    ("pImport", 36); ("pExport", 69); ("pLoad", 69);
    ("eImportToday", 48); ("eImportTotal", 50);
    ("eExportToday", 85); ("eExportTotal", 87);
    ("eDischargeToday", 60); ("eDischargeTotal", 62);
    ("eChargeToday", 60); ("eChargeTotal", 62);
    ("eLoadToday", 64); ("eLoadTotal", 66) ]%nat.

(** A 90-word window whose words [first] and [first + 1] are [hi] and [lo]. *)
Definition window_at (first : nat) (hi lo : Z) : list Z :=
  repeat 0 first ++ [hi; lo] ++ repeat 0 (88 - first).

(** The input registers all zero but for register 51, which holds 0x0001:
    the window [0x0000, 0x0001] at addresses 50 and 51. *)
Definition low_word_device : ModbusRTU :=
  input_device (fun address => if Z.eqb address 51 then 0x0001 else 0x0000).

(** ** The six [set] methods *)

(** Two domains in three revisions. *)
Inductive set_method : Type :=
  | ExtendedCharging | ExtendedDischarging
  | PackedCharging | PackedDischarging
  | TenthsCharging | TenthsDischarging.

(** The method itself, the cache it validates and writes, its schema and
    the string it throws. *)
Definition run_set (m : set_method) : ModbusRTU -> M unit :=
  match m with
  | ExtendedCharging => Extended.setTouCharging
  | ExtendedDischarging => Extended.setTouDischarging
  | PackedCharging => Packed.setTouCharging
  | PackedDischarging => Packed.setTouDischarging
  | TenthsCharging => Tenths.setTouCharging
  | TenthsDischarging => Tenths.setTouDischarging
  end.

Definition cache_of (m : set_method) : world -> obj :=
  match m with
  | ExtendedCharging | PackedCharging | TenthsCharging => touChargingValues
  | ExtendedDischarging | PackedDischarging | TenthsDischarging =>
      touDischargingValues
  end.

Definition schema_of (m : set_method) : schema :=
  match m with
  | ExtendedCharging => Extended.touCharging_schema
  | ExtendedDischarging => Extended.touDischarging_schema
  | PackedCharging => Packed.touCharging_schema
  | PackedDischarging => Packed.touDischarging_schema
  | TenthsCharging => Tenths.touCharging_schema
  | TenthsDischarging => Tenths.touDischarging_schema
  end.

Definition error_text (m : set_method) : string :=
  match m with
  | ExtendedCharging | PackedCharging | TenthsCharging =>
      "Error validating setTouCharging"
  | ExtendedDischarging | PackedDischarging | TenthsDischarging =>
      "Error validating setTouDischarging"
  end.

(** The fields the control entities present in per cent. *)
Definition percentage_fields (m : set_method) : list string :=
  match m with
  | ExtendedCharging => [ "chargePower"; "stopSOC" ]
  | ExtendedDischarging => [ "dischargePower"; "dischargeStopSOC" ]
  | PackedCharging | TenthsCharging => [ "uwAC2BatVolt" ]
  | PackedDischarging | TenthsDischarging => [ "batLowToUtiVolt" ]
  end.

(** The addresses a [set] method writes, in the order of its calls. *)
Definition write_order (m : set_method) : list Z :=
  match m with
  | ExtendedCharging => [ 1090; 1100 ]
  | ExtendedDischarging => [ 1070; 1080 ]
  | PackedCharging | TenthsCharging => [ 95; 2; 5 ]
  | PackedDischarging | TenthsDischarging => [ 37; 3 ]
  end.

(** ** Worlds and claims of the validation properties *)

(** The extended revision fresh, but for a charge power of 150. *)
Definition overcharged : world :=
  set_touChargingValues
    (<["chargePower" := num 150]> Extended.touChargingValues_default)
    Extended.initial.




(** ** The merge *)

(** The two control domains and the name [updateControl] knows them by. *)
Inductive domain : Type := TouCharging | TouDischarging.

Definition topic (d : domain) : string :=
  match d with
  | TouCharging => "touCharging"
  | TouDischarging => "touDischarging"
  end.

(** A domain's cache in the world, and its replacement. *)
Definition cached (d : domain) : world -> obj :=
  match d with
  | TouCharging => touChargingValues
  | TouDischarging => touDischargingValues
  end.

Definition set_cached (d : domain) : obj -> world -> world :=
  match d with
  | TouCharging => set_touChargingValues
  | TouDischarging => set_touDischargingValues
  end.

(** The domain a [set] method flushes. *)
Definition domain_of (m : set_method) : domain :=
  match m with
  | ExtendedCharging | PackedCharging | TenthsCharging => TouCharging
  | ExtendedDischarging | PackedDischarging | TenthsDischarging => TouDischarging
  end.

(** What [updateControl] returns: both domains' cached values. *)
Definition control_data (w : world) : list ControlData :=
  [ {| subTopic := "touCharging"; values := touChargingValues w |};
    {| subTopic := "touDischarging"; values := touDischargingValues w |} ].

(** The test that lets a name of the message through to a cache. *)
Definition recognized (subTopic : string) (w : world) (key : string) : bool :=
  str_eq subTopic "touCharging" && has_field (touChargingValues w) key
  || str_eq subTopic "touDischarging" && has_field (touDischargingValues w) key.

(** The merge on one cache object, name by name. *)
Definition merge_step (props : list (string * value)) (o : obj) (key : string)
  : option obj :=
  if has_field o key then assign o key (default VUndef (prop_get props key))
  else Some o.

(** The whole [forEach] on one cache object; [None] when a step leaves the
    embedding. *)
Fixpoint merge_all (props : list (string * value)) (keys : list string) (o : obj)
  : option obj :=
  match keys with
  | [] => Some o
  | key :: rest => o' ← merge_step props o key; merge_all props rest o'
  end.

(** The console line of the [catch] block, without its time stamp. *)
Definition parse_error_line : string :=
  "Error parsing controlMessage in updateControl(). Continuing.".

(** The claim that a message which does not parse is reported to the caller
    as a failure. *)
Definition malformed_is_reported {RT : Runtime} : Prop :=
  forall (subTopic controlMessage : string) (w : world),
    JSON_parse (replace_quotes controlMessage) = None ->
    exists e, fst (updateControl subTopic controlMessage w) = Throw e.

(** What the [try] block of [updateControl] does with a parse result that is
    no mapping: it throws on a failed parse and on [null]. *)
Definition try_block_throws (parsed : option value) : bool :=
  match parsed with
  | None | Some VNull | Some VUndef => true
  | Some _ => false
  end.

(** The parse result is an object. *)
Definition is_mapping (parsed : option value) : bool :=
  match parsed with
  | Some (VObj _) => true
  | _ => false
  end.

(** ** The dispatcher and the writes *)

(** The five [case] labels of [sendCommand]. *)
Definition known_commands : list string :=
  [ "setTouCharging"; "getTouCharging"; "setTouDischarging";
    "getTouDischarging"; "getTime" ].

(** A run of [await this.writeRegisters(...)] statements. *)
Fixpoint write_all (modbusClient : ModbusRTU) (groups : list (Z * list value))
  : M unit :=
  match groups with
  | [] => ret tt
  | (dataAddress, values) :: rest =>
      writeRegisters modbusClient dataAddress values ;;
      write_all modbusClient rest
  end.

(** The call a write group makes. *)
Definition write_call (group : Z * list value) : call :=
  WriteRegisters (fst group) (snd group).

(** The addresses of the writes among some calls. *)
Definition write_addresses (cs : list call) : list Z :=
  omap (fun c => match c with
                 | WriteRegisters dataAddress _ => Some dataAddress
                 | _ => None
                 end) cs.

(** The channel acknowledges every write. *)
Definition acknowledges (modbusClient : ModbusRTU) : Prop :=
  forall history dataAddress values,
    exists data, modbusClient history (WriteRegisters dataAddress values) = Data data.

(** The write groups of a [set] method on a cache that passed validation:
    each group's address and words, in the order of the calls. *)
Definition groups_of (m : set_method) (v : obj) : option (list (Z * list value)) :=
  match m with
  | ExtendedCharging =>
      ws ← mapM id (Extended.window_words v);
      Some [ (1090, [ get v "chargePower"; get v "stopSOC"; on_word (get v "ac") ]);
             (1100, ws) ]
  | ExtendedDischarging =>
      ws ← mapM id (Extended.window_words v);
      Some [ (1070, [ get v "dischargePower"; get v "dischargeStopSOC" ]);
             (1080, ws) ]
  | PackedCharging =>
      ws ← mapM id [ packH (get v "utiChargeStart"); packH (get v "utiChargeEnd") ];
      Some [ (95, [ get v "uwAC2BatVolt" ]); (2, [ get v "chargeConfig" ]); (5, ws) ]
  | PackedDischarging =>
      ws ← mapM id [ packH (get v "utiOutStart"); packH (get v "utiOutEnd") ];
      Some [ (37, [ get v "batLowToUtiVolt" ]); (3, ws) ]
  | TenthsCharging =>
      ws ← mapM id [ Tenths.times10 (get v "uwAC2BatVolt") ];
      Some [ (95, ws); (2, [ get v "chargeConfig" ]);
             (5, [ get v "utiChargeStart"; get v "utiChargeEnd" ]) ]
  | TenthsDischarging =>
      ws ← mapM id [ Tenths.times10 (get v "batLowToUtiVolt") ];
      Some [ (37, ws); (3, [ get v "utiOutStart"; get v "utiOutEnd" ]) ]
  end.

(** The claim that every [set] method writes at strictly increasing
    addresses. *)
Definition writes_ascend : Prop :=
  forall (m : set_method) (modbusClient : ModbusRTU) (w : world),
    StronglySorted Z.lt
      (write_addresses
         (drop (length (calls w)) (calls (snd (run_set m modbusClient w))))).

(** The methods of the extended revision, whose addresses ascend. *)
Definition ascending_revision (m : set_method) : bool :=
  match m with
  | ExtendedCharging | ExtendedDischarging => true
  | _ => false
  end.

(** Where the nine window words keep each boundary: its index, the hour
    field and the minute field. *)
Definition window_boundaries : list (nat * string * string) :=
  [ (0, "startHour1", "startMinute1"); (1, "stopHour1", "stopMinute1");
    (3, "startHour2", "startMinute2"); (4, "stopHour2", "stopMinute2");
    (6, "startHour3", "startMinute3"); (7, "stopHour3", "stopMinute3") ]%nat.

(** Where they keep each enable switch. *)
Definition window_switches : list (nat * string) :=
  [ (2, "enablePeriod1"); (5, "enablePeriod2"); (8, "enablePeriod3") ]%nat.

(** A cache read earlier from the device: discharging from 06:30 to 17:45 in
    the first window, stop at 20 per cent. *)
Definition scheduled : world :=
  set_touDischargingValues
    (<["startHour1" := num 6]> (<["startMinute1" := num 30]>
     (<["stopHour1" := num 17]> (<["stopMinute1" := num 45]>
     (<["enablePeriod1" := VStr "ON"]> (<["dischargeStopSOC" := num 20]>
      Extended.touDischargingValues_default))))))
    Extended.initial.

(** ** The six [get] methods *)

(** The [get] method of a [set] method's revision and domain. *)
Definition run_get (m : set_method) : ModbusRTU -> M obj :=
  match m with
  | ExtendedCharging => Extended.getTouCharging
  | ExtendedDischarging => Extended.getTouDischarging
  | PackedCharging => Packed.getTouCharging
  | PackedDischarging => Packed.getTouDischarging
  | TenthsCharging => Tenths.getTouCharging
  | TenthsDischarging => Tenths.getTouDischarging
  end.

(** Its two reads, each an address and a length, in the order of the
    calls. *)
Definition first_read (m : set_method) : Z * Z :=
  match m with
  | ExtendedCharging => (1090, 3)
  | ExtendedDischarging => (1070, 2)
  | PackedCharging | TenthsCharging => (0, 7)
  | PackedDischarging | TenthsDischarging => (3, 2)
  end.

Definition second_read (m : set_method) : Z * Z :=
  match m with
  | ExtendedCharging => (1100, 9)
  | ExtendedDischarging => (1080, 9)
  | PackedCharging | TenthsCharging => (95, 1)
  | PackedDischarging | TenthsDischarging => (37, 1)
  end.

(** The call a read of holding registers makes. *)
Definition holding_read (window : Z * Z) : call :=
  ReadHoldingRegisters (fst window) (snd window).

(** The object literal it builds from the words of the first and of the
    second read. *)
Definition decode (m : set_method) (first second : list Z) : obj :=
  match m with
  | ExtendedCharging =>
      list_to_map
        ([ ("chargePower", word_value (first !! 0%nat));
           ("stopSOC", word_value (first !! 1%nat));
           ("ac", onoff (first !! 2%nat)) ]
         ++ Extended.window_fields second)
  | ExtendedDischarging =>
      list_to_map
        ([ ("dischargePower", word_value (first !! 0%nat));
           ("dischargeStopSOC", word_value (first !! 1%nat)) ]
         ++ Extended.window_fields second)
  | PackedCharging =>
      list_to_map
        [ ("uwAC2BatVolt", word_value (second !! 0%nat));
          ("chargeConfig", word_value (first !! 2%nat));
          ("utiChargeStart", num (unpackHour (first !! 6%nat)));
          ("utiChargeEnd", num (unpackHour (first !! 7%nat))) ]
  | PackedDischarging =>
      list_to_map
        [ ("batLowToUtiVolt", word_value (second !! 0%nat));
          ("utiOutStart", num (unpackHour (first !! 0%nat)));
          ("utiOutEnd", num (unpackHour (first !! 1%nat))) ]
  | TenthsCharging =>
      list_to_map
        [ ("uwAC2BatVolt", scale_div10 (second !! 0%nat));
          ("chargeConfig", word_value (first !! 2%nat));
          ("utiChargeStart", word_value (first !! 5%nat));
          ("utiChargeEnd", word_value (first !! 6%nat)) ]
  | TenthsDischarging =>
      list_to_map
        [ ("batLowToUtiVolt", scale_div10 (second !! 0%nat));
          ("utiOutStart", word_value (first !! 0%nat));
          ("utiOutEnd", word_value (first !! 1%nat)) ]
  end.

(** The other domain. *)
Definition other (d : domain) : domain :=
  match d with
  | TouCharging => TouDischarging
  | TouDischarging => TouCharging
  end.

(** How a [get] method ends on a free mutex, by the device's two answers. *)
Definition get_result (m : set_method) (modbusClient : ModbusRTU) (w : world)
  : outcome obj * world :=
  let w1 := add_call (holding_read (first_read m)) w in
  let w2 := add_call (holding_read (second_read m)) w1 in
  match modbusClient (calls w) (holding_read (first_read m)) with
  | Rejected reason => (Throw (ChannelError reason), w1)
  | Data first =>
      match modbusClient (calls w1) (holding_read (second_read m)) with
      | Rejected reason => (Throw (ChannelError reason), w2)
      | Data second =>
          (Ret (decode m first second),
           set_cached (domain_of m) (decode m first second) w2)
      end
  end.

(** A device that answers the first read and rejects every later call. *)
Definition one_answer_device : ModbusRTU :=
  fun history _ =>
    match history with
    | [] => Data [ 80; 60; 1 ]
    | _ :: _ => Rejected "Timed out"
    end.

(** ** A device that keeps what is written *)

(** The value a call writes to a holding register, if it writes there. *)
Definition written_by (c : call) (address : Z) : option value :=
  match c with
  | WriteRegisters dataAddress values =>
      if (dataAddress <=? address)%Z
      then values !! Z.to_nat (address - dataAddress)
      else None
  | _ => None
  end.

(** The value the calls made so far have last written to a holding
    register. *)
Fixpoint written (history : list call) (address : Z) : option value :=
  match history with
  | [] => None
  | c :: rest =>
      match written rest address with
      | Some v => Some v
      | None => written_by c address
      end
  end.

(** The channel acknowledges every write and answers a read of [len]
    holding registers with [len] words, among them every 16-bit word that
    was last written to one of the registers read. *)
Definition remembers (modbusClient : ModbusRTU) : Prop :=
  acknowledges modbusClient
  /\ forall history dataAddress len,
       exists data,
         modbusClient history (ReadHoldingRegisters dataAddress len) = Data data
         /\ length data = Z.to_nat len
         /\ forall (i : nat) (z : Z),
              (Z.of_nat i < len)%Z ->
              written history (dataAddress + Z.of_nat i) = Some (num z) ->
              data !! i = Some z.

(** Such a device: a holding register holds the integer part of the number
    last written to it, and zero before. *)
Definition memory_device : ModbusRTU :=
  fun history c =>
    match c with
    | ReadHoldingRegisters dataAddress len =>
        Data (map (fun address =>
                     match written history address with
                     | Some (VNum q) => Qtrunc q
                     | _ => 0
                     end)
                  (seqZ dataAddress len))
    | ReadInputRegisters _ len => Data (repeat 0 (Z.to_nat len))
    | WriteRegisters _ _ => Data []
    end.

(** Every number of the cache is an integer. *)
Definition integral (sch : schema) (v : obj) : Prop :=
  forall key lo hi,
    In (key, SNumber lo hi) (properties sch) -> exists z, get v key = num z.

(** Every switch of the cache is one of the two texts the [get] methods
    produce. *)
Definition exact_switches (sch : schema) (v : obj) : Prop :=
  forall key alts,
    In (key, SString alts) (properties sch) ->
    get v key = VStr "ON" \/ get v key = VStr "OFF".

(** The object a schema with no additional properties describes: its
    declared names with the values of [v]. *)
Definition declared_fields (sch : schema) (v : obj) : obj :=
  list_to_map (map (fun key => (key, get v key)) (properties sch).*1).

(** A schedule of the extended revision and one of the packed revision. *)
Definition charging_schedule : obj :=
  <["chargePower" := num 80]> (<["stopSOC" := num 60]> (<["ac" := VStr "ON"]>
  (<["startHour1" := num 6]> (<["startMinute1" := num 30]>
  (<["stopHour1" := num 17]> (<["stopMinute1" := num 45]>
  (<["enablePeriod1" := VStr "ON"]> Extended.touChargingValues_default))))))).

Definition packed_schedule : obj :=
  <["utiChargeStart" := num 6]> (<["utiChargeEnd" := num 17]>
    Packed.touChargingValues_default).

(** The extended revision with the charging schedule cached, and the packed
    revision with its own. *)
Definition scheduled_charging : world :=
  set_touChargingValues charging_schedule Extended.initial.

Definition packed_scheduled : world :=
  set_touChargingValues packed_schedule Packed.initial.

(** ** The names of a control message *)

(** The names [updateControl] runs over: the keys of the parsed message, none
    when the [try] block throws before the loop. *)
Definition named_fields (parsed : option value) : list string :=
  default [] (parsed ≫= Object_keys).

(** The domain a subtopic names, if it names one. *)
Definition domain_named (subTopic : string) : option domain :=
  if str_eq subTopic "touCharging" then Some TouCharging
  else if str_eq subTopic "touDischarging" then Some TouDischarging
  else None.

(** ** Switches *)

(** Where [setTouCharging] of the extended revision writes each switch: the
    field, the write (0 for registers 1090.., 1 for registers 1100..) and the
    index of the word. *)
Definition charging_switches : list (string * (nat * nat)) :=
  [ ("ac", (0, 2)); ("enablePeriod1", (1, 2)); ("enablePeriod2", (1, 5));
    ("enablePeriod3", (1, 8)) ]%nat.

(** A valid charging cache whose [ac] switch is a text that contains ON but
    is not the text ON. *)
Definition loosely_on : world :=
  set_touChargingValues
    (<["ac" := VStr "ON "]> Extended.touChargingValues_default)
    Extended.initial.

(** ** The public methods *)

(** The three revisions of the class, and the [set] methods of each. *)
Inductive revision : Type := PackedRevision | TenthsRevision | ExtendedRevision.

Definition charging (r : revision) : set_method :=
  match r with
  | PackedRevision => PackedCharging
  | TenthsRevision => TenthsCharging
  | ExtendedRevision => ExtendedCharging
  end.

Definition discharging (r : revision) : set_method :=
  match r with
  | PackedRevision => PackedDischarging
  | TenthsRevision => TenthsDischarging
  | ExtendedRevision => ExtendedDischarging
  end.

(** A call of one of the public asynchronous methods or of
    [updateControl]. *)
Inductive request : Type :=
  | UpdateControl (subTopic controlMessage : string)
  | GetControlValues
  | GetSensorData
  | SendCommand (commandString : string).

(** A revision's [getControlValues], [getSensorData] and [sendCommand]. *)
Definition getControlValues_of {RT : Runtime} (r : revision)
  : ModbusRTU -> M (list ControlData) :=
  match r with
  | PackedRevision => Packed.getControlValues
  | TenthsRevision => Tenths.getControlValues
  | ExtendedRevision => Extended.getControlValues
  end.

Definition getSensorData_of {RT : Runtime} (r : revision)
  : ModbusRTU -> M (list (string * value)) :=
  match r with
  | TenthsRevision => Tenths.getSensorData
  | PackedRevision | ExtendedRevision => getSensorData
  end.

Definition sendCommand_of {RT : Runtime} (r : revision)
  : ModbusRTU -> string -> M (option ControlData) :=
  match r with
  | PackedRevision => Packed.sendCommand
  | TenthsRevision => Tenths.sendCommand
  | ExtendedRevision => Extended.sendCommand
  end.

(** The world a request leaves, whatever it returns or throws. *)
Definition serve {RT : Runtime} (r : revision) (modbusClient : ModbusRTU)
                 (q : request) (w : world) : world :=
  match q with
  | UpdateControl subTopic controlMessage =>
      snd (updateControl subTopic controlMessage w)
  | GetControlValues => snd (getControlValues_of r modbusClient w)
  | GetSensorData => snd (getSensorData_of r modbusClient w)
  | SendCommand commandString =>
      snd (sendCommand_of r modbusClient commandString w)
  end.

(** Requests served one after the other, each on the world the one before
    left. *)
Definition serve_all {RT : Runtime} (r : revision) (modbusClient : ModbusRTU)
                     (requests : list request) (w : world) : world :=
  fold_left (fun w q => serve r modbusClient q w) requests w.

(** A computation that, started with the mutex free, ends with the mutex
    free. *)
Definition keeps_free {A} (m : M A) : Prop :=
  forall w, mutex w = false -> mutex (snd (m w)) = false.

(** A day's traffic on a device that answers nothing. *)
Definition mixed_requests : list request :=
  [ SendCommand "{}"; UpdateControl "touCharging" "{'chargePower': 150}";
    SendCommand (replace_quotes "{'command': 'setTouCharging'}");
    GetControlValues; GetSensorData;
    SendCommand (replace_quotes "{'command': 'getTime'}") ].

(** The four reads of [getControlValues], in the order of the calls. *)
Definition control_reads (r : revision) : list call :=
  map holding_read
      [ first_read (charging r); second_read (charging r);
        first_read (discharging r); second_read (discharging r) ].

(** A device that answers three calls and rejects every later one. *)
Definition three_answers_device : ModbusRTU :=
  fun history _ =>
    if (length history <? 3)%nat then Data [ 80; 60; 1; 0; 0; 0; 0; 0; 0 ]
    else Rejected "Timed out".

(** ** The two ways to read the sensor snapshot *)

(** The field names of [parseInputRegisters]. *)
Definition sensor_fields : list string := (parseInputRegisters []).*1.

(** ** Requests that read *)

(** A computation that adds only reads to the call log. *)
Definition reads_only {A} (m : M A) : Prop :=
  forall w, exists new,
    calls (snd (m w)) = (calls w ++ new)%list /\ write_addresses new = [].

(** The request is [sendCommand] with one of the two [set] commands. *)
Definition asks_to_write {RT : Runtime} (q : request) : bool :=
  match q with
  | SendCommand commandString =>
      match JSON_parse commandString with
      | Some (VObj props) =>
          match prop_get props "command" with
          | Some (VStr name) =>
              str_eq name "setTouCharging" || str_eq name "setTouDischarging"
          | _ => false
          end
      | _ => false
      end
  | _ => false
  end.

(** ** Packed words *)

(** The revisions whose [set] methods shift hours into a word. *)
Definition packs (m : set_method) : bool :=
  match m with
  | TenthsCharging | TenthsDischarging => false
  | _ => true
  end.

(** A word of a write is an integer between 0 and 0x173B (23:59). *)
Definition clock_word_range (x : value) : Prop :=
  exists z, x = num z /\ 0 <= z <= 0x173B.

(** A valid cache with a fractional hour and a fractional minute. *)
Definition fractional_schedule : obj :=
  <["startHour1" := VNum 22.5]> (<["startMinute1" := VNum 58.9]>
    Extended.touChargingValues_default).

(** ** What a command leaves in the caches *)

(** Both caches of [w'] are those of [w]. *)
Definition same_caches (w w' : world) : Prop :=
  touChargingValues w' = touChargingValues w
  /\ touDischargingValues w' = touDischargingValues w.

(** The reply of a command and the caches it leaves, against the caches
    before: a reply under a domain's subtopic carries that domain's cache as
    it is now, and the other cache is as before; every other end leaves both
    caches as they were. *)
Definition reply_matches_store (w : world) (run : outcome (option ControlData) * world)
  : Prop :=
  match fst run with
  | Ret (Some reply) =>
      (subTopic reply = "touCharging"
       /\ values reply = touChargingValues (snd run)
       /\ touDischargingValues (snd run) = touDischargingValues w)
      \/ (subTopic reply = "touDischarging"
          /\ values reply = touDischargingValues (snd run)
          /\ touChargingValues (snd run) = touChargingValues w)
      \/ (subTopic reply = "time" /\ same_caches w (snd run))
  | _ => same_caches w (snd run)
  end.

(** ** The backup scripts *)

(** The two scripts, and the reads of each in the order of its calls. *)
Inductive backup_script : Type := WholeBackup | WindowedBackup.

Definition run_backup (s : backup_script) : ModbusRTU -> M string :=
  match s with
  | WholeBackup => Backup.runBackup
  | WindowedBackup => Backup.runBackup_windows
  end.

Definition backup_reads (s : backup_script) : list call :=
  match s with
  | WholeBackup => [ ReadHoldingRegisters 0 162; ReadInputRegisters 0 90 ]
  | WindowedBackup =>
      [ ReadHoldingRegisters 0 26; ReadHoldingRegisters 26 25;
        ReadHoldingRegisters 51 25; ReadHoldingRegisters 76 25;
        ReadHoldingRegisters 101 25; ReadHoldingRegisters 126 25;
        ReadHoldingRegisters 151 12;
        ReadInputRegisters 0 26; ReadInputRegisters 26 25;
        ReadInputRegisters 51 25; ReadInputRegisters 76 14 ]
  end.

(** The lines of a window: each word after its index in the window. *)
Fixpoint listed_from (i : nat) (data : list Z) : list string :=
  match data with
  | [] => []
  | z :: rest => (pretty i ++ " " ++ pretty z) :: listed_from (S i) rest
  end.

Definition listed : list Z -> list string := listed_from 0.

(** A window of the registers [first .. first + len - 1] under its header. *)
Definition window_lines (header : string) (registers : Z -> Z) (first len : Z)
  : list string :=
  header :: listed (map registers (seqZ first len)).

(** The text of some lines, each ended by a line feed. *)
Definition unlines (lines : list string) : string :=
  fold_right (fun line text => line ++ Backup.nl ++ text) "" lines.

(** A computation whose calls are the reads [reads], in order, up to the
    first that is rejected; it throws the channel's error on a rejected read
    and returns when all are answered. *)
Definition reads_in_order {A} (reads : list call) (m : M A) : Prop :=
  forall w,
    match fst (m w) with
    | Ret _ => calls (snd (m w)) = (calls w ++ reads)%list
    | Throw e =>
        exists (n : nat) (reason : string),
          e = ChannelError reason /\ (n < length reads)%nat
          /\ calls (snd (m w)) = (calls w ++ take (S n) reads)%list
    | OutOfModel => False
    end.

(** ** Calls in order *)

(** How a run of guarded calls ends against the world [w] it started in:
    the mutex is free, both caches are as before, and the call log has
    gained the calls [expected], in order, up to the first that was
    rejected; the run returns when all were answered and throws the
    channel's error otherwise. *)
Definition ends_in_order {A} (expected : list call) (w : world)
                         (run : outcome A * world) : Prop :=
  mutex (snd run) = false
  /\ same_caches w (snd run)
  /\ match fst run with
     | Ret _ => calls (snd run) = (calls w ++ expected)%list
     | Throw e =>
         exists (n : nat) (reason : string),
           e = ChannelError reason /\ (n < length expected)%nat
           /\ calls (snd run) = (calls w ++ take (S n) expected)%list
     | OutOfModel => False
     end.

(** The reads of [getSensorData]. *)
Definition sensor_reads (r : revision) : list call :=
  match r with
  | TenthsRevision =>
      [ ReadInputRegisters 0 26; ReadInputRegisters 26 25;
        ReadInputRegisters 51 25; ReadInputRegisters 76 15 ]
  | PackedRevision | ExtendedRevision => [ ReadInputRegisters 0 90 ]
  end.

(** A device that acknowledges the first call and rejects every later
    one. *)
Definition one_write_device : ModbusRTU :=
  fun history _ =>
    match history with
    | [] => Data []
    | _ :: _ => Rejected "Timed out"
    end.

(** ** Messages that are no mapping *)

(** The first code unit of a text is a decimal digit. *)
Definition starts_with_digit (s : string) : bool :=
  match s with
  | String c _ => (48 <=? nat_of_ascii c)%nat && (nat_of_ascii c <=? 57)%nat
  | EmptyString => false
  end.

(** ** Reading a domain and writing it back *)

(** A percentage word, and a word whose high byte is an hour and whose low
    byte is a minute. *)
Definition percent_in_range (word : Z) : Prop := 0 <= word <= 100.

Definition clock_in_range (word : Z) : Prop :=
  0 <= word < 65536 /\ word / 256 <= 23 /\ word mod 256 <= 59.

(** The first window of the extended revision starts with two percentages;
    the second holds a clock word at each boundary. *)
Definition head_in_range (first : list Z) : Prop :=
  forall i : nat, (i < 2)%nat ->
    exists word, first !! i = Some word /\ percent_in_range word.

Definition windows_in_range (second : list Z) : Prop :=
  forall (i : nat) (hk mk : string), In (i, hk, mk) window_boundaries ->
    exists word, second !! i = Some word /\ clock_in_range word.

(** The word a switch word comes back as: 1 for 1, 0 for anything else. *)
Definition switch_back (word : option Z) : Z :=
  match word with
  | Some 1 => 1
  | _ => 0
  end.

(** The groups a [set] method of the extended revision writes after the
    [get] method has read the windows [first] and [second]. *)
Definition window_back (second : list Z) : list value :=
  [ word_value (second !! 0%nat); word_value (second !! 1%nat);
    num (switch_back (second !! 2%nat));
    word_value (second !! 3%nat); word_value (second !! 4%nat);
    num (switch_back (second !! 5%nat));
    word_value (second !! 6%nat); word_value (second !! 7%nat);
    num (switch_back (second !! 8%nat)) ].

Definition written_back (m : set_method) (first second : list Z)
  : list (Z * list value) :=
  match m with
  | ExtendedCharging =>
      [ (1090, [ word_value (first !! 0%nat); word_value (first !! 1%nat);
                 num (switch_back (first !! 2%nat)) ]);
        (1100, window_back second) ]
  | ExtendedDischarging =>
      [ (1070, [ word_value (first !! 0%nat); word_value (first !! 1%nat) ]);
        (1080, window_back second) ]
  | _ => []
  end.

(** A device whose holding registers hold 40, but for the clock words
    0x061E and 0x112D in registers 1100 and 1101 and the switch word 7 in
    register 1102. *)
Definition clock_device : ModbusRTU :=
  register_device
    (fun _ => 0)
    (fun address =>
       if Z.eqb address 1100 then 0x061E
       else if Z.eqb address 1101 then 0x112D
       else if Z.eqb address 1102 then 7
       else if (1100 <=? address)%Z then 0
       else 40).

(** * Properties *)

(** ** The register codec *)

Section CodecFacts.

Lemma wrap32_small (z : Z) : - 2 ^ 31 <= z < 2 ^ 31 -> wrap32 z = z.
Proof. intros H. unfold wrap32. rewrite Z.mod_small by lia. lia. Qed.

Lemma ToInt32_Q_integer (z : Z) : ToInt32_Q (inject_Z z) = wrap32 z.
Proof. unfold ToInt32_Q, Qtrunc. cbn. rewrite Z.quot_1_r. reflexivity. Qed.

(** The low byte and the shifted high byte share no bit. *)
Lemma land_shifted_byte (h m : Z) :
  0 <= m < 256 -> Z.land (Z.shiftl h 8) m = 0.
Proof.
  intros Hm. apply Z.bits_inj'. intros n Hn.
  rewrite Z.land_spec, Z.bits_0.
  destruct (Z.lt_ge_cases n 8) as [L|G].
  - rewrite Z.shiftl_spec_low by exact L. reflexivity.
  - assert (Z.testbit m n = false) as ->; [|apply andb_false_r].
    destruct (Z.eq_dec m 0) as [->|Hz]; [apply Z.bits_0|].
    apply Z.bits_above_log2; [lia|].
    apply Z.lt_le_trans with 8; [|exact G].
    apply Z.log2_lt_pow2; lia.
Qed.

Lemma lor_shifted_byte (h m : Z) :
  0 <= m < 256 -> Z.lor (Z.shiftl h 8) m = h * 256 + m.
Proof.
  intros Hm.
  pose proof (Z.add_lor_land (Z.shiftl h 8) m) as A.
  rewrite (land_shifted_byte h m Hm), Z.add_0_r in A.
  rewrite A, Z.shiftl_mul_pow2 by lia. reflexivity.
Qed.

(** Two bytes packed into a word and unpacked again: the rule is its own
    inverse on the whole range of a byte pair. *)
Lemma pack_unpack_bytes (h m : Z) :
  0 <= h < 256 -> 0 <= m < 256 ->
  packHM (num h) (num m) = Some (num (Z.lor (Z.shiftl h 8) m))
  /\ unpackHour (Some (Z.lor (Z.shiftl h 8) m)) = h
  /\ unpackMinute (Some (Z.lor (Z.shiftl h 8) m)) = m.
Proof.
  intros Hh Hm.
  assert (Z.shiftl h 8 = h * 256) as S
    by (rewrite Z.shiftl_mul_pow2 by lia; reflexivity).
  pose proof (lor_shifted_byte h m Hm) as L.
  split; [|split].
  - unfold packHM, num. cbn [ToInt32 mbind option_bind].
    rewrite !ToInt32_Q_integer, !wrap32_small by lia.
    unfold shl, bor. change (8 mod 32) with 8.
    rewrite wrap32_small by lia. reflexivity.
  - unfold unpackHour, word_int32, sar. rewrite L, wrap32_small by lia.
    change (8 mod 32) with 8. rewrite Z.shiftr_div_pow2 by lia.
    change (2 ^ 8) with 256.
    rewrite Z.div_add_l by lia. rewrite Z.div_small by lia. lia.
  - unfold unpackMinute, word_int32, band. rewrite L, wrap32_small by lia.
    change 255 with (Z.ones 8). rewrite Z.land_ones by lia.
    change (2 ^ 8) with 256.
    rewrite Z.add_comm, Z.mod_add by lia. apply Z.mod_small. lia.
Qed.

Lemma packHM_clock (hour minute : Z) :
  0 <= hour <= 23 -> 0 <= minute <= 59 ->
  packHM (num hour) (num minute) = Some (num (Z.lor (Z.shiftl hour 8) minute)).
Proof. intros Hh Hm. apply pack_unpack_bytes; lia. Qed.

Lemma unpack_clock (hour minute : Z) :
  0 <= hour <= 23 -> 0 <= minute <= 59 ->
  unpackHour (Some (Z.lor (Z.shiftl hour 8) minute)) = hour
  /\ unpackMinute (Some (Z.lor (Z.shiftl hour 8) minute)) = minute.
Proof. intros Hh Hm. apply pack_unpack_bytes; lia. Qed.

End CodecFacts.



(** The same pair through the methods of the extended revision:
    [setTouCharging] writes 0x061E into register 1100 for a first window
    that starts at 06:30, and [getTouCharging] reads 06:30 back from a
    device that holds 0x061E there. *)
Example setTouCharging_packs_6_30 :
  let w := set_touChargingValues
             (<["startHour1" := num 6]>
                (<["startMinute1" := num 30]> Extended.touChargingValues_default))
             Extended.initial in
  calls (snd (Extended.setTouCharging zero_device w))
  = [ WriteRegisters 1090 [ num 100; num 100; num 0 ];
      WriteRegisters 1100 [ num 0x061E; num 0; num 0; num 0; num 0; num 0;
                            num 0; num 0; num 0 ] ].
Proof. vm_compute. reflexivity. Qed.

Example getTouCharging_unpacks_061E :
  let device :=
    register_device (fun _ => 0)
                    (fun address => if Z.eqb address 1100 then 0x061E else 0) in
  let w := snd (Extended.getTouCharging device Extended.initial) in
  touChargingValues w !! "startHour1" = Some (num 6)
  /\ touChargingValues w !! "startMinute1" = Some (num 30).
Proof. split; vm_compute; reflexivity. Qed.

(** A fractional hour, which the schema's [type: "number"] lets through,
    loses its fraction in the shift. *)
Example packHM_fraction : packHM (VNum 6.5) (num 30) = Some (num 0x061E).
Proof. reflexivity. Qed.

(** ** The sensor snapshot *)

Lemma two_word_field_decode (field : string) (first : nat) (data : list Z) :
  (field, first) ∈ two_word_fields ->
  prop_get (parseInputRegisters data) field
  = Some (combine32_div10 (data !! first) (data !! S first)).
Proof.
  intros Hin. unfold two_word_fields in Hin.
  repeat (apply elem_of_cons in Hin as [Heq | Hin];
          [ injection Heq as -> ->; reflexivity | ]).
  apply elem_of_nil in Hin. contradiction.
Qed.

(** The 32-bit combine in [parseInputRegisters] of the packed and the
    extended revision (the part of C2 the code keeps): in every two-word
    field the word at the lower address is the high word; the window
    [0x0001, 0x0000] decodes to 6553.6, the swapped window [0x0000, 0x0001]
    to 0.1, and the two differ. *)
Theorem combine32_word_order (field : string) (first : nat) (data : list Z) :
  (field, first) ∈ two_word_fields ->
  prop_get (parseInputRegisters data) field
  = Some (combine32_div10 (data !! first) (data !! S first))
  /\ (data !! first = Some 0x0001 -> data !! S first = Some 0x0000 ->
      exists q, prop_get (parseInputRegisters data) field = Some (VNum q)
                /\ (q == 6553.6)%Q)
  /\ (data !! first = Some 0x0000 -> data !! S first = Some 0x0001 ->
      exists q, prop_get (parseInputRegisters data) field = Some (VNum q)
                /\ (q == 0.1)%Q)
  /\ ~ (6553.6 == 0.1)%Q.
Proof.
  intros Hin.
  pose proof (two_word_field_decode field first data Hin) as D.
  split; [exact D|]. rewrite D.
  split; [|split].
  - intros -> ->. eexists. split; [reflexivity|]. reflexivity.
  - intros -> ->. eexists. split; [reflexivity|]. reflexivity.
  - intros H. discriminate H.
Qed.

Lemma combine32_word_order_witness :
  (exists q, prop_get (parseInputRegisters (window_at 50 1 0)) "eImportTotal"
             = Some (VNum q) /\ (q == 6553.6)%Q)
  /\ (exists q, prop_get (parseInputRegisters (window_at 50 0 1)) "eImportTotal"
                = Some (VNum q) /\ (q == 0.1)%Q).
Proof.
  split.
  - apply (combine32_word_order "eImportTotal" 50 (window_at 50 1 0));
      [ apply list_elem_of_In; simpl; tauto | reflexivity | reflexivity ].
  - apply (combine32_word_order "eImportTotal" 50 (window_at 50 0 1));
      [ apply list_elem_of_In; simpl; tauto | reflexivity | reflexivity ].
Defined.

(** *** The tenths revision *)

(** In [parseInputRegisters2] the window [data2] holds registers 26..50, so
    [data2[51 - offset2]] lies past its end: the low word of [eImportTotal]
    is read as [undefined], whatever register 51 holds.  The sibling field
    [epvTotal] reads the same register from [data3]. *)
Lemma tenths_eImportTotal_low_word (data2 data3 : list Z) :
  length data2 = 25%nat ->
  prop_get (Tenths.parseInputRegisters2 data2 26 data3 51) "eImportTotal"
  = Some (combine32_div10 (data2 !! 24%nat) None).
Proof.
  intros L.
  assert (Tenths.at_address data2 51 26 = None) as E
    by (apply lookup_ge_None_2; rewrite L; reflexivity).
  cbn [Tenths.parseInputRegisters2 prop_get String.eqb Ascii.eqb Bool.eqb].
  rewrite E. reflexivity.
Qed.

(** C2, where the code breaks it.  With the window [0x0000, 0x0001] in
    registers 50 and 51 the tenths revision decodes [eImportTotal] to 0, not
    to 0.1; its [epvTotal], which combines the same two registers (and the
    zero registers 54 and 55), decodes to 0.1, and so does [eImportTotal]
    in the other two revisions. *)
Lemma tenths_eImportTotal_ignores_register_51 :
  exists fields fields' : list (string * value),
    fst (Tenths.getSensorData low_word_device Tenths.initial) = Ret fields
    /\ prop_get fields "eImportTotal" = Some (VNum 0)
    /\ (exists q, prop_get fields "epvTotal" = Some (VNum q) /\ (q == 0.1)%Q)
    /\ fst (getSensorData low_word_device Extended.initial) = Ret fields'
    /\ (exists q, prop_get fields' "eImportTotal" = Some (VNum q) /\ (q == 0.1)%Q).
Proof.
  eexists _, _.
  split; [vm_compute; reflexivity|].
  split; [vm_compute; reflexivity|].
  split; [eexists; split; [vm_compute; reflexivity|reflexivity]|].
  split; [vm_compute; reflexivity|].
  eexists; split; [vm_compute; reflexivity|reflexivity].
Qed.

(** ** Schema validation *)

Section ValidateFacts.
Variables (sch : schema) (data : obj).

Lemma validate_required (key : string) :
  validate sch data = true -> In key (required sch) ->
  defined (data !! key) = true.
Proof.
  unfold validate. intros V Hin.
  apply andb_prop in V as [V _]. apply andb_prop in V as [V _].
  rewrite forallb_forall in V. auto.
Qed.

Lemma validate_property (key : string) (ps : prop_schema) (v : value) :
  validate sch data = true -> In (key, ps) (properties sch) ->
  data !! key = Some v -> v <> VUndef -> check_prop ps v = true.
Proof.
  unfold validate. intros V Hin Hv Hu.
  apply andb_prop in V as [_ V].
  rewrite forallb_forall in V. specialize (V _ Hin). cbn in V.
  rewrite Hv in V. destruct v; congruence.
Qed.

Lemma validate_declared (key : string) :
  validate sch data = true -> additionalProperties sch = false ->
  is_Some (data !! key) -> key ∈ (properties sch).*1.
Proof.
  unfold validate. intros V Ha [v Hv].
  apply andb_prop in V as [V _]. apply andb_prop in V as [_ V].
  rewrite Ha in V. cbn in V. apply bool_decide_eq_true in V.
  exact (V key v Hv).
Qed.

(** A required number is a finite number within its bounds. *)
Lemma validate_number (key : string) (lo hi : Q) :
  validate sch data = true -> In (key, SNumber lo hi) (properties sch) ->
  In key (required sch) ->
  exists q, data !! key = Some (VNum q) /\ (lo <= q)%Q /\ (q <= hi)%Q.
Proof.
  intros V Hp Hr.
  pose proof (validate_required key V Hr) as D.
  destruct (data !! key) as [v|] eqn:E; [|discriminate].
  assert (v <> VUndef) as Hu by (intros ->; discriminate).
  pose proof (validate_property key _ v V Hp E Hu) as C.
  destruct v; try discriminate.
  cbn in C. apply andb_prop in C as [C1 C2].
  apply Qle_bool_iff in C1, C2. eauto.
Qed.

(** A required switch is a string in which ON or OFF occurs. *)
Lemma validate_string (key : string) (alts : list string) :
  validate sch data = true -> In (key, SString alts) (properties sch) ->
  In key (required sch) ->
  exists s, data !! key = Some (VStr s)
            /\ existsb (fun lit => occurs lit s) alts = true.
Proof.
  intros V Hp Hr.
  pose proof (validate_required key V Hr) as D.
  destruct (data !! key) as [v|] eqn:E; [|discriminate].
  assert (v <> VUndef) as Hu by (intros ->; discriminate).
  pose proof (validate_property key _ v V Hp E Hu) as C.
  destruct v; try discriminate. eauto.
Qed.

(** One defined property that misses its schema fails the whole object. *)
Lemma validate_violated (key : string) (ps : prop_schema) (v : value) :
  In (key, ps) (properties sch) -> data !! key = Some v -> v <> VUndef ->
  check_prop ps v = false -> validate sch data = false.
Proof.
  intros Hin Hv Hu C.
  destruct (validate sch data) eqn:V; [|reflexivity].
  rewrite (validate_property key ps v V Hin Hv Hu) in C. discriminate.
Qed.



End ValidateFacts.

(** A number outside a property's bounds fails the object. *)
Lemma validate_outside (sch : schema) (data : obj) (key : string)
      (lo hi q : Q) :
  In (key, SNumber lo hi) (properties sch) -> data !! key = Some (VNum q) ->
  (q < lo)%Q \/ (hi < q)%Q -> validate sch data = false.
Proof.
  intros Hin Hv Hq.
  apply (validate_violated sch data key _ _ Hin Hv); [discriminate|].
  cbn. apply andb_false_iff.
  destruct Hq as [Hq|Hq]; [left|right].
  - destruct (Qle_bool lo q) eqn:E; [|reflexivity].
    apply Qle_bool_iff in E. exfalso. exact (Qlt_not_le _ _ Hq E).
  - destruct (Qle_bool q hi) eqn:E; [|reflexivity].
    apply Qle_bool_iff in E. exfalso. exact (Qlt_not_le _ _ Hq E).
Qed.

(** ** The mutex wrappers *)

Section Wrappers.
Variable modbusClient : ModbusRTU.

(** With the mutex free, a wrapper makes exactly one call on the channel,
    hands its answer on and leaves the mutex free, also when the call is
    rejected. *)
Lemma guarded_call_run (c : call) (w : world) :
  mutex w = false ->
  (acquire ;; try_finally (channel_call modbusClient c) release) w
  = match modbusClient (calls w) c with
    | Data data => (Ret data, add_call c w)
    | Rejected reason => (Throw (ChannelError reason), add_call c w)
    end.
Proof.
  destruct w as [tc td m cs co]. cbn. intros ->.
  unfold bind, acquire, try_finally, channel_call, release, modify. cbn.
  destruct (modbusClient cs c); reflexivity.
Qed.

Lemma writeRegisters_run (dataAddress : Z) (values : list value) (w : world) :
  mutex w = false ->
  writeRegisters modbusClient dataAddress values w
  = match modbusClient (calls w) (WriteRegisters dataAddress values) with
    | Data data => (Ret data, add_call (WriteRegisters dataAddress values) w)
    | Rejected reason =>
        (Throw (ChannelError reason),
         add_call (WriteRegisters dataAddress values) w)
    end.
Proof. apply guarded_call_run. Qed.

Lemma readHoldingRegisters_run (dataAddress len : Z) (w : world) :
  mutex w = false ->
  readHoldingRegisters modbusClient dataAddress len w
  = match modbusClient (calls w) (ReadHoldingRegisters dataAddress len) with
    | Data data => (Ret data, add_call (ReadHoldingRegisters dataAddress len) w)
    | Rejected reason =>
        (Throw (ChannelError reason),
         add_call (ReadHoldingRegisters dataAddress len) w)
    end.
Proof. apply guarded_call_run. Qed.

Lemma readInputRegisters_run (dataAddress len : Z) (w : world) :
  mutex w = false ->
  readInputRegisters modbusClient dataAddress len w
  = match modbusClient (calls w) (ReadInputRegisters dataAddress len) with
    | Data data => (Ret data, add_call (ReadInputRegisters dataAddress len) w)
    | Rejected reason =>
        (Throw (ChannelError reason),
         add_call (ReadInputRegisters dataAddress len) w)
    end.
Proof. apply guarded_call_run. Qed.

(** The lock is released on every exit of the guarded call. *)
Lemma guarded_call_releases (c : call) (w : world) :
  mutex w = false ->
  mutex (snd ((acquire ;; try_finally (channel_call modbusClient c) release) w))
  = false.
Proof.
  intros Hm. rewrite (guarded_call_run c w Hm).
  destruct (modbusClient (calls w) c); cbn; exact Hm.
Qed.

(** On a held mutex the wrapper waits and reaches the channel not at all. *)
Lemma guarded_call_held (c : call) (w : world) :
  mutex w = true ->
  (acquire ;; try_finally (channel_call modbusClient c) release) w
  = (OutOfModel, w).
Proof.
  intros Hm. unfold bind, acquire. rewrite Hm. reflexivity.
Qed.

End Wrappers.

(** ** The failure branch of the [set] methods *)

Lemma validation_failed_run {A} (message : string) (w : world) :
  @validation_failed A message w
  = (Throw (ThrownString message), add_console "Validate errors:" w).
Proof. reflexivity. Qed.

Section SetFails.
Variable modbusClient : ModbusRTU.
Variable w : world.

Let failed (message : string) : outcome unit * world :=
  (Throw (ThrownString message), add_console "Validate errors:" w).

Lemma Extended_setTouCharging_invalid :
  validate Extended.touCharging_schema (touChargingValues w) = false ->
  Extended.setTouCharging modbusClient w = failed "Error validating setTouCharging".
Proof.
  intros V. unfold Extended.setTouCharging, bind, get_world. cbn. rewrite V.
  reflexivity.
Qed.

Lemma Extended_setTouDischarging_invalid :
  validate Extended.touDischarging_schema (touDischargingValues w) = false ->
  Extended.setTouDischarging modbusClient w
  = failed "Error validating setTouDischarging".
Proof.
  intros V. unfold Extended.setTouDischarging, bind, get_world. cbn. rewrite V.
  reflexivity.
Qed.

Lemma Packed_setTouCharging_invalid :
  validate Packed.touCharging_schema (touChargingValues w) = false ->
  Packed.setTouCharging modbusClient w = failed "Error validating setTouCharging".
Proof.
  intros V. unfold Packed.setTouCharging, bind, get_world. cbn. rewrite V.
  reflexivity.
Qed.

Lemma Packed_setTouDischarging_invalid :
  validate Packed.touDischarging_schema (touDischargingValues w) = false ->
  Packed.setTouDischarging modbusClient w
  = failed "Error validating setTouDischarging".
Proof.
  intros V. unfold Packed.setTouDischarging, bind, get_world. cbn. rewrite V.
  reflexivity.
Qed.

Lemma Tenths_setTouCharging_invalid :
  validate Tenths.touCharging_schema (touChargingValues w) = false ->
  Tenths.setTouCharging modbusClient w = failed "Error validating setTouCharging".
Proof.
  intros V. unfold Tenths.setTouCharging, bind, get_world. cbn. rewrite V.
  reflexivity.
Qed.

Lemma Tenths_setTouDischarging_invalid :
  validate Tenths.touDischarging_schema (touDischargingValues w) = false ->
  Tenths.setTouDischarging modbusClient w
  = failed "Error validating setTouDischarging".
Proof.
  intros V. unfold Tenths.setTouDischarging, bind, get_world. cbn. rewrite V.
  reflexivity.
Qed.

End SetFails.

(** ** The six [set] methods side by side *)

Lemma run_set_invalid (m : set_method) (modbusClient : ModbusRTU) (w : world) :
  validate (schema_of m) (cache_of m w) = false ->
  run_set m modbusClient w
  = (Throw (ThrownString (error_text m)), add_console "Validate errors:" w).
Proof.
  destruct m; cbn [schema_of cache_of run_set error_text]; intros V.
  - exact (Extended_setTouCharging_invalid modbusClient w V).
  - exact (Extended_setTouDischarging_invalid modbusClient w V).
  - exact (Packed_setTouCharging_invalid modbusClient w V).
  - exact (Packed_setTouDischarging_invalid modbusClient w V).
  - exact (Tenths_setTouCharging_invalid modbusClient w V).
  - exact (Tenths_setTouDischarging_invalid modbusClient w V).
Qed.

Lemma percentage_fields_bounded (m : set_method) (field : string) :
  In field (percentage_fields m) ->
  exists lo hi, In (field, SNumber lo hi) (properties (schema_of m))
                /\ (hi <= 100)%Q.
Proof.
  destruct m; cbn; intros H;
    repeat (destruct H as [<- | H];
            [ eexists _, _; split;
              [ cbn; eauto 20 | cbn; unfold Qle; cbn; lia ] | ]);
    contradiction.
Qed.

(** C4.  A percentage field holding 150 makes the domain's [set] method fail
    validation; it throws before any call reaches the channel, so the call
    log gains nothing, and in particular no write. *)
Theorem out_of_range_percentage_never_written
    (m : set_method) (field : string) (q : Q) (modbusClient : ModbusRTU)
    (w : world) :
  In field (percentage_fields m) ->
  cache_of m w !! field = Some (VNum q) -> (q == 150)%Q ->
  validate (schema_of m) (cache_of m w) = false
  /\ fst (run_set m modbusClient w) = Throw (ThrownString (error_text m))
  /\ calls (snd (run_set m modbusClient w)) = calls w.
Proof.
  intros Hf Hv Hq.
  destruct (percentage_fields_bounded m field Hf) as (lo & hi & Hin & Hhi).
  assert (validate (schema_of m) (cache_of m w) = false) as V.
  { apply (validate_outside _ _ field lo hi q Hin Hv).
    right. eapply Qle_lt_trans; [exact Hhi|]. rewrite Hq. reflexivity. }
  split; [exact V|].
  rewrite (run_set_invalid m modbusClient w V). split; reflexivity.
Qed.

Lemma out_of_range_percentage_never_written_witness :
  fst (Extended.setTouCharging zero_device overcharged)
  = Throw (ThrownString "Error validating setTouCharging")
  /\ calls (snd (Extended.setTouCharging zero_device overcharged)) = [].
Proof.
  apply (out_of_range_percentage_never_written
           ExtendedCharging "chargePower" 150 zero_device overcharged).
  - simpl. tauto.
  - vm_compute. reflexivity.
  - reflexivity.
Defined.

(** ** What a failed validation tells the caller *)




(** ** Merging a control message *)

Lemma set_cached_cached (d : domain) (w : world) : set_cached d (cached d w) w = w.
Proof. destruct d, w; reflexivity. Qed.

Lemma set_cached_twice (d : domain) (o o' : obj) (w : world) :
  set_cached d o' (set_cached d o w) = set_cached d o' w.
Proof. destruct d, w; reflexivity. Qed.

Lemma cached_set_cached (d : domain) (o : obj) (w : world) :
  cached d (set_cached d o w) = o.
Proof. destruct d, w; reflexivity. Qed.

Lemma merge_key_domain (d : domain) (control : value)
      (props : list (string * value)) (key : string) (w : world) (o : obj) :
  own_props control = Some props ->
  merge_step props (cached d w) key = Some o ->
  merge_key (topic d) control key w = (Ret tt, set_cached d o w).
Proof.
  unfold merge_step, merge_key, own_get. intros O H. rewrite O.
  cbn [mbind option_bind].
  destruct d; cbn [topic cached set_cached str_eq String.eqb Ascii.eqb Bool.eqb andb] in *.
  - destruct (has_field (touChargingValues w) key).
    + rewrite H. reflexivity.
    + injection H as <-. destruct w; reflexivity.
  - destruct (has_field (touDischargingValues w) key).
    + rewrite H. reflexivity.
    + injection H as <-. destruct w; reflexivity.
Qed.

Lemma forEach_merge (d : domain) (control : value)
      (props : list (string * value)) (keys : list string) (w : world) (o : obj) :
  own_props control = Some props ->
  merge_all props keys (cached d w) = Some o ->
  forEach keys (merge_key (topic d) control) w = (Ret tt, set_cached d o w).
Proof.
  intros O. revert w. induction keys as [|key rest IH]; intros w H; cbn in H.
  - injection H as <-. rewrite set_cached_cached. reflexivity.
  - destruct (merge_step props (cached d w) key) as [o1|] eqn:E; [|discriminate].
    cbn in H. cbn [forEach]. unfold bind at 1.
    rewrite (merge_key_domain d control props key w o1 O E).
    rewrite (IH (set_cached d o1 w)).
    + rewrite set_cached_twice. reflexivity.
    + rewrite cached_set_cached. exact H.
Qed.

(** Names that pass no test leave the world as it is. *)
Lemma forEach_unrecognized (subTopic : string) (control : value)
      (keys : list string) (w : world) :
  (forall key, In key keys -> recognized subTopic w key = false) ->
  forEach keys (merge_key subTopic control) w = (Ret tt, w).
Proof.
  induction keys as [|key rest IH]; intros H; [reflexivity|].
  cbn [forEach]. unfold bind at 1.
  assert (merge_key subTopic control key w = (Ret tt, w)) as ->.
  { pose proof (H key (or_introl eq_refl)) as R. unfold recognized in R.
    apply orb_false_elim in R as [R1 R2].
    unfold merge_key. rewrite R1, R2. reflexivity. }
  apply IH. intros k Hk. apply H. right. exact Hk.
Qed.

Section MergeAll.
Variable props : list (string * value).

Lemma assign_other (o o' : obj) (key k : string) (v : value) :
  assign o key v = Some o' -> k <> key -> o' !! k = o !! k.
Proof.
  unfold assign. intros H Hne.
  destruct (o !! key).
  - injection H as <-. rewrite lookup_insert_ne by congruence. reflexivity.
  - destruct (String.eqb key "__proto__").
    + destruct v; try discriminate; injection H as <-; reflexivity.
    + injection H as <-. rewrite lookup_insert_ne by congruence. reflexivity.
Qed.

Lemma merge_step_other (o o' : obj) (key k : string) :
  merge_step props o key = Some o' -> k <> key -> o' !! k = o !! k.
Proof.
  unfold merge_step. intros H Hne.
  destruct (has_field o key).
  - exact (assign_other _ _ _ _ _ H Hne).
  - injection H as <-. reflexivity.
Qed.

Lemma merge_step_plain (o : obj) (key : string) :
  key <> "__proto__" -> is_Some (merge_step props o key).
Proof.
  unfold merge_step, assign. intros Hne.
  destruct (has_field o key); [|eauto].
  destruct (o !! key); [eauto|].
  apply String.eqb_neq in Hne. rewrite Hne. eauto.
Qed.

Lemma merge_step_own (o : obj) (key : string) (v : value) :
  defined (o !! key) = true -> prop_get props key = Some v ->
  merge_step props o key = Some (<[key := v]> o).
Proof.
  unfold merge_step, assign, has_field, defined. intros D P. rewrite P. cbn.
  destruct (o !! key) as [[]|]; try discriminate; reflexivity.
Qed.

Lemma merge_all_plain (keys : list string) (o : obj) :
  ~ In "__proto__" keys -> is_Some (merge_all props keys o).
Proof.
  revert o. induction keys as [|key rest IH]; intros o H; cbn; [eauto|].
  destruct (merge_step_plain o key) as [o1 ->].
  - intros ->. apply H. left. reflexivity.
  - cbn. apply IH. intros Hin. apply H. right. exact Hin.
Qed.

Lemma merge_all_other (keys : list string) (o o' : obj) (k : string) :
  merge_all props keys o = Some o' -> ~ In k keys -> o' !! k = o !! k.
Proof.
  revert o. induction keys as [|key rest IH]; intros o H Hk; cbn in H.
  - injection H as <-. reflexivity.
  - destruct (merge_step props o key) as [o1|] eqn:E; [|discriminate].
    cbn in H. rewrite (IH o1 H).
    + apply (merge_step_other _ _ _ _ E). intros ->. apply Hk. left. reflexivity.
    + intros Hin. apply Hk. right. exact Hin.
Qed.

(** A name of the message that the cache holds ends up with the message's
    value, untouched. *)
Lemma merge_all_stores (keys : list string) (o o' : obj) (k : string) (v : value) :
  merge_all props keys o = Some o' -> NoDup keys -> In k keys ->
  defined (o !! k) = true -> prop_get props k = Some v ->
  o' !! k = Some v.
Proof.
  revert o. induction keys as [|key rest IH]; intros o H ND Hin D P; [destruct Hin|].
  apply NoDup_cons in ND as [Hnotin ND]. cbn in H.
  destruct (merge_step props o key) as [o1|] eqn:E; [|discriminate]. cbn in H.
  destruct (string_dec key k) as [->|Hne].
  - rewrite (merge_step_own o k v D P) in E. injection E as <-.
    rewrite (merge_all_other rest _ o' k H).
    + apply lookup_insert_eq.
    + intros Hk. apply Hnotin. apply list_elem_of_In. exact Hk.
  - destruct Hin as [Heq|Hin]; [congruence|].
    apply (IH o1 H ND Hin); [|exact P].
    rewrite (merge_step_other _ _ _ _ E); [exact D | congruence].
Qed.

End MergeAll.

Section UpdateControl.
Context {RT : Runtime}.

(** The message does not parse, or parses to [null]: the [try] block
    throws, the [catch] logs, the method returns as ever. *)
Lemma updateControl_caught (subTopic controlMessage : string) (w : world) :
  match JSON_parse (replace_quotes controlMessage) with
  | None | Some VNull | Some VUndef => True
  | Some _ => False
  end ->
  updateControl subTopic controlMessage w
  = (Ret (control_data w), add_console parse_error_line w).
Proof.
  intros H. unfold updateControl, bind, try_catch, lift_option.
  destruct (JSON_parse (replace_quotes controlMessage)) as [[]|];
    try contradiction; destruct w; reflexivity.
Qed.

(** The message parses to a value with own properties: the method returns
    what the [forEach] leaves. *)
Lemma updateControl_parsed (subTopic controlMessage : string) (w w' : world)
      (control : value) (props : list (string * value)) :
  JSON_parse (replace_quotes controlMessage) = Some control ->
  own_props control = Some props ->
  forEach (remove_dups (props.*1)) (merge_key subTopic control) w = (Ret tt, w') ->
  updateControl subTopic controlMessage w = (Ret (control_data w'), w').
Proof.
  intros P O F. unfold updateControl, bind, try_catch, lift_option, Object_keys.
  rewrite P. cbn. rewrite O. cbn. rewrite F. reflexivity.
Qed.

End UpdateControl.

(** ** C6: a malformed control message *)

(** C6, refuted as stated: the message [not json] does not parse, yet
    [updateControl] returns normally, and returns what it returns for the
    empty mapping. *)
Lemma malformed_message_returns_normally :
  JSON_parse (replace_quotes "not json") = None
  /\ fst (updateControl "touCharging" "not json" Extended.initial)
     = Ret (control_data Extended.initial)
  /\ fst (updateControl "touCharging" "{}" Extended.initial)
     = Ret (control_data Extended.initial)
  /\ ~ malformed_is_reported.
Proof.
  assert (JSON_parse (replace_quotes "not json") = None) as P
    by (vm_compute; reflexivity).
  assert (fst (updateControl "touCharging" "not json" Extended.initial)
          = Ret (control_data Extended.initial)) as R
    by (vm_compute; reflexivity).
  split; [exact P|]. split; [exact R|]. split.
  - vm_compute. reflexivity.
  - intros H. destruct (H "touCharging" "not json" Extended.initial P) as [e He].
    rewrite R in He. discriminate He.
Qed.

(** C6, amended.  For a message that is no field-value mapping (it does not
    parse, or parses to something else than an object) and whose indices, if
    it has any, name no cached field, [updateControl] returns normally with
    both domains' cached values; the caches, the mutex and the call log are
    as before, and the only trace of a message that does not parse is a
    line on the console. *)
Theorem malformed_message_leaves_store
    {RT : Runtime} (subTopic controlMessage : string) (w : world) :
  let parsed := JSON_parse (replace_quotes controlMessage) in
  is_mapping parsed = false ->
  (forall control props key,
     parsed = Some control -> own_props control = Some props ->
     In key (props.*1) -> recognized subTopic w key = false) ->
  updateControl subTopic controlMessage w
  = (Ret (control_data w),
     if try_block_throws parsed then add_console parse_error_line w else w).
Proof.
  intros parsed M U. subst parsed.
  destruct (JSON_parse (replace_quotes controlMessage)) as [control|] eqn:P.
  - destruct (own_props control) as [props|] eqn:O.
    + assert (try_block_throws (Some control) = false) as ->
        by (destruct control; try discriminate; reflexivity).
      apply (updateControl_parsed _ _ w w control props P O).
      apply forEach_unrecognized. intros key Hk.
      apply (U control props key eq_refl O).
      apply list_elem_of_In. apply list_elem_of_In in Hk.
      exact (proj1 (elem_of_remove_dups _ _) Hk).
    + destruct control; try discriminate; cbn [try_block_throws];
        apply updateControl_caught; rewrite P; exact I.
  - cbn [try_block_throws]. apply updateControl_caught. rewrite P. exact I.
Qed.

Lemma malformed_message_leaves_store_witness :
  updateControl "touDischarging" "{'dischargeStopSOC': 5" Extended.initial
  = (Ret (control_data Extended.initial),
     add_console parse_error_line Extended.initial).
Proof.
  assert (updateControl "touDischarging" "{'dischargeStopSOC': 5" Extended.initial
          = (Ret (control_data Extended.initial),
             if try_block_throws
                  (JSON_parse (replace_quotes "{'dischargeStopSOC': 5"))
             then add_console parse_error_line Extended.initial
             else Extended.initial)) as H.
  { apply (malformed_message_leaves_store
             "touDischarging" "{'dischargeStopSOC': 5" Extended.initial).
    - vm_compute. reflexivity.
    - vm_compute. discriminate. }
  exact H.
Defined.

(** ** C10: the merge checks nothing *)

Lemma prop_get_In (props : list (string * value)) (key : string) (v : value) :
  prop_get props key = Some v -> In key (props.*1).
Proof.
  revert v. induction props as [|[k x] rest IH]; intros v; cbn; [discriminate|].
  destruct (prop_get rest key) as [v'|].
  - intros _. right. apply (IH v'). reflexivity.
  - destruct (String.eqb key k) eqn:E; [|discriminate].
    intros _. left. apply String.eqb_eq in E. congruence.
Qed.

Lemma cache_of_domain (m : set_method) (w : world) :
  cache_of m w = cached (domain_of m) w.
Proof. destruct m; reflexivity. Qed.

Lemma set_cached_frame (d : domain) (o : obj) (w : world) :
  calls (set_cached d o w) = calls w
  /\ console (set_cached d o w) = console w
  /\ mutex (set_cached d o w) = mutex w.
Proof. destruct d, w; repeat split. Qed.

(** C10.  The merge checks neither range nor type: whatever value a message
    gives to a field the cache holds is stored as it is and returned, with
    nothing logged and nothing sent; a value that misses the field's schema
    (an hour of 99, a percentage of 150, a text for a number) is rejected
    only by the validation at the start of the domain's [set] method. *)
Theorem merge_stores_any_value
    {RT : Runtime} (m : set_method) (controlMessage key : string)
    (props : list (string * value)) (v : value) (w : world) :
  JSON_parse (replace_quotes controlMessage) = Some (VObj props) ->
  prop_get props key = Some v ->
  ~ In "__proto__" (props.*1) ->
  defined (cached (domain_of m) w !! key) = true ->
  exists w',
    updateControl (topic (domain_of m)) controlMessage w
    = (Ret (control_data w'), w')
    /\ cached (domain_of m) w' !! key = Some v
    /\ calls w' = calls w
    /\ console w' = console w
    /\ forall (ps : prop_schema) (modbusClient : ModbusRTU),
         In (key, ps) (properties (schema_of m)) ->
         v <> VUndef -> check_prop ps v = false ->
         run_set m modbusClient w'
         = (Throw (ThrownString (error_text m)),
            add_console "Validate errors:" w').
Proof.
  intros P G Hproto D.
  set (d := domain_of m) in *.
  set (keys := remove_dups (props.*1)).
  assert (~ In "__proto__" keys) as Hproto'.
  { intros Hin. apply Hproto. apply list_elem_of_In.
    apply list_elem_of_In in Hin. exact (proj1 (elem_of_remove_dups _ _) Hin). }
  destruct (merge_all_plain props keys (cached d w) Hproto') as [o' Ho'].
  exists (set_cached d o' w).
  assert (o' !! key = Some v) as Hkey.
  { apply (merge_all_stores props keys (cached d w) o' key v Ho').
    - unfold keys. apply NoDup_remove_dups.
    - apply list_elem_of_In. apply (proj2 (elem_of_remove_dups _ _)).
      apply list_elem_of_In. exact (prop_get_In props key v G).
    - exact D.
    - exact G. }
  destruct (set_cached_frame d o' w) as (Hc & Hl & _).
  split; [|split; [|split; [|split]]].
  - apply (updateControl_parsed _ _ w _ (VObj props) props P eq_refl).
    apply (forEach_merge _ _ props); [reflexivity|exact Ho'].
  - rewrite cached_set_cached. exact Hkey.
  - exact Hc.
  - exact Hl.
  - intros ps modbusClient Hin Hu C.
    apply run_set_invalid. rewrite cache_of_domain. fold d.
    rewrite cached_set_cached.
    exact (validate_violated _ _ key ps v Hin Hkey Hu C).
Qed.

Lemma merge_stores_any_value_witness :
  exists w',
    updateControl "touCharging" "{'startHour1': 99, 'chargePower': 150}"
                  Extended.initial
    = (Ret (control_data w'), w')
    /\ touChargingValues w' !! "startHour1" = Some (num 99)
    /\ calls w' = []
    /\ console w' = []
    /\ Extended.setTouCharging zero_device w'
       = (Throw (ThrownString "Error validating setTouCharging"),
          add_console "Validate errors:" w').
Proof.
  destruct (merge_stores_any_value
              ExtendedCharging "{'startHour1': 99, 'chargePower': 150}"
              "startHour1"
              [("startHour1", num 99); ("chargePower", num 150)] (num 99)
              Extended.initial) as (w' & U & K & C & L & R).
  - vm_compute. reflexivity.
  - vm_compute. reflexivity.
  - simpl. intros [H|[H|H]]; try discriminate H; exact H.
  - vm_compute. reflexivity.
  - exists w'. split; [exact U|]. split; [exact K|]. split; [exact C|].
    split; [exact L|].
    apply (R Extended.hour zero_device);
      [ simpl; tauto | discriminate | reflexivity ].
Defined.

(** ** C7: an unknown command *)

(** C7.  A command whose name is none of the five throws the string
    [Unknown command: ] followed by the name; the failure is an outcome
    handed to the caller, and the world (both caches, the mutex, the call
    log, the console) is exactly as before.  This holds in each revision,
    whatever its [set] and [get] methods are. *)
Theorem unknown_command_rejected
    {RT : Runtime}
    (setTouCharging setTouDischarging : ModbusRTU -> M unit)
    (getTouCharging getTouDischarging : ModbusRTU -> M obj)
    (modbusClient : ModbusRTU) (commandString name : string)
    (props : list (string * value)) (w : world) :
  JSON_parse commandString = Some (VObj props) ->
  prop_get props "command" = Some (VStr name) ->
  ~ In name known_commands ->
  Shared.sendCommand setTouCharging setTouDischarging
                     getTouCharging getTouDischarging
                     modbusClient commandString w
  = (Throw (ThrownString ("Unknown command: " ++ name)), w).
Proof.
  intros P G Hn.
  unfold Shared.sendCommand, bind, lift_option. rewrite P. cbn. rewrite G. cbn.
  assert (forall c, In c known_commands -> str_eq name c = false) as Hne.
  { intros c Hc. apply String.eqb_neq. intros ->. exact (Hn Hc). }
  rewrite !Hne by (simpl; tauto). reflexivity.
Qed.

Lemma unknown_command_rejected_witness :
  Extended.sendCommand zero_device (replace_quotes "{'command': 'unknownThing'}")
                       Extended.initial
  = (Throw (ThrownString "Unknown command: unknownThing"), Extended.initial).
Proof.
  apply (unknown_command_rejected
           Extended.setTouCharging Extended.setTouDischarging
           Extended.getTouCharging Extended.getTouDischarging
           zero_device (replace_quotes "{'command': 'unknownThing'}")
           "unknownThing" [("command", VStr "unknownThing")] Extended.initial).
  - vm_compute. reflexivity.
  - vm_compute. reflexivity.
  - simpl. intros [H|[H|[H|[H|[H|H]]]]]; try discriminate H; exact H.
Defined.

(** The bare name, which is no JSON text, is refused by the reader before
    the dispatcher sees it. *)
Example bare_name_is_a_syntax_error :
  Extended.sendCommand zero_device "unknownThing" Extended.initial
  = (Throw SyntaxError, Extended.initial).
Proof. reflexivity. Qed.

(** ** The writes of a [set] method *)

Lemma add_call_frame (c : call) (w : world) :
  calls (add_call c w) = (calls w ++ [c])%list
  /\ mutex (add_call c w) = mutex w
  /\ touChargingValues (add_call c w) = touChargingValues w
  /\ touDischargingValues (add_call c w) = touDischargingValues w.
Proof. destruct w; repeat split. Qed.

Section WriteAll.
Variable modbusClient : ModbusRTU.

Lemma write_all_cons (dataAddress : Z) (values : list value)
      (rest : list (Z * list value)) (w : world) :
  write_all modbusClient ((dataAddress, values) :: rest) w
  = match writeRegisters modbusClient dataAddress values w with
    | (Ret _, w') => write_all modbusClient rest w'
    | (Throw e, w') => (Throw e, w')
    | (OutOfModel, w') => (OutOfModel, w')
    end.
Proof. reflexivity. Qed.

(** Whatever happens, the calls a run adds are its first writes, in its
    order; the caches are not touched. *)
Lemma write_all_prefix (groups : list (Z * list value)) (w : world) :
  exists n : nat,
    calls (snd (write_all modbusClient groups w))
    = (calls w ++ map write_call (take n groups))%list
    /\ touChargingValues (snd (write_all modbusClient groups w))
       = touChargingValues w
    /\ touDischargingValues (snd (write_all modbusClient groups w))
       = touDischargingValues w.
Proof.
  destruct (mutex w) eqn:Hm.
  - exists 0%nat. destruct groups as [|[a vs] rest].
    + cbn. rewrite app_nil_r. auto.
    + rewrite write_all_cons. unfold writeRegisters.
      rewrite (guarded_call_held modbusClient _ w Hm). cbn.
      rewrite app_nil_r. auto.
  - revert w Hm. induction groups as [|[a vs] rest IH]; intros w Hm.
    + exists 0%nat. cbn. rewrite app_nil_r. auto.
    + rewrite write_all_cons.
      rewrite (writeRegisters_run modbusClient a vs w Hm).
      destruct (add_call_frame (WriteRegisters a vs) w) as (Hc & Hm' & Ht & Hd).
      destruct (modbusClient (calls w) (WriteRegisters a vs)).
      * destruct (IH (add_call (WriteRegisters a vs) w)) as (n & E & T & D);
          [congruence|].
        exists (S n). rewrite E, T, D, Hc, <- app_assoc. auto.
      * exists 1%nat. cbn [snd]. rewrite Hc. cbn. rewrite take_0. auto.
Qed.

(** On a free mutex and an acknowledging channel the run makes all its
    writes and returns. *)
Lemma write_all_acknowledged (groups : list (Z * list value)) (w : world) :
  mutex w = false -> acknowledges modbusClient ->
  fst (write_all modbusClient groups w) = Ret tt
  /\ calls (snd (write_all modbusClient groups w))
     = (calls w ++ map write_call groups)%list
  /\ mutex (snd (write_all modbusClient groups w)) = false.
Proof.
  intros Hm Hack. revert w Hm.
  induction groups as [|[a vs] rest IH]; intros w Hm.
  - cbn. rewrite app_nil_r. auto.
  - rewrite write_all_cons.
    rewrite (writeRegisters_run modbusClient a vs w Hm).
    destruct (Hack (calls w) a vs) as [data ->].
    destruct (add_call_frame (WriteRegisters a vs) w) as (Hc & Hm' & _).
    destruct (IH (add_call (WriteRegisters a vs) w)) as (R & E & L);
      [congruence|].
    rewrite R, E, L, Hc, <- app_assoc. auto.
Qed.

End WriteAll.

Lemma write_addresses_writes (groups : list (Z * list value)) :
  write_addresses (map write_call groups) = map fst groups.
Proof.
  induction groups as [|[a vs] rest IH]; [reflexivity|].
  cbn. unfold write_addresses in IH. rewrite IH. reflexivity.
Qed.

(** A [set] method on a valid cache is the run of its write groups. *)
Lemma run_set_valid (m : set_method) (modbusClient : ModbusRTU) (w : world) :
  validate (schema_of m) (cache_of m w) = true ->
  run_set m modbusClient w
  = match groups_of m (cache_of m w) with
    | Some groups => write_all modbusClient groups w
    | None => (OutOfModel, w)
    end.
Proof.
  destruct m; cbn [schema_of cache_of run_set groups_of]; intros V;
    [ unfold Extended.setTouCharging | unfold Extended.setTouDischarging
    | unfold Packed.setTouCharging | unfold Packed.setTouDischarging
    | unfold Tenths.setTouCharging | unfold Tenths.setTouDischarging ];
    unfold words, bind, get_world; rewrite V; cbn [negb];
    match goal with
    | |- context [mapM id ?l] => destruct (mapM id l)
    end; reflexivity.
Qed.

Lemma get_number (sch : schema) (v : obj) (key : string) (lo hi : Q) :
  validate sch v = true -> In (key, SNumber lo hi) (properties sch) ->
  In key (required sch) ->
  exists q, get v key = VNum q /\ (lo <= q)%Q /\ (q <= hi)%Q.
Proof.
  intros V Hp Hr.
  destruct (validate_number sch v key lo hi V Hp Hr) as (q & E & B).
  exists q. unfold get. rewrite E. auto.
Qed.

Lemma get_string (sch : schema) (v : obj) (key : string) (alts : list string) :
  validate sch v = true -> In (key, SString alts) (properties sch) ->
  In key (required sch) ->
  exists s, get v key = VStr s /\ existsb (fun lit => occurs lit s) alts = true.
Proof.
  intros V Hp Hr.
  destruct (validate_string sch v key alts V Hp Hr) as (s & E & B).
  exists s. unfold get. rewrite E. auto.
Qed.

(** Rewrites [get v key] into the number validation found there. *)
Ltac validated_number V key :=
  let q := fresh "q" in
  let E := fresh "E" in
  destruct (get_number _ _ key _ _ V ltac:(cbn; eauto 30) ltac:(cbn; tauto))
    as (q & E & _ & _);
  rewrite E.

(** On a valid cache every word of every group is computed, and the groups
    go to the method's addresses in its order. *)
Lemma groups_of_valid (m : set_method) (v : obj) :
  validate (schema_of m) v = true ->
  exists groups, groups_of m v = Some groups /\ map fst groups = write_order m.
Proof.
  destruct m; cbn [schema_of groups_of write_order]; intros V.
  - unfold Extended.window_words.
    validated_number V "startHour1". validated_number V "startMinute1".
    validated_number V "stopHour1". validated_number V "stopMinute1".
    validated_number V "startHour2". validated_number V "startMinute2".
    validated_number V "stopHour2". validated_number V "stopMinute2".
    validated_number V "startHour3". validated_number V "startMinute3".
    validated_number V "stopHour3". validated_number V "stopMinute3".
    eexists. split; reflexivity.
  - unfold Extended.window_words.
    validated_number V "startHour1". validated_number V "startMinute1".
    validated_number V "stopHour1". validated_number V "stopMinute1".
    validated_number V "startHour2". validated_number V "startMinute2".
    validated_number V "stopHour2". validated_number V "stopMinute2".
    validated_number V "startHour3". validated_number V "startMinute3".
    validated_number V "stopHour3". validated_number V "stopMinute3".
    eexists. split; reflexivity.
  - validated_number V "utiChargeStart". validated_number V "utiChargeEnd".
    eexists. split; reflexivity.
  - validated_number V "utiOutStart". validated_number V "utiOutEnd".
    eexists. split; reflexivity.
  - validated_number V "uwAC2BatVolt". eexists. split; reflexivity.
  - validated_number V "batLowToUtiVolt". eexists. split; reflexivity.
Qed.

(** ** C8: the order of the writes *)

(** C8, refuted as stated: the packed revision's [setTouCharging] writes
    register 95, then 2, then 5. *)
Lemma packed_writes_do_not_ascend :
  write_addresses (calls (snd (Packed.setTouCharging zero_device Packed.initial)))
  = [ 95; 2; 5 ]
  /\ ~ writes_ascend.
Proof.
  assert (write_addresses
            (calls (snd (Packed.setTouCharging zero_device Packed.initial)))
          = [ 95; 2; 5 ]) as E by (vm_compute; reflexivity).
  split; [exact E|].
  intros H. specialize (H PackedCharging zero_device Packed.initial).
  cbn [run_set] in H. change (drop (length (calls Packed.initial))) with (@id (list call)) in H.
  unfold id in H. rewrite E in H.
  apply StronglySorted_inv in H as [_ H].
  apply Forall_inv in H. lia.
Qed.

Lemma write_order_sorted (m : set_method) :
  if ascending_revision m then StronglySorted Z.lt (write_order m)
  else ~ StronglySorted Z.lt (write_order m).
Proof.
  destruct m; cbn.
  1, 2: repeat constructor; lia.
  all: intros H; apply StronglySorted_inv in H as [_ H];
       apply Forall_inv in H; lia.
Qed.

(** C8, amended.  A [set] method issues its writes in the fixed order of its
    source: what it adds to the call log are writes only, at the first
    addresses of its list, and at all of them when the cache is valid, the
    mutex free and the channel acknowledges.  The list ascends in the
    extended revision (1090 then 1100, 1070 then 1080) and does not in the
    packed and tenths revisions (95, 2, 5 and 37, 3). *)
Theorem set_writes_in_source_order
    (m : set_method) (modbusClient : ModbusRTU) (w : world) :
  exists new : list call,
    calls (snd (run_set m modbusClient w)) = (calls w ++ new)%list
    /\ length (write_addresses new) = length new
    /\ (exists n : nat, write_addresses new = take n (write_order m))
    /\ (validate (schema_of m) (cache_of m w) = true -> mutex w = false ->
        acknowledges modbusClient ->
        write_addresses new = write_order m)
    /\ (if ascending_revision m then StronglySorted Z.lt (write_order m)
        else ~ StronglySorted Z.lt (write_order m)).
Proof.
  destruct (validate (schema_of m) (cache_of m w)) eqn:V.
  - destruct (groups_of_valid m _ V) as (groups & G & O).
    pose proof (run_set_valid m modbusClient w V) as R. rewrite G in R.
    destruct (write_all_prefix modbusClient groups w) as (n & E & _).
    exists (map write_call (take n groups)).
    rewrite R, write_addresses_writes, !length_map.
    split; [exact E|]. split; [reflexivity|].
    split; [exists n; rewrite <- O; symmetry; apply firstn_map|].
    split; [|apply write_order_sorted].
    intros _ Hm Hack.
    destruct (write_all_acknowledged modbusClient groups w Hm Hack) as (_ & E' & _).
    rewrite E' in E. apply app_inv_head in E.
    rewrite <- O, <- (write_addresses_writes (take n groups)), <- E.
    apply write_addresses_writes.
  - exists []. rewrite (run_set_invalid m modbusClient w V). cbn [snd].
    split; [destruct w; cbn; rewrite app_nil_r; reflexivity|].
    split; [reflexivity|].
    split; [exists 0%nat; reflexivity|].
    split; [discriminate|apply write_order_sorted].
Qed.

Lemma zero_device_acknowledges : acknowledges zero_device.
Proof. intros history dataAddress values. exists []. reflexivity. Qed.

Lemma set_writes_in_source_order_witness :
  write_addresses (calls (snd (Extended.setTouDischarging zero_device Extended.initial)))
  = [ 1070; 1080 ]
  /\ write_addresses (calls (snd (Tenths.setTouDischarging zero_device Tenths.initial)))
     = [ 37; 3 ].
Proof.
  split.
  - destruct (set_writes_in_source_order
                ExtendedDischarging zero_device Extended.initial)
      as (new & E & _ & _ & H & _).
    cbn [run_set] in E. rewrite E. apply H.
    + vm_compute. reflexivity.
    + reflexivity.
    + exact zero_device_acknowledges.
  - destruct (set_writes_in_source_order
                TenthsDischarging zero_device Tenths.initial)
      as (new & E & _ & _ & H & _).
    cbn [run_set] in E. rewrite E. apply H.
    + vm_compute. reflexivity.
    + reflexivity.
    + exact zero_device_acknowledges.
Defined.

(** ** C3: a partial update and the untouched fields *)

Lemma get_insert_ne (v : obj) (key k : string) (x : value) :
  key <> k -> get (<[key := x]> v) k = get v k.
Proof. intros H. unfold get. rewrite lookup_insert_ne by exact H. reflexivity. Qed.

Lemma get_insert_eq (v : obj) (key : string) (x : value) :
  get (<[key := x]> v) key = x.
Proof. unfold get. rewrite lookup_insert_eq. reflexivity. Qed.

(** The window words read none of the two power fields. *)
Lemma window_words_insert (v : obj) (key : string) (x : value) :
  ~ In key (Extended.windows.*1) ->
  Extended.window_words (<[key := x]> v) = Extended.window_words v.
Proof.
  intros H. unfold Extended.window_words.
  rewrite !get_insert_ne; [reflexivity|..];
    intros ->; apply H; cbn; tauto.
Qed.

Lemma validated_clock (sch : schema) (v : obj) (hk mk : string) (h m : Z) :
  validate sch v = true ->
  In (hk, SNumber 0 23) (properties sch) -> In (mk, SNumber 0 59) (properties sch) ->
  In hk (required sch) -> In mk (required sch) ->
  get v hk = num h -> get v mk = num m ->
  0 <= h <= 23 /\ 0 <= m <= 59.
Proof.
  intros V Hh Hm Rh Rm Gh Gm.
  destruct (get_number sch v hk _ _ V Hh Rh) as (qh & Eh & Lh & Uh).
  destruct (get_number sch v mk _ _ V Hm Rm) as (qm & Em & Lm & Um).
  rewrite Gh in Eh. rewrite Gm in Em.
  injection Eh as <-. injection Em as <-.
  change 0%Q with (inject_Z 0) in Lh, Lm.
  change 23%Q with (inject_Z 23) in Uh. change 59%Q with (inject_Z 59) in Um.
  rewrite <- Zle_Qle in Lh, Lm, Uh, Um. lia.
Qed.

Lemma window_boundary_fields (i : nat) (hk mk : string) :
  In (i, hk, mk) window_boundaries ->
  let sch := Extended.touDischarging_schema in
  In (hk, SNumber 0 23) (properties sch) /\ In (mk, SNumber 0 59) (properties sch)
  /\ In hk (required sch) /\ In mk (required sch)
  /\ hk <> "dischargeStopSOC" /\ mk <> "dischargeStopSOC"
  /\ forall v, Extended.window_words v !! i
               = Some (packHM (get v hk) (get v mk)).
Proof.
  unfold window_boundaries. intros Hin.
  repeat (destruct Hin as [E|Hin];
          [ injection E as <- <- <-;
            repeat split; try discriminate; cbn; tauto | ]).
  destruct Hin.
Qed.

Lemma window_switch_fields (i : nat) (k : string) :
  In (i, k) window_switches ->
  forall v, Extended.window_words v !! i = Some (Some (on_word (get v k))).
Proof.
  unfold window_switches. intros Hin.
  repeat (destruct Hin as [E|Hin]; [ injection E as <- <-; reflexivity | ]).
  destruct Hin.
Qed.

Section PartialUpdate.
Context {RT : Runtime}.
Variables (modbusClient : ModbusRTU) (controlMessage : string) (w : world).

Let v0 : obj := touDischargingValues w.
Let merged : obj := <["dischargeStopSOC" := num 5]> v0.
Let w1 : world := set_touDischargingValues merged w.
Let first_write : call :=
  WriteRegisters 1070 [ get v0 "dischargePower"; num 5 ].

Hypothesis parsed :
  JSON_parse (replace_quotes controlMessage)
  = Some (VObj [ ("dischargeStopSOC", num 5) ]).
Hypothesis held_field : defined (v0 !! "dischargeStopSOC") = true.

Lemma partial_update_merges :
  updateControl "touDischarging" controlMessage w = (Ret (control_data w1), w1).
Proof.
  apply (updateControl_parsed _ _ w w1 _ _ parsed eq_refl).
  apply (forEach_merge TouDischarging _ [("dischargeStopSOC", num 5)]);
    [reflexivity|].
  change (merge_step [("dischargeStopSOC", num 5)] (touDischargingValues w)
            "dischargeStopSOC" ≫= merge_all [("dischargeStopSOC", num 5)] []
          = Some merged).
  rewrite (merge_step_own [("dischargeStopSOC", num 5)] (touDischargingValues w)
             "dischargeStopSOC" (num 5) held_field eq_refl).
  reflexivity.
Qed.

Hypothesis valid : validate Extended.touDischarging_schema merged = true.
Hypothesis free : mutex w = false.

Lemma partial_update_words :
  exists ws, mapM id (Extended.window_words v0) = Some ws.
Proof.
  destruct (groups_of_valid ExtendedDischarging merged valid) as (groups & G & _).
  cbn [groups_of] in G.
  unfold merged in G. rewrite window_words_insert in G
    by (cbn; intros H; decompose [or] H; discriminate || assumption).
  destruct (mapM id (Extended.window_words v0)) as [ws|]; [eauto|discriminate].
Qed.

Lemma partial_update_flush (ws : list value) :
  mapM id (Extended.window_words v0) = Some ws ->
  calls (snd (Extended.setTouDischarging modbusClient w1))
  = (calls w ++
     first_write ::
     match modbusClient (calls w) first_write with
     | Data _ => [ WriteRegisters 1080 ws ]
     | Rejected _ => []
     end)%list.
Proof.
  intros W.
  pose proof (run_set_valid ExtendedDischarging modbusClient w1) as R.
  cbn [run_set schema_of cache_of groups_of] in R.
  assert (touDischargingValues w1 = merged) as C by (destruct w; reflexivity).
  rewrite C in R. specialize (R valid).
  unfold merged in R. rewrite window_words_insert in R
    by (cbn; intros H; decompose [or] H; discriminate || assumption).
  rewrite W in R. cbn [mbind option_bind] in R.
  rewrite get_insert_ne, get_insert_eq in R by discriminate.
  fold first_write in R. rewrite R.
  assert (mutex w1 = false) as F1 by (destruct w; exact free).
  assert (calls w1 = calls w) as C1 by (destruct w; reflexivity).
  rewrite write_all_cons, (writeRegisters_run _ _ _ _ F1), C1.
  destruct (add_call_frame first_write w1) as (Hc & Hm & _).
  destruct (add_call_frame (WriteRegisters 1080 ws) (add_call first_write w1))
    as (Hc2 & _).
  rewrite Hc, C1 in Hc2. rewrite C1 in Hc. rewrite F1 in Hm.
  unfold first_write in *.
  destruct (modbusClient (calls w) _).
  - rewrite write_all_cons, (writeRegisters_run _ _ _ _ Hm).
    destruct (modbusClient _ _); cbn [snd write_all ret];
      rewrite Hc2, <- app_assoc; reflexivity.
  - cbn [snd]. rewrite Hc. reflexivity.
Qed.

Lemma partial_update_boundary (ws : list value) (i : nat) (hk mk : string) (h m : Z) :
  mapM id (Extended.window_words v0) = Some ws ->
  In (i, hk, mk) window_boundaries ->
  get v0 hk = num h -> get v0 mk = num m ->
  exists x, ws !! i = Some (num x)
            /\ unpackHour (Some x) = h /\ unpackMinute (Some x) = m.
Proof.
  intros W Hin Gh Gm.
  destruct (window_boundary_fields i hk mk Hin) as (Ph & Pm & Rh & Rm & Nh & Nm & L).
  assert (0 <= h <= 23 /\ 0 <= m <= 59) as [Bh Bm].
  { apply (validated_clock Extended.touDischarging_schema merged hk mk h m valid
             Ph Pm Rh Rm);
      unfold merged; rewrite get_insert_ne by congruence; assumption. }
  exists (Z.lor (Z.shiftl h 8) m).
  split; [|exact (unpack_clock h m Bh Bm)].
  apply mapM_Some in W.
  destruct (Forall2_lookup_l _ _ _ i _ W (L v0)) as (x & Hx & Ex).
  rewrite Hx. f_equal. cbn in Ex.
  rewrite Gh, Gm, (packHM_clock h m Bh Bm) in Ex. congruence.
Qed.

Lemma partial_update_switch (ws : list value) (i : nat) (k : string) :
  mapM id (Extended.window_words v0) = Some ws ->
  In (i, k) window_switches ->
  ws !! i = Some (on_word (get v0 k)).
Proof.
  intros W Hin. apply mapM_Some in W.
  destruct (Forall2_lookup_l _ _ _ i _ W (window_switch_fields i k Hin v0))
    as (x & Hx & Ex).
  rewrite Hx. cbn in Ex. congruence.
Qed.

End PartialUpdate.

(** C3.  The partial update [{dischargeStopSOC: 5}] is merged into the
    touDischarging cache, the merged cache passes validation and the [set]
    method writes: registers 1070.. get the cached discharge power and the
    new 5, registers 1080.. get nine words computed from the cached window
    fields as they were before the merge.  Each boundary word decodes to the
    cached hour and minute, each switch word is the cached switch. *)
Theorem partial_update_keeps_untouched_fields
    {RT : Runtime} (modbusClient : ModbusRTU) (controlMessage : string)
    (w : world) :
  let v0 := touDischargingValues w in
  let first_write := WriteRegisters 1070 [ get v0 "dischargePower"; num 5 ] in
  mutex w = false ->
  JSON_parse (replace_quotes controlMessage)
  = Some (VObj [ ("dischargeStopSOC", num 5) ]) ->
  defined (v0 !! "dischargeStopSOC") = true ->
  validate Extended.touDischarging_schema (<["dischargeStopSOC" := num 5]> v0)
  = true ->
  exists (w1 : world) (ws : list value),
    updateControl "touDischarging" controlMessage w = (Ret (control_data w1), w1)
    /\ touDischargingValues w1 = <["dischargeStopSOC" := num 5]> v0
    /\ mapM id (Extended.window_words v0) = Some ws
    /\ calls (snd (Extended.setTouDischarging modbusClient w1))
       = (calls w ++
          first_write ::
          match modbusClient (calls w) first_write with
          | Data _ => [ WriteRegisters 1080 ws ]
          | Rejected _ => []
          end)%list
    /\ (forall i hk mk h m,
          In (i, hk, mk) window_boundaries ->
          get v0 hk = num h -> get v0 mk = num m ->
          exists x, ws !! i = Some (num x)
                    /\ unpackHour (Some x) = h /\ unpackMinute (Some x) = m)
    /\ (forall i k, In (i, k) window_switches ->
                    ws !! i = Some (on_word (get v0 k))).
Proof.
  intros v0 first_write Hfree Hparsed Hheld Hvalid.
  destruct (partial_update_words w Hvalid) as [ws W].
  exists (set_touDischargingValues (<["dischargeStopSOC" := num 5]> v0) w), ws.
  split; [exact (partial_update_merges controlMessage w Hparsed Hheld)|].
  split; [destruct w; reflexivity|].
  split; [exact W|].
  split; [exact (partial_update_flush modbusClient w Hheld Hvalid Hfree ws W)|].
  split.
  - intros i hk mk h m. exact (partial_update_boundary w Hvalid ws i hk mk h m W).
  - intros i k. exact (partial_update_switch w ws i k W).
Qed.

Lemma partial_update_keeps_untouched_fields_witness :
  exists w1 : world,
    updateControl "touDischarging" "{'dischargeStopSOC': 5}" scheduled
    = (Ret (control_data w1), w1)
    /\ calls (snd (Extended.setTouDischarging zero_device w1))
       = [ WriteRegisters 1070 [ num 100; num 5 ];
           WriteRegisters 1080 [ num 0x061E; num 0x112D; num 1;
                                 num 0; num 0; num 0; num 0; num 0; num 0 ] ].
Proof.
  destruct (partial_update_keeps_untouched_fields
              zero_device "{'dischargeStopSOC': 5}" scheduled)
    as (w1 & ws & U & _ & W & C & _).
  - reflexivity.
  - vm_compute. reflexivity.
  - vm_compute. reflexivity.
  - vm_compute. reflexivity.
  - exists w1. split; [exact U|].
    rewrite C.
    assert (mapM id (Extended.window_words (touDischargingValues scheduled))
            = Some [ num 0x061E; num 0x112D; num 1;
                     num 0; num 0; num 0; num 0; num 0; num 0 ]) as W'
      by (vm_compute; reflexivity).
    rewrite W' in W. injection W as <-. reflexivity.
Defined.

(** ** The mutex after a method (the sequential part of C9) *)

Lemma write_all_releases (modbusClient : ModbusRTU)
      (groups : list (Z * list value)) (w : world) :
  mutex w = false -> mutex (snd (write_all modbusClient groups w)) = false.
Proof.
  revert w. induction groups as [|[a vs] rest IH]; intros w Hm; [exact Hm|].
  rewrite write_all_cons, (writeRegisters_run modbusClient a vs w Hm).
  destruct (add_call_frame (WriteRegisters a vs) w) as (_ & Hm' & _).
  destruct (modbusClient (calls w) (WriteRegisters a vs)).
  - apply IH. congruence.
  - cbn [snd]. congruence.
Qed.

(** Every [set] method that starts with the mutex free ends with the mutex
    free, whether it returns, fails validation or meets a rejected write. *)
Lemma run_set_releases (m : set_method) (modbusClient : ModbusRTU) (w : world) :
  mutex w = false -> mutex (snd (run_set m modbusClient w)) = false.
Proof.
  intros Hm. destruct (validate (schema_of m) (cache_of m w)) eqn:V.
  - rewrite (run_set_valid m modbusClient w V).
    destruct (groups_of m (cache_of m w)); [|exact Hm].
    apply write_all_releases. exact Hm.
  - rewrite (run_set_invalid m modbusClient w V). destruct w; exact Hm.
Qed.

(** A rejected call leaves the lock free: the next call goes through. *)
Example rejected_write_releases :
  let w := snd (writeRegisters dead_device 1090 [num 1] Extended.initial) in
  mutex w = false
  /\ calls (snd (writeRegisters zero_device 1100 [num 2] w))
     = [ WriteRegisters 1090 [num 1]; WriteRegisters 1100 [num 2] ].
Proof. split; reflexivity. Qed.

(** ** A note on the packed revision's [getTouCharging]

    [setTouCharging] writes the start and the end hour to registers 5 and
    6; [getTouCharging] reads seven words from register 0 and takes the
    start hour from [data1[6]] and the end hour from [data1[7]], one past
    the window.  From a device that holds 06:00 and 17:00 it reads a start
    hour of 17 and an end hour of 0.  (The tenths revision reads
    [data1[5]] and [data1[6]].) *)
Example packed_getTouCharging_reads_one_register_late :
  let device :=
    register_device (fun _ => 0)
                    (fun address => if Z.eqb address 5 then 0x0600
                                    else if Z.eqb address 6 then 0x1100 else 0) in
  let w := snd (Packed.getTouCharging device Packed.initial) in
  touChargingValues w !! "utiChargeStart" = Some (num 17)
  /\ touChargingValues w !! "utiChargeEnd" = Some (num 0).
Proof. split; vm_compute; reflexivity. Qed.

(** * Further properties of the adapter *)

(** ** The [get] methods *)

(** On a free mutex a [get] method is its two reads, the object literal and
    the assignment to the cache. *)
Lemma run_get_run (m : set_method) (modbusClient : ModbusRTU) (w : world) :
  mutex w = false -> run_get m modbusClient w = get_result m modbusClient w.
Proof.
  intros Hm. unfold get_result.
  destruct (add_call_frame (holding_read (first_read m)) w) as (Hc & Hm1 & _).
  rewrite Hm in Hm1.
  destruct m;
    cbn [run_get first_read second_read holding_read fst snd decode
         domain_of set_cached] in *;
    [ unfold Extended.getTouCharging | unfold Extended.getTouDischarging
    | unfold Packed.getTouCharging | unfold Packed.getTouDischarging
    | unfold Tenths.getTouCharging | unfold Tenths.getTouDischarging ];
    unfold bind at 1; rewrite (readHoldingRegisters_run _ _ _ _ Hm);
    (destruct (modbusClient (calls w) _); [|reflexivity]);
    unfold bind at 1; rewrite (readHoldingRegisters_run _ _ _ _ Hm1);
    (destruct (modbusClient _ _); reflexivity).
Qed.

(** X1.  A [get] method on a free mutex makes its two reads in the order of
    its source and nothing else on the channel: never a write.  It assigns
    the cache only after both reads have answered: a rejected read throws
    the channel's error and leaves both caches as they were.  When both
    reads answer, the decoded object replaces the whole cache of the
    method's domain and is what the method returns; the other domain's
    cache is never touched.  The mutex is free again on every exit. *)
Theorem get_reads_then_stores
    (m : set_method) (modbusClient : ModbusRTU) (w : world) :
  mutex w = false ->
  let r := fst (run_get m modbusClient w) in
  let w' := snd (run_get m modbusClient w) in
  let first_call := holding_read (first_read m) in
  let second_call := holding_read (second_read m) in
  mutex w' = false
  /\ console w' = console w
  /\ cached (other (domain_of m)) w' = cached (other (domain_of m)) w
  /\ match r with
     | Ret v =>
         calls w' = (calls w ++ [ first_call; second_call ])%list
         /\ cached (domain_of m) w' = v
         /\ exists first second,
              modbusClient (calls w) first_call = Data first
              /\ modbusClient (calls w ++ [ first_call ])%list second_call
                 = Data second
              /\ v = decode m first second
     | Throw e =>
         cached (domain_of m) w' = cached (domain_of m) w
         /\ (exists reason, e = ChannelError reason)
         /\ (calls w' = (calls w ++ [ first_call ])%list
             \/ calls w' = (calls w ++ [ first_call; second_call ])%list)
     | OutOfModel => False
     end.
Proof.
  intros Hm. cbv zeta.
  rewrite (run_get_run m modbusClient w Hm). unfold get_result.
  set (c1 := holding_read (first_read m)).
  set (c2 := holding_read (second_read m)).
  assert (calls (add_call c1 w) = (calls w ++ [c1])%list) as C1
    by (destruct w; reflexivity).
  rewrite C1.
  destruct (modbusClient (calls w) c1) as [first|reason1].
  - destruct (modbusClient (calls w ++ [c1])%list c2)
      as [second|reason2]; cbn [fst snd].
    + split; [destruct m, w; exact Hm|].
      split; [destruct m, w; reflexivity|].
      split; [destruct m, w; reflexivity|].
      split; [destruct m, w; cbn; rewrite <- app_assoc; reflexivity|].
      split; [destruct m, w; reflexivity|].
      exists first, second. auto.
    + split; [destruct w; exact Hm|].
      split; [destruct w; reflexivity|].
      split; [destruct m, w; reflexivity|].
      split; [destruct m, w; reflexivity|].
      split; [eauto|].
      right. destruct w; cbn. rewrite <- app_assoc. reflexivity.
  - cbn [fst snd].
    split; [destruct w; exact Hm|].
    split; [destruct w; reflexivity|].
    split; [destruct m, w; reflexivity|].
    split; [destruct m, w; reflexivity|].
    split; [eauto|].
    left. destruct w; reflexivity.
Qed.

Lemma get_reads_then_stores_witness :
  fst (Extended.getTouCharging one_answer_device Extended.initial)
  = Throw (ChannelError "Timed out")
  /\ touChargingValues (snd (Extended.getTouCharging one_answer_device Extended.initial))
     = Extended.touChargingValues_default
  /\ calls (snd (Extended.getTouCharging one_answer_device Extended.initial))
     = [ ReadHoldingRegisters 1090 3; ReadHoldingRegisters 1100 9 ].
Proof.
  pose proof (get_reads_then_stores ExtendedCharging one_answer_device
                Extended.initial eq_refl) as H.
  cbn [run_get] in H.
  assert (fst (Extended.getTouCharging one_answer_device Extended.initial)
          = Throw (ChannelError "Timed out")) as R by reflexivity.
  cbv zeta in H. rewrite R in H.
  destruct H as (_ & _ & _ & C & _ & [L|L]).
  - split; [exact R|]. split; [exact C|]. reflexivity.
  - split; [exact R|]. split; [exact C|]. exact L.
Defined.

(** ** Writing a domain and reading it back *)

Lemma written_app (history later : list call) (address : Z) :
  written (history ++ later) address
  = match written later address with
    | Some v => Some v
    | None => written history address
    end.
Proof.
  induction history as [|c rest IH]; cbn.
  - destruct (written later address); reflexivity.
  - rewrite IH. destruct (written later address); reflexivity.
Qed.

Lemma memory_device_remembers : remembers memory_device.
Proof.
  split.
  - intros history dataAddress values. exists []. reflexivity.
  - intros history dataAddress len. eexists. split; [reflexivity|]. split.
    + rewrite length_map. apply length_seqZ.
    + intros i z Hi Hw.
      change (map ?f ?l) with (f <$> l).
      rewrite list_lookup_fmap, (lookup_seqZ_lt _ _ _ Hi). cbn.
      rewrite Hw. unfold num, Qtrunc. cbn. rewrite Z.quot_1_r. reflexivity.
Qed.

(** A valid object of a closed schema that requires all it declares is its
    declared fields and nothing else. *)
Lemma valid_cache_shape (sch : schema) (v : obj) :
  validate sch v = true -> additionalProperties sch = false ->
  NoDup (properties sch).*1 ->
  (forall key, key ∈ (properties sch).*1 -> In key (required sch)) ->
  declared_fields sch v = v.
Proof.
  intros V Ha ND Hr. unfold declared_fields. apply map_eq. intros key.
  destruct (decide (key ∈ (properties sch).*1)) as [Hin|Hout].
  - pose proof (validate_required sch v key V (Hr key Hin)) as D.
    destruct (v !! key) as [x|] eqn:E; [|discriminate].
    apply elem_of_list_to_map_1.
    + rewrite <- list_fmap_compose. cbn.
      rewrite list_fmap_id. exact ND.
    + apply list_elem_of_fmap. exists key. split; [|exact Hin].
      unfold get. rewrite E. reflexivity.
  - destruct (v !! key) as [x|] eqn:E.
    + exfalso. apply Hout. apply (validate_declared sch v key V Ha). eauto.
    + apply not_elem_of_list_to_map_1.
      rewrite <- list_fmap_compose. cbn. rewrite list_fmap_id. exact Hout.
Qed.

Lemma schema_closed (m : set_method) :
  additionalProperties (schema_of m) = false
  /\ NoDup (properties (schema_of m)).*1
  /\ forall key, key ∈ (properties (schema_of m)).*1 -> In key (required (schema_of m)).
Proof.
  split; [destruct m; reflexivity|]. split.
  - destruct m; apply (bool_decide_unpack _); vm_compute; exact I.
  - intros key Hin. apply list_elem_of_In in Hin.
    destruct m; cbn in Hin |- *; tauto.
Qed.

Lemma valid_cache_fields (m : set_method) (v : obj) :
  validate (schema_of m) v = true -> declared_fields (schema_of m) v = v.
Proof.
  intros V. destruct (schema_closed m) as (Ha & ND & Hr).
  exact (valid_cache_shape _ v V Ha ND Hr).
Qed.

(** The word a field is written as and the field it is read back as. *)
Lemma number_range (sch : schema) (v : obj) (key : string) (lo hi z : Z) :
  validate sch v = true ->
  In (key, SNumber (inject_Z lo) (inject_Z hi)) (properties sch) ->
  In key (required sch) -> get v key = num z -> lo <= z <= hi.
Proof.
  intros V Hp Hr G.
  destruct (get_number sch v key _ _ V Hp Hr) as (q & E & L & U).
  rewrite G in E. injection E as <-.
  rewrite <- Zle_Qle in L, U. lia.
Qed.

Lemma clock_word (sch : schema) (v : obj) (hk mk : string) :
  validate sch v = true -> integral sch v ->
  In (hk, SNumber 0 23) (properties sch) -> In (mk, SNumber 0 59) (properties sch) ->
  In hk (required sch) -> In mk (required sch) ->
  exists x, packHM (get v hk) (get v mk) = Some (num x)
            /\ num (unpackHour (Some x)) = get v hk
            /\ num (unpackMinute (Some x)) = get v mk.
Proof.
  intros V I Ph Pm Rh Rm.
  destruct (I hk _ _ Ph) as [h Eh]. destruct (I mk _ _ Pm) as [m Em].
  destruct (validated_clock sch v hk mk h m V Ph Pm Rh Rm Eh Em) as [Bh Bm].
  destruct (pack_unpack_bytes h m) as (P & Uh & Um); [lia|lia|].
  exists (Z.lor (Z.shiftl h 8) m). rewrite Eh, Em, Uh, Um. auto.
Qed.

Lemma hour_word (sch : schema) (v : obj) (key : string) :
  validate sch v = true -> integral sch v ->
  In (key, SNumber 0 23) (properties sch) -> In key (required sch) ->
  exists x, packH (get v key) = Some (num x)
            /\ num (unpackHour (Some x)) = get v key.
Proof.
  intros V I Ph Rh.
  destruct (I key _ _ Ph) as [h Eh].
  pose proof (number_range sch v key 0 23 h V Ph Rh Eh) as Bh.
  destruct (pack_unpack_bytes h 0) as (P & Uh & _); [lia|lia|].
  rewrite Z.lor_0_r in Uh.
  exists (Z.shiftl h 8). rewrite Eh, Uh. split; [|reflexivity].
  unfold packH, num. cbn [ToInt32 mbind option_bind].
  rewrite ToInt32_Q_integer, wrap32_small by lia.
  unfold shl. change (8 mod 32) with 8.
  rewrite wrap32_small; [reflexivity|].
  rewrite Z.shiftl_mul_pow2 by lia. lia.
Qed.

Lemma tenths_word (sch : schema) (v : obj) (key : string) (lo hi : Q) :
  integral sch v -> In (key, SNumber lo hi) (properties sch) ->
  exists x, Tenths.times10 (get v key) = Some (num x)
            /\ scale_div10 (Some x) = get v key.
Proof.
  intros I Hp. destruct (I key _ _ Hp) as [z Ez].
  exists (z * 10). rewrite Ez. unfold Tenths.times10, scale_div10, num, div10.
  split; f_equal; f_equal.
  - rewrite <- (inject_Z_Qred (z * 10)). apply Qred_complete.
    rewrite inject_Z_mult. reflexivity.
  - rewrite <- (inject_Z_Qred z). apply Qred_complete.
    rewrite inject_Z_mult. field.
Qed.

Lemma switch_word (v : obj) (key : string) :
  get v key = VStr "ON" \/ get v key = VStr "OFF" ->
  exists x, on_word (get v key) = num x /\ onoff (Some x) = get v key.
Proof.
  intros [E|E]; rewrite E; [exists 1|exists 0]; split; reflexivity.
Qed.

(** What a [get] method decodes from windows that hold the words the [set]
    method wrote is the cache the [set] method flushed. *)
Lemma decode_written (m : set_method) (v : obj) (groups : list (Z * list value))
      (first second : list Z) :
  m <> PackedCharging ->
  validate (schema_of m) v = true ->
  integral (schema_of m) v -> exact_switches (schema_of m) v ->
  groups_of m v = Some groups ->
  (forall (i : nat) (z : Z),
     written (map write_call groups) (fst (first_read m) + Z.of_nat i) = Some (num z) ->
     Z.of_nat i < snd (first_read m) -> first !! i = Some z) ->
  (forall (i : nat) (z : Z),
     written (map write_call groups) (fst (second_read m) + Z.of_nat i) = Some (num z) ->
     Z.of_nat i < snd (second_read m) -> second !! i = Some z) ->
  decode m first second = v.
Proof.
  intros Hm V I X G H1 H2.
  rewrite <- (valid_cache_fields m v V).
  destruct m; [| | contradiction | | |];
    cbn [schema_of groups_of first_read second_read fst snd] in *.
  - (* extended, charging *)
    destruct (I "chargePower" _ _ ltac:(cbn; eauto 30)) as [cp Ecp].
    destruct (I "stopSOC" _ _ ltac:(cbn; eauto 30)) as [soc Esoc].
    destruct (switch_word v "ac" (X "ac" _ ltac:(cbn; eauto 30))) as (xa & Sa & Oa).
    destruct (clock_word _ v "startHour1" "startMinute1" V I
                ltac:(cbn; eauto 30) ltac:(cbn; eauto 30)
                ltac:(cbn; tauto) ltac:(cbn; tauto)) as (x0 & P0 & Uh0 & Um0).
    destruct (clock_word _ v "stopHour1" "stopMinute1" V I
                ltac:(cbn; eauto 30) ltac:(cbn; eauto 30)
                ltac:(cbn; tauto) ltac:(cbn; tauto)) as (x1 & P1 & Uh1 & Um1).
    destruct (switch_word v "enablePeriod1" (X "enablePeriod1" _ ltac:(cbn; eauto 30)))
      as (x2 & S2 & O2).
    destruct (clock_word _ v "startHour2" "startMinute2" V I
                ltac:(cbn; eauto 30) ltac:(cbn; eauto 30)
                ltac:(cbn; tauto) ltac:(cbn; tauto)) as (x3 & P3 & Uh3 & Um3).
    destruct (clock_word _ v "stopHour2" "stopMinute2" V I
                ltac:(cbn; eauto 30) ltac:(cbn; eauto 30)
                ltac:(cbn; tauto) ltac:(cbn; tauto)) as (x4 & P4 & Uh4 & Um4).
    destruct (switch_word v "enablePeriod2" (X "enablePeriod2" _ ltac:(cbn; eauto 30)))
      as (x5 & S5 & O5).
    destruct (clock_word _ v "startHour3" "startMinute3" V I
                ltac:(cbn; eauto 30) ltac:(cbn; eauto 30)
                ltac:(cbn; tauto) ltac:(cbn; tauto)) as (x6 & P6 & Uh6 & Um6).
    destruct (clock_word _ v "stopHour3" "stopMinute3" V I
                ltac:(cbn; eauto 30) ltac:(cbn; eauto 30)
                ltac:(cbn; tauto) ltac:(cbn; tauto)) as (x7 & P7 & Uh7 & Um7).
    destruct (switch_word v "enablePeriod3" (X "enablePeriod3" _ ltac:(cbn; eauto 30)))
      as (x8 & S8 & O8).
    unfold Extended.window_words in G.
    rewrite P0, P1, S2, P3, P4, S5, P6, P7, S8, Ecp, Esoc, Sa in G.
    injection G as <-.
    pose proof (H1 0%nat _ eq_refl eq_refl) as A0.
    pose proof (H1 1%nat _ eq_refl eq_refl) as A1.
    pose proof (H1 2%nat _ eq_refl eq_refl) as A2.
    pose proof (H2 0%nat _ eq_refl eq_refl) as B0.
    pose proof (H2 1%nat _ eq_refl eq_refl) as B1.
    pose proof (H2 2%nat _ eq_refl eq_refl) as B2.
    pose proof (H2 3%nat _ eq_refl eq_refl) as B3.
    pose proof (H2 4%nat _ eq_refl eq_refl) as B4.
    pose proof (H2 5%nat _ eq_refl eq_refl) as B5.
    pose proof (H2 6%nat _ eq_refl eq_refl) as B6.
    pose proof (H2 7%nat _ eq_refl eq_refl) as B7.
    pose proof (H2 8%nat _ eq_refl eq_refl) as B8.
    unfold decode, Extended.window_fields, declared_fields.
    rewrite A0, A1, A2, B0, B1, B2, B3, B4, B5, B6, B7, B8.
    rewrite Oa, Uh0, Um0, Uh1, Um1, O2, Uh3, Um3, Uh4, Um4, O5,
      Uh6, Um6, Uh7, Um7, O8.
    change (word_value (Some cp)) with (num cp).
    change (word_value (Some soc)) with (num soc).
    rewrite <- Ecp, <- Esoc. reflexivity.
  - (* extended, discharging *)
    destruct (I "dischargePower" _ _ ltac:(cbn; eauto 30)) as [dp Edp].
    destruct (I "dischargeStopSOC" _ _ ltac:(cbn; eauto 30)) as [soc Esoc].
    destruct (clock_word _ v "startHour1" "startMinute1" V I
                ltac:(cbn; eauto 30) ltac:(cbn; eauto 30)
                ltac:(cbn; tauto) ltac:(cbn; tauto)) as (x0 & P0 & Uh0 & Um0).
    destruct (clock_word _ v "stopHour1" "stopMinute1" V I
                ltac:(cbn; eauto 30) ltac:(cbn; eauto 30)
                ltac:(cbn; tauto) ltac:(cbn; tauto)) as (x1 & P1 & Uh1 & Um1).
    destruct (switch_word v "enablePeriod1" (X "enablePeriod1" _ ltac:(cbn; eauto 30)))
      as (x2 & S2 & O2).
    destruct (clock_word _ v "startHour2" "startMinute2" V I
                ltac:(cbn; eauto 30) ltac:(cbn; eauto 30)
                ltac:(cbn; tauto) ltac:(cbn; tauto)) as (x3 & P3 & Uh3 & Um3).
    destruct (clock_word _ v "stopHour2" "stopMinute2" V I
                ltac:(cbn; eauto 30) ltac:(cbn; eauto 30)
                ltac:(cbn; tauto) ltac:(cbn; tauto)) as (x4 & P4 & Uh4 & Um4).
    destruct (switch_word v "enablePeriod2" (X "enablePeriod2" _ ltac:(cbn; eauto 30)))
      as (x5 & S5 & O5).
    destruct (clock_word _ v "startHour3" "startMinute3" V I
                ltac:(cbn; eauto 30) ltac:(cbn; eauto 30)
                ltac:(cbn; tauto) ltac:(cbn; tauto)) as (x6 & P6 & Uh6 & Um6).
    destruct (clock_word _ v "stopHour3" "stopMinute3" V I
                ltac:(cbn; eauto 30) ltac:(cbn; eauto 30)
                ltac:(cbn; tauto) ltac:(cbn; tauto)) as (x7 & P7 & Uh7 & Um7).
    destruct (switch_word v "enablePeriod3" (X "enablePeriod3" _ ltac:(cbn; eauto 30)))
      as (x8 & S8 & O8).
    unfold Extended.window_words in G.
    rewrite P0, P1, S2, P3, P4, S5, P6, P7, S8, Edp, Esoc in G.
    injection G as <-.
    pose proof (H1 0%nat _ eq_refl eq_refl) as A0.
    pose proof (H1 1%nat _ eq_refl eq_refl) as A1.
    pose proof (H2 0%nat _ eq_refl eq_refl) as B0.
    pose proof (H2 1%nat _ eq_refl eq_refl) as B1.
    pose proof (H2 2%nat _ eq_refl eq_refl) as B2.
    pose proof (H2 3%nat _ eq_refl eq_refl) as B3.
    pose proof (H2 4%nat _ eq_refl eq_refl) as B4.
    pose proof (H2 5%nat _ eq_refl eq_refl) as B5.
    pose proof (H2 6%nat _ eq_refl eq_refl) as B6.
    pose proof (H2 7%nat _ eq_refl eq_refl) as B7.
    pose proof (H2 8%nat _ eq_refl eq_refl) as B8.
    unfold decode, Extended.window_fields, declared_fields.
    rewrite A0, A1, B0, B1, B2, B3, B4, B5, B6, B7, B8.
    rewrite Uh0, Um0, Uh1, Um1, O2, Uh3, Um3, Uh4, Um4, O5,
      Uh6, Um6, Uh7, Um7, O8.
    change (word_value (Some dp)) with (num dp).
    change (word_value (Some soc)) with (num soc).
    rewrite <- Edp, <- Esoc. reflexivity.
  - (* packed, discharging *)
    destruct (I "batLowToUtiVolt" _ _ ltac:(cbn; eauto 30)) as [low Elow].
    destruct (hour_word _ v "utiOutStart" V I ltac:(cbn; eauto 30) ltac:(cbn; tauto))
      as (x0 & P0 & U0).
    destruct (hour_word _ v "utiOutEnd" V I ltac:(cbn; eauto 30) ltac:(cbn; tauto))
      as (x1 & P1 & U1).
    rewrite P0, P1, Elow in G. injection G as <-.
    pose proof (H1 0%nat _ eq_refl eq_refl) as A0.
    pose proof (H1 1%nat _ eq_refl eq_refl) as A1.
    pose proof (H2 0%nat _ eq_refl eq_refl) as B0.
    unfold decode, declared_fields. rewrite A0, A1, B0, U0, U1.
    change (word_value (Some low)) with (num low).
    rewrite <- Elow. reflexivity.
  - (* tenths, charging *)
    destruct (tenths_word _ v "uwAC2BatVolt" _ _ I ltac:(cbn; eauto 30))
      as (x & T & S).
    destruct (I "chargeConfig" _ _ ltac:(cbn; eauto 30)) as [cfg Ecfg].
    destruct (I "utiChargeStart" _ _ ltac:(cbn; eauto 30)) as [st Est].
    destruct (I "utiChargeEnd" _ _ ltac:(cbn; eauto 30)) as [en Een].
    rewrite T, Ecfg, Est, Een in G. injection G as <-.
    pose proof (H1 2%nat _ eq_refl eq_refl) as A2.
    pose proof (H1 5%nat _ eq_refl eq_refl) as A5.
    pose proof (H1 6%nat _ eq_refl eq_refl) as A6.
    pose proof (H2 0%nat _ eq_refl eq_refl) as B0.
    unfold decode, declared_fields. rewrite A2, A5, A6, B0, S.
    change (word_value (Some cfg)) with (num cfg).
    change (word_value (Some st)) with (num st).
    change (word_value (Some en)) with (num en).
    rewrite <- Ecfg, <- Est, <- Een. reflexivity.
  - (* tenths, discharging *)
    destruct (tenths_word _ v "batLowToUtiVolt" _ _ I ltac:(cbn; eauto 30))
      as (x & T & S).
    destruct (I "utiOutStart" _ _ ltac:(cbn; eauto 30)) as [st Est].
    destruct (I "utiOutEnd" _ _ ltac:(cbn; eauto 30)) as [en Een].
    rewrite T, Est, Een in G. injection G as <-.
    pose proof (H1 0%nat _ eq_refl eq_refl) as A0.
    pose proof (H1 1%nat _ eq_refl eq_refl) as A1.
    pose proof (H2 0%nat _ eq_refl eq_refl) as B0.
    unfold decode, declared_fields. rewrite A0, A1, B0, S.
    change (word_value (Some st)) with (num st).
    change (word_value (Some en)) with (num en).
    rewrite <- Est, <- Een. reflexivity.
Qed.

(** A [set] method followed by the [get] method of its domain, on a device
    that keeps what is written: the writes go through and the two reads
    return windows that hold the words written. *)
Lemma set_then_get_run (m : set_method) (modbusClient : ModbusRTU) (w : world)
      (groups : list (Z * list value)) :
  remembers modbusClient -> mutex w = false ->
  validate (schema_of m) (cache_of m w) = true ->
  groups_of m (cache_of m w) = Some groups ->
  let w1 := snd (run_set m modbusClient w) in
  fst (run_set m modbusClient w) = Ret tt
  /\ exists first second,
       fst (run_get m modbusClient w1) = Ret (decode m first second)
       /\ cache_of m (snd (run_get m modbusClient w1)) = decode m first second
       /\ length first = Z.to_nat (snd (first_read m))
       /\ (forall (i : nat) (z : Z),
             written (map write_call groups) (fst (first_read m) + Z.of_nat i)
             = Some (num z) ->
             Z.of_nat i < snd (first_read m) -> first !! i = Some z)
       /\ (forall (i : nat) (z : Z),
             written (map write_call groups) (fst (second_read m) + Z.of_nat i)
             = Some (num z) ->
             Z.of_nat i < snd (second_read m) -> second !! i = Some z).
Proof.
  intros [Hack Hread] Hm V G w1. subst w1.
  rewrite (run_set_valid m modbusClient w V), G.
  destruct (write_all_acknowledged modbusClient groups w Hm Hack) as (R & C & F).
  set (w1 := snd (write_all modbusClient groups w)) in *.
  split; [exact R|].
  rewrite (run_get_run m modbusClient w1 F). unfold get_result, holding_read.
  destruct (Hread (calls w1) (fst (first_read m)) (snd (first_read m)))
    as (first & E1 & L1 & F1).
  rewrite E1.
  assert (calls (add_call (ReadHoldingRegisters (fst (first_read m))
                                               (snd (first_read m))) w1)
          = (calls w1 ++ [ReadHoldingRegisters (fst (first_read m))
                                                (snd (first_read m))])%list) as C1
    by (destruct w1; reflexivity).
  rewrite C1.
  destruct (Hread (calls w1 ++ [ReadHoldingRegisters (fst (first_read m))
                                                     (snd (first_read m))])%list
                  (fst (second_read m)) (snd (second_read m)))
    as (second & E2 & L2 & F2).
  rewrite E2. cbn [fst snd].
  exists first, second.
  split; [reflexivity|].
  split; [rewrite cache_of_domain; apply cached_set_cached|].
  split; [exact L1|].
  split.
  - intros i z Hw Hi. apply (F1 i z Hi).
    rewrite C, written_app, Hw. reflexivity.
  - intros i z Hw Hi. apply (F2 i z Hi).
    rewrite written_app. cbn [written written_by].
    rewrite C, written_app, Hw. reflexivity.
Qed.

(** X2.  Writing a domain and reading it back.  On a device that keeps what
    is written, a [set] method followed by the [get] method of the same
    domain returns and caches exactly the object that was flushed, provided
    the object is valid, its numbers are integers and its switches are the
    texts ON or OFF.  This holds for both domains of the extended and of the
    tenths revision and for the discharging domain of the packed
    revision. *)
Theorem set_then_get_restores
    (m : set_method) (modbusClient : ModbusRTU) (w : world) :
  m <> PackedCharging ->
  remembers modbusClient -> mutex w = false ->
  validate (schema_of m) (cache_of m w) = true ->
  integral (schema_of m) (cache_of m w) ->
  exact_switches (schema_of m) (cache_of m w) ->
  let w1 := snd (run_set m modbusClient w) in
  fst (run_set m modbusClient w) = Ret tt
  /\ fst (run_get m modbusClient w1) = Ret (cache_of m w)
  /\ cache_of m (snd (run_get m modbusClient w1)) = cache_of m w.
Proof.
  intros Hne Rem Hm V I X w1.
  destruct (groups_of_valid m _ V) as (groups & G & _).
  destruct (set_then_get_run m modbusClient w groups Rem Hm V G)
    as (R & first & second & E & C & _ & F1 & F2).
  fold w1 in E, C.
  rewrite (decode_written m _ groups first second Hne V I X G F1 F2) in E, C.
  auto.
Qed.

Lemma set_then_get_restores_witness :
  let w1 := snd (Extended.setTouCharging memory_device scheduled_charging) in
  fst (Extended.setTouCharging memory_device scheduled_charging) = Ret tt
  /\ fst (Extended.getTouCharging memory_device w1) = Ret charging_schedule
  /\ touChargingValues (snd (Extended.getTouCharging memory_device w1))
     = charging_schedule.
Proof.
  apply (set_then_get_restores ExtendedCharging memory_device scheduled_charging).
  - discriminate.
  - exact memory_device_remembers.
  - reflexivity.
  - vm_compute. reflexivity.
  - intros key lo hi H. cbn in H.
    repeat (destruct H as [H|H];
            [ first [ discriminate H
                    | injection H as <- <- <-; eexists; vm_compute; reflexivity ] | ]).
    destruct H.
  - intros key alts H. cbn in H.
    repeat (destruct H as [H|H];
            [ first [ discriminate H
                    | injection H as <- <-;
                      first [ left; vm_compute; reflexivity
                            | right; vm_compute; reflexivity ] ] | ]).
    destruct H.
Defined.

(** X3.  The packed revision's charging domain does not come back.
    [setTouCharging] writes the start and the end hour to registers 5 and 6;
    [getTouCharging] reads seven words from register 0 and takes the start
    hour from [data1[6]] and the end hour from [data1[7]], one past the
    window.  After a [set] and a [get] on a device that keeps what is
    written, the cached start hour is the end hour that was flushed and the
    cached end hour is 0; the two other fields come back. *)
Theorem packed_charging_hours_shift
    (modbusClient : ModbusRTU) (w : world) :
  let v := touChargingValues w in
  remembers modbusClient -> mutex w = false ->
  validate Packed.touCharging_schema v = true ->
  integral Packed.touCharging_schema v ->
  let w1 := snd (Packed.setTouCharging modbusClient w) in
  fst (Packed.setTouCharging modbusClient w) = Ret tt
  /\ touChargingValues (snd (Packed.getTouCharging modbusClient w1))
     = <["utiChargeStart" := get v "utiChargeEnd"]>
         (<["utiChargeEnd" := num 0]> v).
Proof.
  intros v Rem Hm V I w1.
  destruct (groups_of_valid PackedCharging _ V) as (groups & G & _).
  destruct (set_then_get_run PackedCharging modbusClient w groups Rem Hm V G)
    as (R & first & second & _ & C & L1 & H1 & H2).
  cbn [run_set run_get cache_of schema_of first_read second_read fst snd] in *.
  fold v in G. fold w1 in C.
  split; [exact R|]. rewrite C. clear C R.
  destruct (I "uwAC2BatVolt" _ _ ltac:(cbn; eauto 30)) as [uw Euw].
  destruct (I "chargeConfig" _ _ ltac:(cbn; eauto 30)) as [cfg Ecfg].
  destruct (hour_word _ v "utiChargeStart" V I ltac:(cbn; eauto 30) ltac:(cbn; tauto))
    as (x0 & P0 & U0).
  destruct (hour_word _ v "utiChargeEnd" V I ltac:(cbn; eauto 30) ltac:(cbn; tauto))
    as (x1 & P1 & U1).
  cbn [groups_of] in G. rewrite P0, P1, Euw, Ecfg in G. injection G as <-.
  pose proof (H1 2%nat _ eq_refl eq_refl) as A2.
  pose proof (H1 6%nat _ eq_refl eq_refl) as A6.
  pose proof (H2 0%nat _ eq_refl eq_refl) as B0.
  assert (first !! 7%nat = None) as A7
    by (apply lookup_ge_None; rewrite L1; cbn; lia).
  unfold decode. rewrite A2, A6, A7, B0, U1.
  change (word_value (Some uw)) with (num uw).
  change (word_value (Some cfg)) with (num cfg).
  rewrite <- Euw, <- Ecfg.
  set (e := get v "utiChargeEnd").
  rewrite <- (valid_cache_fields PackedCharging v V).
  subst e. unfold declared_fields. cbn [schema_of]. reflexivity.
Qed.

Lemma packed_charging_hours_shift_witness :
  let w1 := snd (Packed.setTouCharging memory_device packed_scheduled) in
  fst (Packed.setTouCharging memory_device packed_scheduled) = Ret tt
  /\ touChargingValues (snd (Packed.getTouCharging memory_device w1))
     = <["utiChargeStart" := num 17]> (<["utiChargeEnd" := num 0]> packed_schedule).
Proof.
  apply (packed_charging_hours_shift memory_device packed_scheduled).
  - exact memory_device_remembers.
  - reflexivity.
  - vm_compute. reflexivity.
  - intros key lo hi H. cbn in H.
    repeat (destruct H as [H|H];
            [ injection H as <- <- <-; eexists; vm_compute; reflexivity | ]).
    destruct H.
Defined.

(** ** What [updateControl] leaves alone *)

Lemma forEach_cons {A} (x : A) (rest : list A) (body : A -> M unit) (w : world) :
  forEach (x :: rest) body w
  = match body x w with
    | (Ret _, w') => forEach rest body w'
    | (Throw e, w') => (Throw e, w')
    | (OutOfModel, w') => (OutOfModel, w')
    end.
Proof. reflexivity. Qed.

Section MergeFrame.
Variables (subTopic : string) (control : value).

(** One step of the loop returns or leaves the embedding; it touches
    neither the channel, the mutex nor the console, no domain but the one
    the subtopic names, and in that domain no field but [key]. *)
Lemma merge_key_frame (key : string) (w : world) :
  let r := fst (merge_key subTopic control key w) in
  let w' := snd (merge_key subTopic control key w) in
  (r = Ret tt \/ r = OutOfModel)
  /\ calls w' = calls w /\ mutex w' = mutex w /\ console w' = console w
  /\ (subTopic <> "touCharging" -> touChargingValues w' = touChargingValues w)
  /\ (subTopic <> "touDischarging" -> touDischargingValues w' = touDischargingValues w)
  /\ forall k, k <> key ->
       touChargingValues w' !! k = touChargingValues w !! k
       /\ touDischargingValues w' !! k = touDischargingValues w !! k.
Proof.
  unfold merge_key, str_eq.
  destruct (String.eqb_spec subTopic "touCharging") as [E1|N1];
    destruct (String.eqb_spec subTopic "touDischarging") as [E2|N2];
    try (rewrite E1 in E2; discriminate E2); cbn [andb].
  - destruct (has_field (touChargingValues w) key); cbn [fst snd].
    + destruct (assign (touChargingValues w) key (own_get control key)) as [o|] eqn:A;
        cbn [fst snd].
      * destruct w; cbn in *.
        repeat split; auto; try congruence.
        exact (assign_other _ _ _ _ _ A H).
      * repeat split; auto.
    + repeat split; auto.
  - destruct (has_field (touDischargingValues w) key); cbn [fst snd].
    + destruct (assign (touDischargingValues w) key (own_get control key)) as [o|] eqn:A;
        cbn [fst snd].
      * destruct w; cbn in *.
        repeat split; auto; try congruence.
        exact (assign_other _ _ _ _ _ A H).
      * repeat split; auto.
    + repeat split; auto.
  - cbn [fst snd]. repeat split; auto.
Qed.

Lemma forEach_merge_frame (keys : list string) (w : world) :
  let r := fst (forEach keys (merge_key subTopic control) w) in
  let w' := snd (forEach keys (merge_key subTopic control) w) in
  (r = Ret tt \/ r = OutOfModel)
  /\ calls w' = calls w /\ mutex w' = mutex w /\ console w' = console w
  /\ (subTopic <> "touCharging" -> touChargingValues w' = touChargingValues w)
  /\ (subTopic <> "touDischarging" -> touDischargingValues w' = touDischargingValues w)
  /\ forall k, ~ In k keys ->
       touChargingValues w' !! k = touChargingValues w !! k
       /\ touDischargingValues w' !! k = touDischargingValues w !! k.
Proof.
  revert w. induction keys as [|key rest IH]; intros w; cbv zeta.
  - cbn. repeat split; auto.
  - rewrite forEach_cons.
    pose proof (merge_key_frame key w) as F. cbv zeta in F.
    destruct (merge_key subTopic control key w) as [[[]| e |] w1]; cbn [fst snd] in *.
    + destruct F as (_ & C & M & L & T & D & K).
      destruct (IH w1) as (R' & C' & M' & L' & T' & D' & K').
      split; [exact R'|].
      split; [congruence|]. split; [congruence|]. split; [congruence|].
      split; [intros N; rewrite (T' N); exact (T N)|].
      split; [intros N; rewrite (D' N); exact (D N)|].
      intros k Hk.
      destruct (K' k) as [K1 K2]; [intros Hin; apply Hk; right; exact Hin|].
      destruct (K k) as [K3 K4]; [intros ->; apply Hk; left; reflexivity|].
      split; congruence.
    + destruct F as ([F|F] & _); discriminate F.
    + destruct F as (_ & C & M & L & T & D & K).
      split; [right; reflexivity|].
      repeat split; auto;
        apply K; intros ->; apply H; left; reflexivity.
Qed.

End MergeFrame.

Section UpdateControlFrame.
Context {RT : Runtime}.
Variables (subTopic controlMessage : string) (w : world).

(** [updateControl] is the loop over the names of the message, or the
    console line of the [catch] block. *)
Lemma updateControl_run :
  updateControl subTopic controlMessage w
  = match JSON_parse (replace_quotes controlMessage) with
    | Some control =>
        match Object_keys control with
        | Some keys =>
            match forEach keys (merge_key subTopic control) w with
            | (Ret _, w') => (Ret (control_data w'), w')
            | (Throw _, w') =>
                (Ret (control_data w'), add_console parse_error_line w')
            | (OutOfModel, w') => (OutOfModel, w')
            end
        | None => (Ret (control_data w), add_console parse_error_line w)
        end
    | None => (Ret (control_data w), add_console parse_error_line w)
    end.
Proof.
  unfold updateControl, bind, try_catch, lift_option.
  destruct (JSON_parse (replace_quotes controlMessage)) as [control|];
    [|destruct w; reflexivity].
  cbn. destruct (Object_keys control) as [keys|]; [|destruct w; reflexivity].
  cbn. destruct (forEach keys (merge_key subTopic control) w) as [[[]| e |] w'];
    destruct w'; reflexivity.
Qed.

End UpdateControlFrame.

(** X4.  [updateControl] never throws, whatever the subtopic and the
    message: it returns both domains' cached values as they are after the
    merge.  It makes no call on the channel and does not touch the mutex; a
    domain the subtopic does not name is left as it was, so a subtopic that
    is neither [touCharging] nor [touDischarging] changes no cache at
    all. *)
Theorem updateControl_never_throws
    {RT : Runtime} (subTopic controlMessage : string) (w : world) :
  let r := fst (updateControl subTopic controlMessage w) in
  let w' := snd (updateControl subTopic controlMessage w) in
  (forall e, r <> Throw e)
  /\ (forall data, r = Ret data -> data = control_data w')
  /\ calls w' = calls w
  /\ mutex w' = mutex w
  /\ (subTopic <> "touCharging" -> touChargingValues w' = touChargingValues w)
  /\ (subTopic <> "touDischarging"
      -> touDischargingValues w' = touDischargingValues w).
Proof.
  cbv zeta. rewrite updateControl_run.
  assert (forall w0, calls (add_console parse_error_line w0) = calls w0
                     /\ mutex (add_console parse_error_line w0) = mutex w0
                     /\ touChargingValues (add_console parse_error_line w0)
                        = touChargingValues w0
                     /\ touDischargingValues (add_console parse_error_line w0)
                        = touDischargingValues w0
                     /\ control_data (add_console parse_error_line w0)
                        = control_data w0) as A
    by (intros []; repeat split).
  destruct (JSON_parse (replace_quotes controlMessage)) as [control|].
  - destruct (Object_keys control) as [keys|].
    + pose proof (forEach_merge_frame subTopic control keys w) as F. cbv zeta in F.
      destruct (forEach keys (merge_key subTopic control) w) as [[[]| e |] w'];
        cbn [fst snd] in *; destruct F as ([F|F] & C & M & _ & T & D & _);
        try discriminate F.
      * split; [discriminate|]. split; [congruence|]. auto.
      * split; [discriminate|]. split; [discriminate|]. auto.
    + cbn [fst snd]. destruct (A w) as (C & M & T & D & R).
      split; [discriminate|]. split; [intros data E; congruence|].
      rewrite C, M, T, D. auto.
  - cbn [fst snd]. destruct (A w) as (C & M & T & D & R).
    split; [discriminate|]. split; [intros data E; congruence|].
    rewrite C, M, T, D. auto.
Qed.

(** X5.  A field the message does not name keeps its cached value in both
    domains: a partial update changes the named fields only. *)
Theorem updateControl_keeps_unnamed_fields
    {RT : Runtime} (subTopic controlMessage field : string) (w : world) :
  ~ In field (named_fields (JSON_parse (replace_quotes controlMessage))) ->
  let w' := snd (updateControl subTopic controlMessage w) in
  touChargingValues w' !! field = touChargingValues w !! field
  /\ touDischargingValues w' !! field = touDischargingValues w !! field.
Proof.
  intros Hn. cbv zeta. rewrite updateControl_run. unfold named_fields in Hn.
  destruct (JSON_parse (replace_quotes controlMessage)) as [control|];
    [|destruct w; split; reflexivity].
  cbn [mbind option_bind] in Hn.
  destruct (Object_keys control) as [keys|]; [|destruct w; split; reflexivity].
  cbn in Hn.
  pose proof (forEach_merge_frame subTopic control keys w) as F. cbv zeta in F.
  destruct F as (_ & _ & _ & _ & _ & _ & K). specialize (K field Hn).
  destruct (forEach keys (merge_key subTopic control) w) as [[[]| e |] w'];
    cbn [fst snd] in *; exact K.
Qed.

Lemma updateControl_keeps_unnamed_fields_witness :
  let w' := snd (updateControl "touCharging" "{'stopSOC': 40, 'ac': 'ON'}"
                               Extended.initial) in
  touChargingValues w' !! "chargePower"
  = touChargingValues Extended.initial !! "chargePower"
  /\ touDischargingValues w' !! "chargePower"
     = touDischargingValues Extended.initial !! "chargePower".
Proof.
  apply (updateControl_keeps_unnamed_fields
           "touCharging" "{'stopSOC': 40, 'ac': 'ON'}" "chargePower"
           Extended.initial).
  vm_compute. intros [H|[H|H]]; try discriminate H; exact H.
Defined.

(** ** The same message twice *)

Lemma domain_named_topic (subTopic : string) (d : domain) :
  domain_named subTopic = Some d -> subTopic = topic d.
Proof.
  unfold domain_named, str_eq.
  destruct (String.eqb_spec subTopic "touCharging") as [->|_].
  - intros [= <-]. reflexivity.
  - destruct (String.eqb_spec subTopic "touDischarging") as [->|_];
      [|discriminate].
    intros [= <-]. reflexivity.
Qed.

Lemma forEach_unnamed (subTopic : string) (control : value)
      (keys : list string) (w : world) :
  domain_named subTopic = None ->
  forEach keys (merge_key subTopic control) w = (Ret tt, w).
Proof.
  unfold domain_named. intros H. apply forEach_unrecognized.
  intros key _. unfold recognized.
  destruct (str_eq subTopic "touCharging"); [discriminate|].
  destruct (str_eq subTopic "touDischarging"); [discriminate|]. reflexivity.
Qed.

Section MergeTwice.
Variable props : list (string * value).

Lemma merge_step_stable (o oa o1 : obj) (key : string) :
  merge_step props o key = Some oa -> o1 !! key = oa !! key ->
  merge_step props o1 key = Some o1.
Proof.
  unfold merge_step, has_field, assign.
  generalize (default VUndef (prop_get props key)). intros v S E.
  assert (forall x, o1 !! key = Some x ->
            (if match x with VUndef => false | _ => true end
             then Some (<[key := x]> o1) else Some o1) = Some o1) as Own.
  { intros x Hx. rewrite (insert_id o1 key x Hx). destruct x; reflexivity. }
  destruct (o !! key) as [x|] eqn:Eo.
  - destruct x; injection S as <-;
      try (rewrite lookup_insert_eq in E; rewrite E; exact (Own v E)).
    rewrite E, Eo. reflexivity.
  - destruct (inherited key) eqn:Ei.
    + destruct (String.eqb key "__proto__") eqn:Ep.
      * assert (oa = o) as -> by (destruct v; congruence).
        rewrite E, Eo. destruct v; try discriminate; reflexivity.
      * injection S as <-. rewrite lookup_insert_eq in E. rewrite E.
        exact (Own v E).
    + injection S as <-. rewrite E, Eo. reflexivity.
Qed.

Lemma merge_all_twice (keys : list string) (o o1 : obj) :
  NoDup keys -> merge_all props keys o = Some o1 ->
  merge_all props keys o1 = Some o1.
Proof.
  revert o. induction keys as [|key rest IH]; intros o ND H; [reflexivity|].
  apply NoDup_cons in ND as [Hnotin ND]. cbn in H |- *.
  destruct (merge_step props o key) as [oa|] eqn:S; [|discriminate]. cbn in H.
  rewrite (merge_step_stable o oa o1 key S). 
  - cbn. exact (IH oa ND H).
  - apply (merge_all_other props rest oa o1 key H).
    intros Hin. apply Hnotin. apply list_elem_of_In. exact Hin.
Qed.

(** A field the cache holds or inherits, under a name other than
    [__proto__], ends up as an own property with the message's value. *)
Lemma merge_all_creates (keys : list string) (o o' : obj) (k : string) (v : value) :
  merge_all props keys o = Some o' -> NoDup keys -> In k keys ->
  has_field o k = true -> k <> "__proto__" -> prop_get props k = Some v ->
  o' !! k = Some v.
Proof.
  revert o. induction keys as [|key rest IH]; intros o H ND Hin F Hne P;
    [destruct Hin|].
  apply NoDup_cons in ND as [Hnotin ND]. cbn in H.
  destruct (merge_step props o key) as [o1|] eqn:E; [|discriminate]. cbn in H.
  destruct (string_dec key k) as [->|Hk].
  - assert (o1 = <[k := v]> o) as ->.
    { unfold merge_step, assign in E. rewrite F, P in E. cbn in E.
      apply String.eqb_neq in Hne. rewrite Hne in E.
      destruct (o !! k); congruence. }
    rewrite (merge_all_other props rest _ o' k H).
    + apply lookup_insert_eq.
    + intros Hk. apply Hnotin. apply list_elem_of_In. exact Hk.
  - destruct Hin as [Heq|Hin]; [congruence|].
    apply (IH o1 H ND Hin); [|exact Hne|exact P].
    unfold has_field in *.
    rewrite (merge_step_other props _ _ _ _ E); [exact F | congruence].
Qed.

End MergeTwice.

(** The loop over a named domain is the merge on that domain's cache. *)
Lemma forEach_merge_all (d : domain) (control : value)
      (props : list (string * value)) (keys : list string) (w : world) :
  own_props control = Some props ->
  match merge_all props keys (cached d w) with
  | Some o =>
      forEach keys (merge_key (topic d) control) w = (Ret tt, set_cached d o w)
  | None => fst (forEach keys (merge_key (topic d) control) w) = OutOfModel
  end.
Proof.
  intros O.
  destruct (merge_all props keys (cached d w)) as [o|] eqn:E.
  - exact (forEach_merge d control props keys w o O E).
  - revert w E. induction keys as [|key rest IH]; intros w E; [discriminate|].
    cbn in E. rewrite forEach_cons.
    destruct (merge_step props (cached d w) key) as [o1|] eqn:S.
    + rewrite (merge_key_domain d control props key w o1 O S).
      apply IH. rewrite cached_set_cached. exact E.
    + assert (merge_key (topic d) control key w = (OutOfModel, w)) as ->;
        [|reflexivity].
      unfold merge_step in S. unfold merge_key, own_get. rewrite O.
      cbn [mbind option_bind].
      destruct d; cbn [topic cached str_eq String.eqb Ascii.eqb Bool.eqb andb] in *.
      * destruct (has_field (touChargingValues w) key); [|discriminate].
        rewrite S. reflexivity.
      * destruct (has_field (touDischargingValues w) key); [|discriminate].
        rewrite S. reflexivity.
Qed.

Lemma Object_keys_props (control : value) (keys : list string) :
  Object_keys control = Some keys ->
  exists props, own_props control = Some props /\ keys = remove_dups (props.*1).
Proof.
  unfold Object_keys. destruct (own_props control) as [props|]; [|discriminate].
  intros [= <-]. eauto.
Qed.

(** X6.  A control message that was merged can be delivered again: the
    second [updateControl] with the same subtopic and message returns what
    the first returned and leaves both caches as the first left them. *)
Theorem updateControl_twice
    {RT : Runtime} (subTopic controlMessage : string) (w : world)
    (data : list ControlData) :
  fst (updateControl subTopic controlMessage w) = Ret data ->
  let w1 := snd (updateControl subTopic controlMessage w) in
  let w2 := snd (updateControl subTopic controlMessage w1) in
  fst (updateControl subTopic controlMessage w1) = Ret data
  /\ touChargingValues w2 = touChargingValues w1
  /\ touDischargingValues w2 = touDischargingValues w1.
Proof.
  cbv zeta. rewrite !updateControl_run.
  destruct (JSON_parse (replace_quotes controlMessage)) as [control|];
    [|cbn [fst snd]; destruct w; cbn; auto].
  destruct (Object_keys control) as [keys|] eqn:K;
    [|cbn [fst snd]; destruct w; cbn; auto].
  destruct (Object_keys_props control keys K) as (props & O & ->).
  destruct (domain_named subTopic) as [d|] eqn:N.
  - apply domain_named_topic in N. subst subTopic.
    pose proof (forEach_merge_all d control props (remove_dups props.*1) w O) as F.
    destruct (merge_all props (remove_dups props.*1) (cached d w)) as [o|] eqn:E.
    + rewrite F. cbn [fst snd].
      pose proof (forEach_merge_all d control props (remove_dups props.*1)
                    (set_cached d o w) O) as F2.
      rewrite cached_set_cached in F2.
      rewrite (merge_all_twice props _ _ o (NoDup_remove_dups _) E) in F2.
      rewrite set_cached_twice in F2. rewrite F2. cbn [fst snd]. auto.
    + destruct (forEach (remove_dups props.*1) (merge_key (topic d) control) w)
        as [[[]| e |] w']; cbn [fst snd] in *; discriminate.
  - rewrite (forEach_unnamed subTopic control _ w N). cbn [fst snd].
    rewrite (forEach_unnamed subTopic control _ w N). cbn [fst snd]. auto.
Qed.

Lemma updateControl_twice_witness :
  let w1 := snd (updateControl "touCharging" "{'stopSOC': 40, 'toString': 1}"
                               Extended.initial) in
  let w2 := snd (updateControl "touCharging" "{'stopSOC': 40, 'toString': 1}" w1) in
  fst (updateControl "touCharging" "{'stopSOC': 40, 'toString': 1}" w1)
  = Ret (control_data w1)
  /\ touChargingValues w2 = touChargingValues w1
  /\ touDischargingValues w2 = touDischargingValues w1.
Proof.
  apply (updateControl_twice "touCharging" "{'stopSOC': 40, 'toString': 1}"
                             Extended.initial).
  vm_compute. reflexivity.
Defined.

(** ** A name every object inherits *)

Lemma validate_undeclared (sch : schema) (data : obj) (key : string) (v : value) :
  additionalProperties sch = false -> data !! key = Some v ->
  key ∉ (properties sch).*1 -> validate sch data = false.
Proof.
  intros Ha Hv Hn.
  destruct (validate sch data) eqn:V; [|reflexivity].
  exfalso. apply Hn. apply (validate_declared sch data key V Ha). eauto.
Qed.

Lemma inherited_undeclared (m : set_method) (key : string) :
  In key Object_prototype_names -> key ∉ (properties (schema_of m)).*1.
Proof.
  intros Hin Hp. apply list_elem_of_In in Hp. unfold Object_prototype_names in Hin.
  repeat (destruct Hin as [<-|Hin];
          [ destruct m; cbn in Hp; decompose [or] Hp; discriminate || assumption | ]).
  destruct Hin.
Qed.

(** The object a [get] method builds has none of the inherited names. *)
Lemma decode_drops_inherited (m : set_method) (first second : list Z) (key : string) :
  In key Object_prototype_names -> decode m first second !! key = None.
Proof.
  intros Hin. unfold Object_prototype_names in Hin.
  repeat (destruct Hin as [<-|Hin]; [destruct m; reflexivity|]).
  destruct Hin.
Qed.

(** X7.  The test [typeof cache[key] !== 'undefined'] also lets through
    the names every object inherits ([toString], [constructor], ...).  A
    message that carries such a name makes it an own property of the cache;
    the schemas allow no additional property, so from then on the domain's
    [set] method fails validation on every call, whatever the other fields
    hold, until a [get] replaces the cache: the object a [get] builds has no
    such property. *)
Theorem inherited_name_blocks_set
    {RT : Runtime} (m : set_method) (controlMessage key : string)
    (props : list (string * value)) (v : value) (w : world) :
  JSON_parse (replace_quotes controlMessage) = Some (VObj props) ->
  prop_get props key = Some v ->
  ~ In "__proto__" (props.*1) ->
  In key Object_prototype_names ->
  cached (domain_of m) w !! key = None ->
  exists w',
    updateControl (topic (domain_of m)) controlMessage w
    = (Ret (control_data w'), w')
    /\ cached (domain_of m) w' !! key = Some v
    /\ (forall modbusClient,
          run_set m modbusClient w'
          = (Throw (ThrownString (error_text m)),
             add_console "Validate errors:" w'))
    /\ forall first second, decode m first second !! key = None.
Proof.
  intros P G Hproto Hin Hnone.
  set (d := domain_of m) in *.
  set (keys := remove_dups (props.*1)).
  assert (~ In "__proto__" keys) as Hproto'.
  { intros H. apply Hproto. apply list_elem_of_In.
    apply list_elem_of_In in H. exact (proj1 (elem_of_remove_dups _ _) H). }
  destruct (merge_all_plain props keys (cached d w) Hproto') as [o' Ho'].
  exists (set_cached d o' w).
  assert (In key keys) as Hkey.
  { apply list_elem_of_In. apply (proj2 (elem_of_remove_dups _ _)).
    apply list_elem_of_In. exact (prop_get_In props key v G). }
  assert (o' !! key = Some v) as Hv.
  { apply (merge_all_creates props keys (cached d w) o' key v Ho').
    - unfold keys. apply NoDup_remove_dups.
    - exact Hkey.
    - unfold has_field. rewrite Hnone. unfold inherited.
      apply existsb_exists. exists key. split; [exact Hin|apply String.eqb_refl].
    - intros ->. exact (Hproto' Hkey).
    - exact G. }
  split; [|split; [|split]].
  - apply (updateControl_parsed _ _ w _ (VObj props) props P eq_refl).
    apply (forEach_merge _ _ props); [reflexivity|exact Ho'].
  - rewrite cached_set_cached. exact Hv.
  - intros modbusClient. apply run_set_invalid.
    rewrite cache_of_domain. fold d. rewrite cached_set_cached.
    apply (validate_undeclared _ _ key v); [destruct m; reflexivity|exact Hv|].
    apply inherited_undeclared. exact Hin.
  - intros first second. apply decode_drops_inherited. exact Hin.
Qed.

Lemma inherited_name_blocks_set_witness :
  exists w',
    updateControl "touCharging" "{'toString': 1}" Extended.initial
    = (Ret (control_data w'), w')
    /\ touChargingValues w' !! "toString" = Some (num 1)
    /\ (forall modbusClient,
          Extended.setTouCharging modbusClient w'
          = (Throw (ThrownString "Error validating setTouCharging"),
             add_console "Validate errors:" w'))
    /\ forall first second,
         decode ExtendedCharging first second !! "toString" = None.
Proof.
  apply (inherited_name_blocks_set ExtendedCharging "{'toString': 1}" "toString"
           [("toString", num 1)] (num 1) Extended.initial).
  - vm_compute. reflexivity.
  - vm_compute. reflexivity.
  - simpl. intros [H|H]; [discriminate H|exact H].
  - simpl. tauto.
  - vm_compute. reflexivity.
Defined.

(** ** Commands that are none *)

(** X8.  [sendCommand] acts only on a text that parses to an object whose
    [command] is one of the five names.  On any other text (no JSON, a JSON
    value that is no object, an object without [command] or with a
    [command] that is no string or no known name) it does not return, and
    the caches, the mutex, the call log and the console are as before: no
    line is logged and no call reaches the channel. *)
Theorem only_known_commands_run
    {RT : Runtime}
    (setTouCharging setTouDischarging : ModbusRTU -> M unit)
    (getTouCharging getTouDischarging : ModbusRTU -> M obj)
    (modbusClient : ModbusRTU) (commandString : string) (w : world) :
  (forall props name,
     JSON_parse commandString = Some (VObj props) ->
     prop_get props "command" = Some (VStr name) ->
     ~ In name known_commands) ->
  let run := Shared.sendCommand setTouCharging setTouDischarging
                                getTouCharging getTouDischarging
                                modbusClient commandString w in
  snd run = w /\ forall reply, fst run <> Ret reply.
Proof.
  intros H. cbv zeta.
  unfold Shared.sendCommand, bind, lift_option.
  destruct (JSON_parse commandString) as [command|] eqn:P;
    [|split; [reflexivity|discriminate]].
  assert (forall name : value,
            snd (match ToString name with
                 | Some text => @throw (option ControlData)
                                  (ThrownString ("Unknown command: " ++ text))
                 | None => out_of_model
                 end w) = w
            /\ forall reply,
                 fst (match ToString name with
                      | Some text => @throw (option ControlData)
                                       (ThrownString ("Unknown command: " ++ text))
                      | None => out_of_model
                      end w) <> Ret reply) as U.
  { intros name. destruct (ToString name); split; try reflexivity; discriminate. }
  destruct command as [| |b|q| |s|elems|props|]; cbn [member ret throw];
    try (split; [reflexivity|discriminate]);
    try exact (U VUndef).
  destruct (prop_get props "command") as [name|] eqn:G;
    cbn [default from_option id]; [|exact (U VUndef)].
  destruct name as [| |b|q| |text|elems|props'|];
    try (match goal with |- context [ToString ?n] => exact (U n) end).
  specialize (H props text eq_refl G).
  assert (forall c, In c known_commands -> str_eq text c = false) as Hne.
  { intros c Hc. apply String.eqb_neq. intros ->. exact (H Hc). }
  rewrite !Hne by (simpl; tauto). exact (U (VStr text)).
Qed.

Lemma only_known_commands_run_witness :
  let run := Extended.sendCommand zero_device (replace_quotes "{'cmd': 'getTime'}")
                                  Extended.initial in
  snd run = Extended.initial /\ forall reply, fst run <> Ret reply.
Proof.
  apply (only_known_commands_run
           Extended.setTouCharging Extended.setTouDischarging
           Extended.getTouCharging Extended.getTouDischarging
           zero_device (replace_quotes "{'cmd': 'getTime'}") Extended.initial).
  intros props name P G. vm_compute in P. injection P as <-.
  vm_compute in G. discriminate G.
Defined.

(** ** The sign of a two-word field *)

Lemma land_shifted_word (h lo : Z) :
  0 <= lo < 65536 -> Z.land (Z.shiftl h 16) lo = 0.
Proof.
  intros Hlo. apply Z.bits_inj'. intros n Hn.
  rewrite Z.land_spec, Z.bits_0.
  destruct (Z.lt_ge_cases n 16) as [L|G].
  - rewrite Z.shiftl_spec_low by exact L. reflexivity.
  - assert (Z.testbit lo n = false) as ->; [|apply andb_false_r].
    destruct (Z.eq_dec lo 0) as [->|Hz]; [apply Z.bits_0|].
    apply Z.bits_above_log2; [lia|].
    apply Z.lt_le_trans with 16; [|exact G].
    apply Z.log2_lt_pow2; lia.
Qed.

Lemma lor_shifted_word (h lo : Z) :
  0 <= lo < 65536 -> Z.lor (Z.shiftl h 16) lo = h * 65536 + lo.
Proof.
  intros Hlo.
  pose proof (Z.add_lor_land (Z.shiftl h 16) lo) as A.
  rewrite (land_shifted_word h lo Hlo), Z.add_0_r in A.
  rewrite A, Z.shiftl_mul_pow2 by lia. reflexivity.
Qed.

(** [hi << 16 | lo] on two 16-bit words is the 32-bit two's complement
    number they spell. *)
Lemma combine32_signed (hi lo : Z) :
  0 <= hi < 65536 -> 0 <= lo < 65536 ->
  combine32 (Some hi) (Some lo)
  = if (hi <? 32768)%Z then hi * 65536 + lo else hi * 65536 + lo - 2 ^ 32.
Proof.
  intros Hhi Hlo. unfold combine32, word_int32, shl, bor.
  rewrite (wrap32_small hi), (wrap32_small lo) by lia. change (16 mod 32) with 16.
  rewrite Z.shiftl_mul_pow2 by lia. change (2 ^ 16) with 65536.
  destruct (Z.ltb_spec hi 32768) as [L|G].
  - rewrite wrap32_small by lia.
    rewrite <- (lor_shifted_word hi lo Hlo), Z.shiftl_mul_pow2 by lia.
    reflexivity.
  - assert (wrap32 (hi * 65536) = (hi - 65536) * 65536) as ->.
    { unfold wrap32.
      replace (hi * 65536 + 2 ^ 31) with (hi * 65536 - 2 ^ 31 + 1 * 2 ^ 32) by lia.
      rewrite Z.mod_add by lia. rewrite Z.mod_small by lia. lia. }
    replace (hi * 65536 + lo - 2 ^ 32) with ((hi - 65536) * 65536 + lo) by lia.
    rewrite <- (lor_shifted_word (hi - 65536) lo Hlo), Z.shiftl_mul_pow2 by lia.
    reflexivity.
Qed.

(** X9.  The 32-bit fields are signed.  In every two-word field of the
    sensor snapshot the two 16-bit words are combined by the 32-bit
    operators of the language: with a high word below 0x8000 the field is
    [(hi * 65536 + lo) / 10], and from 0x8000 on it is that number less 2^32,
    over ten: a negative reading. *)
Theorem two_word_field_is_signed
    (field : string) (first : nat) (data : list Z) (hi lo : Z) :
  (field, first) ∈ two_word_fields ->
  data !! first = Some hi -> data !! S first = Some lo ->
  0 <= hi < 65536 -> 0 <= lo < 65536 ->
  exists q,
    prop_get (parseInputRegisters data) field = Some (VNum q)
    /\ (q == inject_Z (if (hi <? 32768)%Z then hi * 65536 + lo
                       else hi * 65536 + lo - 2 ^ 32) / 10)%Q
    /\ (32768 <= hi -> (q < 0)%Q).
Proof.
  intros Hin Eh El Hhi Hlo.
  rewrite (two_word_field_decode field first data Hin), Eh, El.
  unfold combine32_div10, div10. rewrite (combine32_signed hi lo Hhi Hlo).
  eexists. split; [reflexivity|]. split; [apply Qred_correct|].
  intros G. rewrite Qred_correct.
  destruct (Z.ltb_spec hi 32768) as [L|_]; [lia|].
  unfold Qlt, Qdiv, Qmult, Qinv, inject_Z. cbn. lia.
Qed.

Lemma two_word_field_is_signed_witness :
  exists q,
    prop_get (parseInputRegisters (window_at 50 0xFFFF 0xFFFF)) "eImportTotal"
    = Some (VNum q)
    /\ (q == inject_Z (-1) / 10)%Q
    /\ (32768 <= 0xFFFF -> (q < 0)%Q).
Proof.
  apply (two_word_field_is_signed "eImportTotal" 50 (window_at 50 0xFFFF 0xFFFF)
           0xFFFF 0xFFFF).
  - apply list_elem_of_In. simpl. tauto.
  - reflexivity.
  - reflexivity.
  - lia.
  - lia.
Defined.

(** ** Status and error codes *)

Lemma enum_lookup_unknown (table : list (Z * string)) (code : Z) :
  ~ In code (map fst table) -> enum_lookup table (Some code) = num code.
Proof.
  unfold enum_lookup. induction table as [|[c text] rest IH]; intros H;
    [reflexivity|].
  cbn [List.find fst]. destruct (Z.eqb_spec c code) as [->|_].
  - exfalso. apply H. left. reflexivity.
  - apply IH. intros Hin. apply H. right. exact Hin.
Qed.

Lemma enum_lookup_known (table : list (Z * string)) (code : Z) (text : string) :
  List.NoDup (map fst table) -> In (code, text) table ->
  enum_lookup table (Some code) = VStr text.
Proof.
  unfold enum_lookup. induction table as [|[c t] rest IH]; intros ND Hin;
    [destruct Hin|].
  cbn [List.find fst]. inversion ND as [|? ? Hnotin ND']; subst.
  destruct Hin as [[= -> ->]|Hin].
  - rewrite Z.eqb_refl. reflexivity.
  - destruct (Z.eqb_spec c code) as [->|_].
    + exfalso. apply Hnotin. apply (in_map fst _ _ Hin).
    + exact (IH ND' Hin).
Qed.

Lemma enum_tables_NoDup :
  List.NoDup (map fst statusMap) /\ List.NoDup (map fst errorMap).
Proof.
  split; cbn; repeat (constructor; [cbn; lia|]); constructor.
Qed.

(** X10.  Status and error codes.  A code of one of the two tables is shown
    as the table's text; any other code is passed through as the number it
    is.  The error table has no entry for 0, so the register value 0 (no
    error) is reported as the number 0, not as a text. *)
Theorem unknown_codes_pass_through (data : list Z) (status error : Z) :
  data !! 0%nat = Some status -> data !! 40%nat = Some error ->
  let snapshot := parseInputRegisters data in
  (forall text, In (status, text) statusMap ->
     prop_get snapshot "inverterStatus" = Some (VStr text))
  /\ (~ In status (map fst statusMap) ->
      prop_get snapshot "inverterStatus" = Some (num status))
  /\ (forall text, In (error, text) errorMap ->
        prop_get snapshot "inverterError" = Some (VStr text))
  /\ (~ In error (map fst errorMap) ->
      prop_get snapshot "inverterError" = Some (num error))
  /\ ~ In 0 (map fst errorMap).
Proof.
  intros Es Ee snapshot. destruct enum_tables_NoDup as [NS NE].
  assert (prop_get snapshot "inverterStatus" = Some (enum_lookup statusMap (Some status)))
    as -> by (subst snapshot; rewrite <- Es; reflexivity).
  assert (prop_get snapshot "inverterError" = Some (enum_lookup errorMap (Some error)))
    as -> by (subst snapshot; rewrite <- Ee; reflexivity).
  split; [intros text H; f_equal; exact (enum_lookup_known _ _ _ NS H)|].
  split; [intros H; f_equal; exact (enum_lookup_unknown _ _ H)|].
  split; [intros text H; f_equal; exact (enum_lookup_known _ _ _ NE H)|].
  split; [intros H; f_equal; exact (enum_lookup_unknown _ _ H)|].
  cbn. intros H. decompose [or] H; discriminate || assumption.
Qed.

Lemma unknown_codes_pass_through_witness :
  let snapshot := parseInputRegisters (window_at 0 99 0) in
  prop_get snapshot "inverterStatus" = Some (num 99)
  /\ prop_get snapshot "inverterError" = Some (num 0).
Proof.
  destruct (unknown_codes_pass_through (window_at 0 99 0) 99 0 eq_refl eq_refl)
    as (_ & S & _ & E & _).
  split.
  - apply S. cbn. intros H. decompose [or] H; discriminate || assumption.
  - apply E. cbn. intros H. decompose [or] H; discriminate || assumption.
Defined.

(** ** Words read and written back *)

Lemma word_unpack_pack (word : Z) :
  0 <= word < 65536 ->
  packHM (num (unpackHour (Some word))) (num (unpackMinute (Some word)))
  = Some (num word)
  /\ unpackHour (Some word) = word / 256
  /\ unpackMinute (Some word) = word mod 256.
Proof.
  intros Hw.
  assert (unpackHour (Some word) = word / 256) as Eh.
  { unfold unpackHour, word_int32, sar. rewrite wrap32_small by lia.
    change (8 mod 32) with 8. rewrite Z.shiftr_div_pow2 by lia. reflexivity. }
  assert (unpackMinute (Some word) = word mod 256) as Em.
  { unfold unpackMinute, word_int32, band. rewrite wrap32_small by lia.
    change 255 with (Z.ones 8). rewrite Z.land_ones by lia. reflexivity. }
  pose proof (Z.div_mod word 256 ltac:(lia)) as D.
  pose proof (Z.mod_pos_bound word 256 ltac:(lia)) as B.
  assert (0 <= word / 256 < 256) as Bh
    by (split; [apply Z.div_pos; lia | apply Z.div_lt_upper_bound; lia]).
  split; [|split; assumption].
  rewrite Eh, Em.
  destruct (pack_unpack_bytes (word / 256) (word mod 256) Bh B) as (P & _ & _).
  rewrite P. do 2 f_equal. rewrite lor_shifted_byte by exact B. lia.
Qed.



(** ** A switch that is not exactly ON *)

(** X12.  The switch pattern [ON|OFF] is not anchored: validation accepts
    every text in which ON or OFF occurs.  The word written for a switch is 1
    only for the text ON itself; any other accepted text, also one that
    contains ON, is written as 0. *)
Theorem switch_is_on_only_when_exact
    (modbusClient : ModbusRTU) (w : world) (key text : string) (place : nat * nat) :
  let v := touChargingValues w in
  mutex w = false -> acknowledges modbusClient ->
  validate Extended.touCharging_schema v = true ->
  In (key, place) charging_switches ->
  get v key = VStr text -> text <> "ON" ->
  (occurs "ON" text || occurs "OFF" text = true)
  /\ exists groups,
       calls (snd (Extended.setTouCharging modbusClient w))
       = (calls w ++ map write_call groups)%list
       /\ map fst groups = [ 1090; 1100 ]
       /\ exists dataAddress values,
            groups !! fst place = Some (dataAddress, values)
            /\ values !! snd place = Some (num 0).
Proof.
  intros v Hm Hack V Hin G Hne.
  assert (on_word (get v key) = num 0) as W.
  { rewrite G. cbn. apply String.eqb_neq in Hne. unfold str_eq. rewrite Hne.
    reflexivity. }
  split.
  - assert (In key (required Extended.touCharging_schema)
            /\ In (key, Extended.switch) (properties Extended.touCharging_schema))
      as [Hr Hp].
    { unfold charging_switches in Hin.
      repeat (destruct Hin as [[= <- <-]|Hin]; [split; cbn; tauto|]).
      destruct Hin. }
    destruct (get_string _ v key _ V Hp Hr) as (s & E & O).
    rewrite G in E. injection E as <-. cbn in O.
    rewrite orb_false_r in O. exact O.
  - destruct (groups_of_valid ExtendedCharging v V) as (groups & Gr & O).
    pose proof (run_set_valid ExtendedCharging modbusClient w V) as R.
    cbn [run_set cache_of] in R. fold v in R. rewrite Gr in R.
    destruct (write_all_acknowledged modbusClient groups w Hm Hack) as (_ & C & _).
    exists groups. rewrite R. split; [exact C|]. split; [exact O|].
    cbn [groups_of] in Gr.
    destruct (mapM id (Extended.window_words v)) as [ws|] eqn:Ws; [|discriminate].
    injection Gr as <-.
    unfold charging_switches in Hin.
    destruct Hin as [[= <- <-]|Hin].
    { eexists _, _. split; [reflexivity|]. cbn. rewrite W. reflexivity. }
    apply mapM_Some in Ws.
    repeat (destruct Hin as [[= <- <-]|Hin];
            [ eexists _, _; split; [reflexivity|]; cbn [snd];
              match goal with
              | |- ws !! ?i = _ =>
                  destruct (Forall2_lookup_l _ _ _ i _ Ws eq_refl) as (x & Hx & Ex)
              end;
              rewrite Hx; cbn in Ex; congruence | ]).
    destruct Hin.
Qed.

Lemma switch_is_on_only_when_exact_witness :
  (occurs "ON" "ON " || occurs "OFF" "ON " = true)
  /\ exists groups,
       calls (snd (Extended.setTouCharging zero_device loosely_on))
       = (calls loosely_on ++ map write_call groups)%list
       /\ map fst groups = [ 1090; 1100 ]
       /\ exists dataAddress values,
            groups !! 0%nat = Some (dataAddress, values)
            /\ values !! 2%nat = Some (num 0).
Proof.
  apply (switch_is_on_only_when_exact zero_device loosely_on "ac" "ON " (0, 2)%nat).
  - reflexivity.
  - exact zero_device_acknowledges.
  - vm_compute. reflexivity.
  - simpl. tauto.
  - vm_compute. reflexivity.
  - discriminate.
Defined.

(** ** The mutex after any public method *)

Section KeepsFree.

Lemma keeps_free_ret {A} (a : A) : keeps_free (ret a).
Proof. intros w H. exact H. Qed.

Lemma keeps_free_throw {A} (e : thrown) : keeps_free (@throw A e).
Proof. intros w H. exact H. Qed.

Lemma keeps_free_out_of_model {A} : keeps_free (@out_of_model A).
Proof. intros w H. exact H. Qed.

Lemma keeps_free_bind {A B} (m : M A) (k : A -> M B) :
  keeps_free m -> (forall a, keeps_free (k a)) -> keeps_free (bind m k).
Proof.
  intros Hm Hk w H. unfold bind. specialize (Hm w H).
  destruct (m w) as [[a| e |] w1]; cbn [snd] in *; [|exact Hm|exact Hm].
  exact (Hk a w1 Hm).
Qed.

Lemma keeps_free_console_log (line : string) : keeps_free (console_log line).
Proof. intros [] H. exact H. Qed.

Lemma keeps_free_get_world : keeps_free get_world.
Proof. intros w H. exact H. Qed.

Lemma keeps_free_set_cached (d : domain) (o : obj) :
  keeps_free (modify (set_cached d o)).
Proof. intros [] H. destruct d; exact H. Qed.

Lemma keeps_free_lift_option {A} (e : thrown) (o : option A) :
  keeps_free (lift_option e o).
Proof. destruct o; [apply keeps_free_ret|apply keeps_free_throw]. Qed.

Variable modbusClient : ModbusRTU.

Lemma keeps_free_read_holding (dataAddress len : Z) :
  keeps_free (readHoldingRegisters modbusClient dataAddress len).
Proof. intros w H. exact (guarded_call_releases modbusClient _ w H). Qed.

Lemma keeps_free_read_input (dataAddress len : Z) :
  keeps_free (readInputRegisters modbusClient dataAddress len).
Proof. intros w H. exact (guarded_call_releases modbusClient _ w H). Qed.

Lemma keeps_free_run_set (m : set_method) : keeps_free (run_set m modbusClient).
Proof. intros w H. exact (run_set_releases m modbusClient w H). Qed.

Lemma keeps_free_run_get (m : set_method) : keeps_free (run_get m modbusClient).
Proof.
  destruct m; cbn [run_get];
    [ unfold Extended.getTouCharging | unfold Extended.getTouDischarging
    | unfold Packed.getTouCharging | unfold Packed.getTouDischarging
    | unfold Tenths.getTouCharging | unfold Tenths.getTouDischarging ];
    (apply keeps_free_bind; [apply keeps_free_read_holding|intros data1]);
    (apply keeps_free_bind; [apply keeps_free_read_holding|intros data2]);
    (apply keeps_free_bind; [|intros _; apply keeps_free_ret]).
  1, 3, 5: apply (keeps_free_set_cached TouCharging).
  all: apply (keeps_free_set_cached TouDischarging).
Qed.

Lemma keeps_free_getTime : keeps_free (getTime modbusClient).
Proof.
  unfold getTime.
  apply keeps_free_bind; [apply keeps_free_read_holding|intros data].
  apply keeps_free_ret.
Qed.

Lemma keeps_free_getControlValues (r : revision) {RT : Runtime} :
  keeps_free (getControlValues_of r modbusClient).
Proof.
  pose proof (keeps_free_run_get (charging r)) as C.
  pose proof (keeps_free_run_get (discharging r)) as D.
  destruct r; cbn [getControlValues_of charging discharging run_get] in *;
    [ unfold Packed.getControlValues | unfold Tenths.getControlValues
    | unfold Extended.getControlValues ];
    unfold Shared.getControlValues;
    (apply keeps_free_bind; [exact C|intros c]);
    (apply keeps_free_bind; [exact D|intros d]);
    apply keeps_free_ret.
Qed.

Lemma keeps_free_getSensorData (r : revision) {RT : Runtime} :
  keeps_free (getSensorData_of r modbusClient).
Proof.
  destruct r; cbn [getSensorData_of];
    [ unfold getSensorData | unfold Tenths.getSensorData | unfold getSensorData ];
    repeat (apply keeps_free_bind; [apply keeps_free_read_input|intros ?]);
    apply keeps_free_ret.
Qed.

Lemma keeps_free_sendCommand (r : revision) {RT : Runtime} (commandString : string) :
  keeps_free (sendCommand_of r modbusClient commandString).
Proof.
  pose proof (keeps_free_run_set (charging r)) as SC.
  pose proof (keeps_free_run_set (discharging r)) as SD.
  pose proof (keeps_free_run_get (charging r)) as GC.
  pose proof (keeps_free_run_get (discharging r)) as GD.
  destruct r; cbn [sendCommand_of charging discharging run_set run_get] in *;
    [ unfold Packed.sendCommand | unfold Tenths.sendCommand
    | unfold Extended.sendCommand ];
    unfold Shared.sendCommand;
    (apply keeps_free_bind; [apply keeps_free_lift_option|intros command]);
    (apply keeps_free_bind; [apply keeps_free_lift_option|intros name]);
    (assert (keeps_free
               (match ToString name with
                | Some text => @throw (option ControlData)
                                 (ThrownString ("Unknown command: " ++ text))
                | None => out_of_model
                end)) as U
       by (destruct (ToString name);
           [apply keeps_free_throw|apply keeps_free_out_of_model]));
    (destruct name; try exact U);
    repeat (match goal with
            | |- keeps_free (if ?b then _ else _) => destruct b
            end);
    try exact U;
    (apply keeps_free_bind; [apply keeps_free_console_log|intros _]);
    (apply keeps_free_bind;
     [ first [exact SC | exact SD | exact GC | exact GD | apply keeps_free_getTime]
     | intros ?; apply keeps_free_ret ]).
Qed.

End KeepsFree.

Lemma updateControl_mutex {RT : Runtime} (subTopic controlMessage : string)
      (w : world) :
  mutex (snd (updateControl subTopic controlMessage w)) = mutex w.
Proof.
  rewrite updateControl_run.
  destruct (JSON_parse (replace_quotes controlMessage)) as [control|];
    [|destruct w; reflexivity].
  destruct (Object_keys control) as [keys|]; [|destruct w; reflexivity].
  pose proof (forEach_merge_frame subTopic control keys w) as F. cbv zeta in F.
  destruct F as (_ & _ & M & _).
  destruct (forEach keys (merge_key subTopic control) w) as [[[]| e |] w'];
    cbn [fst snd] in *; exact M.
Qed.

(** X13.  Every public method releases the mutex.  Whatever requests are
    served one after the other ([updateControl], [getControlValues],
    [getSensorData], [sendCommand] with any text), on whatever device and in
    whichever revision, and whether they return or throw, the mutex is free
    after each of them: no request leaves the lock held for the next. *)
Theorem requests_leave_mutex_free
    {RT : Runtime} (r : revision) (modbusClient : ModbusRTU)
    (requests : list request) (w : world) :
  mutex w = false ->
  mutex (serve_all r modbusClient requests w) = false.
Proof.
  unfold serve_all. revert w.
  induction requests as [|q rest IH]; intros w Hm; [exact Hm|].
  cbn [fold_left]. apply IH.
  destruct q as [subTopic controlMessage| | |commandString]; cbn [serve].
  - rewrite updateControl_mutex. exact Hm.
  - exact (keeps_free_getControlValues modbusClient r w Hm).
  - exact (keeps_free_getSensorData modbusClient r w Hm).
  - exact (keeps_free_sendCommand modbusClient r commandString w Hm).
Qed.

Lemma requests_leave_mutex_free_witness :
  mutex (serve_all ExtendedRevision dead_device mixed_requests Extended.initial)
  = false.
Proof.
  apply (requests_leave_mutex_free ExtendedRevision dead_device mixed_requests
                                   Extended.initial).
  reflexivity.
Defined.

(** ** Both domains at once *)

Lemma getControlValues_of_run {RT : Runtime} (r : revision) (modbusClient : ModbusRTU) :
  getControlValues_of r modbusClient
  = (let* charged := run_get (charging r) modbusClient in
     let* discharged := run_get (discharging r) modbusClient in
     ret [ {| subTopic := "touCharging"; values := charged |};
           {| subTopic := "touDischarging"; values := discharged |} ]).
Proof. destruct r; reflexivity. Qed.




(** On that device the third answer is the last: the charging cache is
    refreshed, the discharging cache is not, and the call throws. *)
Example getControlValues_stops_half_way :
  let run := Extended.getControlValues three_answers_device Extended.initial in
  fst run = Throw (ChannelError "Timed out")
  /\ touChargingValues (snd run) !! "chargePower" = Some (num 80)
  /\ touDischargingValues (snd run) = Extended.touDischargingValues_default
  /\ calls (snd run) = control_reads ExtendedRevision.
Proof.
  cbv zeta. split; [vm_compute; reflexivity|].
  split; [vm_compute; reflexivity|].
  split; vm_compute; reflexivity.
Qed.

(** ** The sensor snapshot read in one window and in four *)

Section Snapshot.
Variables (input holding : Z -> Z).

Lemma getSensorData_registers (w : world) :
  mutex w = false ->
  fst (getSensorData (register_device input holding) w)
  = Ret (parseInputRegisters (map input (seqZ 0 90))).
Proof.
  intros Hm. unfold getSensorData, bind.
  rewrite (readInputRegisters_run _ _ _ _ Hm). reflexivity.
Qed.

Lemma Tenths_getSensorData_registers (w : world) :
  mutex w = false ->
  fst (Tenths.getSensorData (register_device input holding) w)
  = Ret (Tenths.parseInputRegisters1 (map input (seqZ 0 26))
         ++ Tenths.parseInputRegisters2 (map input (seqZ 26 25)) 26
                                        (map input (seqZ 51 25)) 51
         ++ Tenths.parseInputRegisters4 (map input (seqZ 76 15)) 76)%list.
Proof.
  intros Hm. unfold Tenths.getSensorData.
  destruct w as [tc td mu cs co]. cbn in Hm. subst mu.
  cbv zeta. unfold bind.
  rewrite readInputRegisters_run by reflexivity. cbn [register_device].
  rewrite readInputRegisters_run by reflexivity. cbn [register_device].
  rewrite readInputRegisters_run by reflexivity. cbn [register_device].
  rewrite readInputRegisters_run by reflexivity. cbn [register_device].
  reflexivity.
Qed.

End Snapshot.

(** X15.  The tenths revision reads the input registers in four windows
    (0..25, 26..50, 51..75, 76..90) where the other two read one window of
    90.  On the same registers every field of the one-window snapshot but
    [eImportTotal] has the same value in the four-window snapshot: the
    offsets of the three parsers address the registers the one-window
    parser addresses. *)
Theorem tenths_snapshot_agrees
    (input holding : Z -> Z) (w w' : world) (field : string) :
  mutex w = false -> mutex w' = false ->
  In field sensor_fields -> field <> "eImportTotal" ->
  exists chunked whole,
    fst (Tenths.getSensorData (register_device input holding) w) = Ret chunked
    /\ fst (getSensorData (register_device input holding) w') = Ret whole
    /\ prop_get chunked field = prop_get whole field.
Proof.
  intros Hm Hm' Hin Hne.
  eexists _, _.
  split; [exact (Tenths_getSensorData_registers input holding w Hm)|].
  split; [exact (getSensorData_registers input holding w' Hm')|].
  unfold sensor_fields in Hin. cbn in Hin.
  repeat (destruct Hin as [<-|Hin]; [try reflexivity; contradiction|]).
  destruct Hin.
Qed.

Lemma tenths_snapshot_agrees_witness :
  exists chunked whole,
    fst (Tenths.getSensorData (register_device (fun address => address)
                                               (fun _ => 0)) Tenths.initial)
    = Ret chunked
    /\ fst (getSensorData (register_device (fun address => address)
                                           (fun _ => 0)) Extended.initial)
       = Ret whole
    /\ prop_get chunked "epvTotal" = prop_get whole "epvTotal".
Proof.
  apply (tenths_snapshot_agrees (fun address => address) (fun _ => 0)
           Tenths.initial Extended.initial "epvTotal").
  - reflexivity.
  - reflexivity.
  - unfold sensor_fields. simpl. tauto.
  - discriminate.
Defined.

(** ** Requests that only read *)

Section ReadsOnly.

Lemma reads_only_same {A} (m : M A) :
  (forall w, calls (snd (m w)) = calls w) -> reads_only m.
Proof.
  intros H w. exists []. rewrite app_nil_r. split; [apply H|reflexivity].
Qed.

Lemma reads_only_ret {A} (a : A) : reads_only (ret a).
Proof. apply reads_only_same. reflexivity. Qed.

Lemma reads_only_throw {A} (e : thrown) : reads_only (@throw A e).
Proof. apply reads_only_same. reflexivity. Qed.

Lemma reads_only_out_of_model {A} : reads_only (@out_of_model A).
Proof. apply reads_only_same. reflexivity. Qed.

Lemma reads_only_console_log (line : string) : reads_only (console_log line).
Proof. apply reads_only_same. intros []. reflexivity. Qed.

Lemma reads_only_set_cached (d : domain) (o : obj) :
  reads_only (modify (set_cached d o)).
Proof. apply reads_only_same. intros []. destruct d; reflexivity. Qed.

Lemma reads_only_lift_option {A} (e : thrown) (o : option A) :
  reads_only (lift_option e o).
Proof. destruct o; [apply reads_only_ret|apply reads_only_throw]. Qed.

Lemma reads_only_bind {A B} (m : M A) (k : A -> M B) :
  reads_only m -> (forall a, reads_only (k a)) -> reads_only (bind m k).
Proof.
  intros Hm Hk w. unfold bind. destruct (Hm w) as (new & C & W).
  destruct (m w) as [[a| e |] w1]; cbn [snd] in *; [|eauto|eauto].
  destruct (Hk a w1) as (new' & C' & W').
  exists (new ++ new')%list. rewrite C', C, <- app_assoc. split; [reflexivity|].
  unfold write_addresses in *. rewrite omap_app, W, W'. reflexivity.
Qed.

Variable modbusClient : ModbusRTU.

Lemma reads_only_guarded (c : call) :
  write_addresses [c] = [] ->
  reads_only (acquire ;; try_finally (channel_call modbusClient c) release).
Proof.
  intros Hc w. destruct (mutex w) eqn:Hm.
  - rewrite (guarded_call_held modbusClient c w Hm).
    exists []. rewrite app_nil_r. split; reflexivity.
  - rewrite (guarded_call_run modbusClient c w Hm).
    exists [c]. split; [|exact Hc].
    destruct (modbusClient (calls w) c); destruct w; reflexivity.
Qed.

Lemma reads_only_read_holding (dataAddress len : Z) :
  reads_only (readHoldingRegisters modbusClient dataAddress len).
Proof. apply reads_only_guarded. reflexivity. Qed.

Lemma reads_only_read_input (dataAddress len : Z) :
  reads_only (readInputRegisters modbusClient dataAddress len).
Proof. apply reads_only_guarded. reflexivity. Qed.

Lemma reads_only_run_get (m : set_method) : reads_only (run_get m modbusClient).
Proof.
  destruct m; cbn [run_get];
    [ unfold Extended.getTouCharging | unfold Extended.getTouDischarging
    | unfold Packed.getTouCharging | unfold Packed.getTouDischarging
    | unfold Tenths.getTouCharging | unfold Tenths.getTouDischarging ];
    (apply reads_only_bind; [apply reads_only_read_holding|intros data1]);
    (apply reads_only_bind; [apply reads_only_read_holding|intros data2]);
    (apply reads_only_bind; [|intros _; apply reads_only_ret]).
  1, 3, 5: apply (reads_only_set_cached TouCharging).
  all: apply (reads_only_set_cached TouDischarging).
Qed.

Lemma reads_only_getTime : reads_only (getTime modbusClient).
Proof.
  unfold getTime.
  apply reads_only_bind; [apply reads_only_read_holding|intros data].
  apply reads_only_ret.
Qed.

Lemma reads_only_getControlValues (r : revision) {RT : Runtime} :
  reads_only (getControlValues_of r modbusClient).
Proof.
  rewrite getControlValues_of_run.
  apply reads_only_bind; [apply reads_only_run_get|intros c].
  apply reads_only_bind; [apply reads_only_run_get|intros d].
  apply reads_only_ret.
Qed.

Lemma reads_only_getSensorData (r : revision) {RT : Runtime} :
  reads_only (getSensorData_of r modbusClient).
Proof.
  destruct r; cbn [getSensorData_of];
    [ unfold getSensorData | unfold Tenths.getSensorData | unfold getSensorData ];
    repeat (apply reads_only_bind; [apply reads_only_read_input|intros ?]);
    apply reads_only_ret.
Qed.

Lemma reads_only_bind_option {A B} (e : thrown) (o : option A) (k : A -> M B) :
  (forall a, o = Some a -> reads_only (k a)) ->
  reads_only (bind (lift_option e o) k).
Proof.
  intros H. destruct o as [a|].
  - exact (H a eq_refl).
  - apply reads_only_same. reflexivity.
Qed.

Lemma member_string (command : value) (name : string) :
  member command "command" = Some (VStr name) ->
  exists props, command = VObj props /\ prop_get props "command" = Some (VStr name).
Proof.
  destruct command; cbn; intros H; try discriminate H.
  destruct (prop_get props "command") as [v|] eqn:G; [|discriminate H].
  cbn in H. injection H as ->. eauto.
Qed.

Lemma reads_only_sendCommand (r : revision) {RT : Runtime} (commandString : string) :
  asks_to_write (SendCommand commandString) = false ->
  reads_only (sendCommand_of r modbusClient commandString).
Proof.
  intros H.
  pose proof (reads_only_run_get (charging r)) as GC.
  pose proof (reads_only_run_get (discharging r)) as GD.
  cbn [asks_to_write] in H.
  assert (forall name : value,
            reads_only
              (match ToString name with
               | Some text => @throw (option ControlData)
                                (ThrownString ("Unknown command: " ++ text))
               | None => out_of_model
               end)) as U
    by (intros name; destruct (ToString name);
        [apply reads_only_throw|apply reads_only_out_of_model]).
  destruct r; cbn [sendCommand_of charging discharging run_get] in *;
    [ unfold Packed.sendCommand | unfold Tenths.sendCommand
    | unfold Extended.sendCommand ];
    unfold Shared.sendCommand;
    (apply reads_only_bind_option; intros command P);
    (apply reads_only_bind_option; intros name N);
    (destruct name as [| |b|q| |text|elems|props'|]; try apply U);
    (destruct (member_string command text N) as (props & -> & G));
    rewrite P, G in H; apply orb_false_elim in H as [H1 H2];
    rewrite H1;
    (destruct (str_eq text "getTouCharging");
     [ apply reads_only_bind; [apply reads_only_console_log|intros _];
       apply reads_only_bind; [exact GC|intros ?; apply reads_only_ret] | ]);
    rewrite H2;
    (destruct (str_eq text "getTouDischarging");
     [ apply reads_only_bind; [apply reads_only_console_log|intros _];
       apply reads_only_bind; [exact GD|intros ?; apply reads_only_ret] | ]);
    (destruct (str_eq text "getTime");
     [ apply reads_only_bind; [apply reads_only_console_log|intros _];
       apply reads_only_bind; [apply reads_only_getTime|intros ?; apply reads_only_ret]
     | apply U ]).
Qed.

End ReadsOnly.

(** X16.  Only the two [set] commands write.  Any other request
    ([updateControl], [getControlValues], [getSensorData], [sendCommand] with
    a [get] command or with anything that is no [set] command) adds only
    reads to the call log, in every revision, on every device and from any
    state: reading the inverter never writes a register. *)
Theorem only_set_commands_write
    {RT : Runtime} (r : revision) (modbusClient : ModbusRTU)
    (q : request) (w : world) :
  asks_to_write q = false ->
  exists new,
    calls (serve r modbusClient q w) = (calls w ++ new)%list
    /\ write_addresses new = [].
Proof.
  intros H. destruct q as [subTopic controlMessage| | |commandString]; cbn [serve].
  - exists []. rewrite app_nil_r. split; [|reflexivity].
    rewrite updateControl_run.
    destruct (JSON_parse (replace_quotes controlMessage)) as [control|];
      [|destruct w; reflexivity].
    destruct (Object_keys control) as [keys|]; [|destruct w; reflexivity].
    pose proof (forEach_merge_frame subTopic control keys w) as F. cbv zeta in F.
    destruct F as (_ & C & _).
    destruct (forEach keys (merge_key subTopic control) w) as [[[]| e |] w'];
      cbn [fst snd] in *; exact C.
  - exact (reads_only_getControlValues modbusClient r w).
  - exact (reads_only_getSensorData modbusClient r w).
  - exact (reads_only_sendCommand modbusClient r commandString H w).
Qed.

Lemma only_set_commands_write_witness :
  exists new,
    calls (serve ExtendedRevision zero_device
                 (SendCommand (replace_quotes "{'command': 'getTouCharging'}"))
                 Extended.initial)
    = (calls Extended.initial ++ new)%list
    /\ write_addresses new = [].
Proof.
  apply (only_set_commands_write ExtendedRevision zero_device
           (SendCommand (replace_quotes "{'command': 'getTouCharging'}"))
           Extended.initial).
  vm_compute. reflexivity.
Defined.

(** ** The range of the packed words *)

Lemma Qtrunc_range (q : Q) (n : Z) :
  (0 <= q)%Q -> (q <= inject_Z n)%Q -> 0 <= Qtrunc q <= n.
Proof.
  destruct q as [a d]. unfold Qle, Qtrunc, inject_Z. cbn. intros L U.
  assert (0 <= a) as Ha by lia.
  rewrite Z.quot_div_nonneg by lia. split.
  - apply Z.div_pos; lia.
  - apply Z.div_le_upper_bound; lia.
Qed.

Lemma packHM_range (sch : schema) (v : obj) (hk mk : string) :
  validate sch v = true ->
  In (hk, SNumber 0 23) (properties sch) -> In (mk, SNumber 0 59) (properties sch) ->
  In hk (required sch) -> In mk (required sch) ->
  exists z, packHM (get v hk) (get v mk) = Some (num z) /\ 0 <= z <= 0x173B.
Proof.
  intros V Ph Pm Rh Rm.
  destruct (get_number sch v hk _ _ V Ph Rh) as (qh & Eh & Lh & Uh).
  destruct (get_number sch v mk _ _ V Pm Rm) as (qm & Em & Lm & Um).
  pose proof (Qtrunc_range qh 23 Lh Uh) as Bh.
  pose proof (Qtrunc_range qm 59 Lm Um) as Bm.
  rewrite Eh, Em. unfold packHM. cbn [ToInt32 mbind option_bind].
  unfold ToInt32_Q. rewrite !wrap32_small by lia.
  unfold shl, bor. change (8 mod 32) with 8.
  rewrite Z.shiftl_mul_pow2 by lia. change (2 ^ 8) with 256.
  rewrite wrap32_small by lia.
  assert (Qtrunc qh * 256 = Z.shiftl (Qtrunc qh) 8) as ->
    by (rewrite Z.shiftl_mul_pow2 by lia; reflexivity).
  rewrite lor_shifted_byte by lia.
  eexists. split; [reflexivity|]. lia.
Qed.

Lemma packH_range (sch : schema) (v : obj) (hk : string) :
  validate sch v = true ->
  In (hk, SNumber 0 23) (properties sch) -> In hk (required sch) ->
  exists z, packH (get v hk) = Some (num z) /\ 0 <= z <= 0x173B.
Proof.
  intros V Ph Rh.
  destruct (get_number sch v hk _ _ V Ph Rh) as (qh & Eh & Lh & Uh).
  pose proof (Qtrunc_range qh 23 Lh Uh) as Bh.
  rewrite Eh. unfold packH. cbn [ToInt32 mbind option_bind].
  unfold ToInt32_Q. rewrite wrap32_small by lia.
  unfold shl. change (8 mod 32) with 8.
  rewrite Z.shiftl_mul_pow2 by lia. change (2 ^ 8) with 256.
  rewrite wrap32_small by lia.
  eexists. split; [reflexivity|]. lia.
Qed.

Lemma on_word_range (x : value) : clock_word_range (on_word x).
Proof.
  unfold on_word. destruct x; try (exists 0; split; [reflexivity|lia]).
  destruct (str_eq s "ON"); [exists 1|exists 0]; split; try reflexivity; lia.
Qed.

Lemma window_words_range (sch : schema) (v : obj) :
  validate sch v = true ->
  (forall entry, In entry Extended.windows -> In entry (properties sch)) ->
  (forall key, In key (Extended.windows.*1) -> In key (required sch)) ->
  exists ws, mapM id (Extended.window_words v) = Some ws
             /\ Forall clock_word_range ws.
Proof.
  intros V Hp Hr. unfold Extended.window_words.
  destruct (packHM_range sch v "startHour1" "startMinute1" V)
    as (z0 & -> & B0); try (apply Hp; cbn; tauto); try (apply Hr; cbn; tauto).
  destruct (packHM_range sch v "stopHour1" "stopMinute1" V)
    as (z1 & -> & B1); try (apply Hp; cbn; tauto); try (apply Hr; cbn; tauto).
  destruct (packHM_range sch v "startHour2" "startMinute2" V)
    as (z3 & -> & B3); try (apply Hp; cbn; tauto); try (apply Hr; cbn; tauto).
  destruct (packHM_range sch v "stopHour2" "stopMinute2" V)
    as (z4 & -> & B4); try (apply Hp; cbn; tauto); try (apply Hr; cbn; tauto).
  destruct (packHM_range sch v "startHour3" "startMinute3" V)
    as (z6 & -> & B6); try (apply Hp; cbn; tauto); try (apply Hr; cbn; tauto).
  destruct (packHM_range sch v "stopHour3" "stopMinute3" V)
    as (z7 & -> & B7); try (apply Hp; cbn; tauto); try (apply Hr; cbn; tauto).
  eexists. split; [reflexivity|].
  repeat (apply Forall_cons; split;
          [first [apply on_word_range | eexists; split; [reflexivity|assumption]]|]).
  apply Forall_nil_2.
Qed.

(** X17.  The words the [set] methods pack stay in range.  In the extended
    and the packed revision the last write of a [set] method on a valid
    cache (registers 1100.., 1080.., 5.. or 3..) consists of integers between
    0 and 0x173B, also when an hour or a minute of the cache has a fraction,
    which validation lets through: the shift truncates it. *)
Theorem packed_words_stay_in_range (m : set_method) (v : obj) :
  packs m = true -> validate (schema_of m) v = true ->
  exists groups dataAddress ws,
    groups_of m v = Some groups
    /\ last groups = Some (dataAddress, ws)
    /\ Forall clock_word_range ws.
Proof.
  intros Hp V. destruct m; try discriminate Hp; cbn [schema_of groups_of] in *.
  - destruct (window_words_range _ v V) as (ws & -> & F);
      [intros e H; cbn; tauto | intros k H; cbn in H |- *; tauto |].
    eexists _, _, _. split; [reflexivity|]. split; [reflexivity|exact F].
  - destruct (window_words_range _ v V) as (ws & -> & F);
      [intros e H; cbn; tauto | intros k H; cbn in H |- *; tauto |].
    eexists _, _, _. split; [reflexivity|]. split; [reflexivity|exact F].
  - destruct (packH_range _ v "utiChargeStart" V) as (z0 & -> & B0);
      [cbn; tauto | cbn; tauto |].
    destruct (packH_range _ v "utiChargeEnd" V) as (z1 & -> & B1);
      [cbn; tauto | cbn; tauto |].
    eexists _, _, _. split; [reflexivity|]. split; [reflexivity|].
    repeat (apply Forall_cons; split; [eexists; split; [reflexivity|assumption]|]).
    apply Forall_nil_2.
  - destruct (packH_range _ v "utiOutStart" V) as (z0 & -> & B0);
      [cbn; tauto | cbn; tauto |].
    destruct (packH_range _ v "utiOutEnd" V) as (z1 & -> & B1);
      [cbn; tauto | cbn; tauto |].
    eexists _, _, _. split; [reflexivity|]. split; [reflexivity|].
    repeat (apply Forall_cons; split; [eexists; split; [reflexivity|assumption]|]).
    apply Forall_nil_2.
Qed.

Lemma packed_words_stay_in_range_witness :
  exists groups dataAddress ws,
    groups_of ExtendedCharging fractional_schedule = Some groups
    /\ last groups = Some (dataAddress, ws)
    /\ Forall clock_word_range ws.
Proof.
  apply (packed_words_stay_in_range ExtendedCharging fractional_schedule).
  - reflexivity.
  - vm_compute. reflexivity.
Defined.

(** The fractional schedule, 22.5 hours and 58.9 minutes, is written as
    22:58. *)
Example fractional_schedule_is_truncated :
  groups_of ExtendedCharging fractional_schedule
  = Some [ (1090, [ num 100; num 100; num 0 ]);
           (1100, [ num 0x163A; num 0; num 0; num 0; num 0; num 0;
                    num 0; num 0; num 0 ]) ].
Proof. vm_compute. reflexivity. Qed.

(** ** The reply of a command and the caches *)

Lemma run_set_caches (m : set_method) (modbusClient : ModbusRTU) (w : world) :
  same_caches w (snd (run_set m modbusClient w)).
Proof.
  destruct (validate (schema_of m) (cache_of m w)) eqn:V.
  - rewrite (run_set_valid m modbusClient w V).
    destruct (groups_of m (cache_of m w)) as [groups|]; [|split; reflexivity].
    destruct (write_all_prefix modbusClient groups w) as (n & _ & T & D).
    split; assumption.
  - rewrite (run_set_invalid m modbusClient w V). destruct w; split; reflexivity.
Qed.

Lemma getTime_caches (modbusClient : ModbusRTU) (w : world) :
  same_caches w (snd (getTime modbusClient w)).
Proof.
  unfold getTime, bind. destruct (mutex w) eqn:Hm.
  - unfold readHoldingRegisters.
    rewrite (guarded_call_held modbusClient _ w Hm). split; reflexivity.
  - rewrite (readHoldingRegisters_run modbusClient _ _ w Hm).
    destruct (modbusClient (calls w) _); destruct w; split; reflexivity.
Qed.

Section Reply.
Context {RT : Runtime}.
Variables (modbusClient : ModbusRTU) (w : world).
Hypothesis free : mutex w = false.

Lemma set_command_reply (m : set_method) (line : string) :
  reply_matches_store w
    ((console_log line ;; run_set m modbusClient ;; ret None) w).
Proof.
  unfold bind, console_log, modify. cbn [fst snd].
  pose proof (run_set_caches m modbusClient (add_console line w)) as [T D].
  unfold reply_matches_store.
  destruct (run_set m modbusClient (add_console line w)) as [[[]| e |] w'];
    cbn [fst snd ret] in *; split; destruct w; assumption.
Qed.

Lemma get_command_reply (m : set_method) (line : string) :
  reply_matches_store w
    ((console_log line ;;
      let* v := run_get m modbusClient in
      ret (Some {| subTopic := topic (domain_of m); values := v |})) w).
Proof.
  unfold bind, console_log, modify. cbn [fst snd].
  rewrite run_get_run by (destruct w; exact free).
  unfold get_result, reply_matches_store.
  destruct (modbusClient _ _) as [first|reason];
    [|destruct w; split; reflexivity].
  destruct (modbusClient _ _) as [second|reason];
    [|destruct w; split; reflexivity].
  cbn [fst snd ret subTopic values].
  destruct m; cbn [domain_of topic set_cached]; destruct w; cbn; auto.
Qed.

Lemma time_command_reply (line : string) :
  reply_matches_store w
    ((console_log line ;;
      let* v := getTime modbusClient in
      ret (Some {| subTopic := "time"; values := v |})) w).
Proof.
  unfold bind, console_log, modify. cbn [fst snd].
  pose proof (getTime_caches modbusClient (add_console line w)) as [T D].
  unfold reply_matches_store.
  destruct (getTime modbusClient (add_console line w)) as [[v| e |] w'];
    cbn [fst snd ret subTopic] in *.
  - right. right. split; [reflexivity|]. split; destruct w; assumption.
  - split; destruct w; assumption.
  - split; destruct w; assumption.
Qed.

End Reply.

Section Dispatch.
Context {RT : Runtime}.
Variables (setTouCharging setTouDischarging : ModbusRTU -> M unit)
          (getTouCharging getTouDischarging : ModbusRTU -> M obj)
          (modbusClient : ModbusRTU) (w : world).

Hypothesis set_charging : forall line,
  reply_matches_store w
    ((console_log line ;; setTouCharging modbusClient ;; ret None) w).
Hypothesis set_discharging : forall line,
  reply_matches_store w
    ((console_log line ;; setTouDischarging modbusClient ;; ret None) w).
Hypothesis get_charging : forall line,
  reply_matches_store w
    ((console_log line ;;
      let* v := getTouCharging modbusClient in
      ret (Some {| subTopic := "touCharging"; values := v |})) w).
Hypothesis get_discharging : forall line,
  reply_matches_store w
    ((console_log line ;;
      let* v := getTouDischarging modbusClient in
      ret (Some {| subTopic := "touDischarging"; values := v |})) w).
Hypothesis get_time : forall line,
  reply_matches_store w
    ((console_log line ;;
      let* v := getTime modbusClient in
      ret (Some {| subTopic := "time"; values := v |})) w).

Lemma sendCommand_reply (commandString : string) :
  reply_matches_store w
    (Shared.sendCommand setTouCharging setTouDischarging
                        getTouCharging getTouDischarging
                        modbusClient commandString w).
Proof.
  assert (forall name : value,
            reply_matches_store w
              (match ToString name with
               | Some text => @throw (option ControlData)
                                (ThrownString ("Unknown command: " ++ text))
               | None => out_of_model
               end w)) as U
    by (intros name; destruct (ToString name); split; reflexivity).
  unfold Shared.sendCommand. unfold bind at 1.
  destruct (JSON_parse commandString) as [command|]; [|split; reflexivity].
  cbn [lift_option ret]. unfold bind at 1.
  destruct (member command "command") as [name|]; [|split; reflexivity].
  cbn [lift_option ret].
  destruct name as [| |b|q| |text|elems|props'|];
    try (match goal with |- context [ToString ?n] => exact (U n) end).
  destruct (str_eq text "setTouCharging"); [exact (set_charging _)|].
  destruct (str_eq text "getTouCharging"); [exact (get_charging _)|].
  destruct (str_eq text "setTouDischarging"); [exact (set_discharging _)|].
  destruct (str_eq text "getTouDischarging"); [exact (get_discharging _)|].
  destruct (str_eq text "getTime"); [exact (get_time _)|].
  exact (U (VStr text)).
Qed.

End Dispatch.

(** X18.  The reply of a command and the caches.  On a free mutex
    [sendCommand] changes a cache only in one way: a [get] command whose two
    reads are answered replaces the cache of its domain, and the reply then
    carries that domain's subtopic and the cache as it is now.  A [set]
    command, [getTime], a failed [get] and every rejected text leave both
    caches as they were, whether the call returns or throws. *)
Theorem command_reply_matches_store
    {RT : Runtime} (r : revision) (modbusClient : ModbusRTU)
    (commandString : string) (w : world) :
  mutex w = false ->
  reply_matches_store w (sendCommand_of r modbusClient commandString w).
Proof.
  intros Hm.
  pose proof (fun line => set_command_reply modbusClient w Hm (charging r) line) as SC.
  pose proof (fun line => set_command_reply modbusClient w Hm (discharging r) line) as SD.
  pose proof (fun line => get_command_reply modbusClient w Hm (charging r) line) as GC.
  pose proof (fun line => get_command_reply modbusClient w Hm (discharging r) line) as GD.
  pose proof (fun line => time_command_reply modbusClient w Hm line) as GT.
  destruct r;
    cbn [sendCommand_of charging discharging run_set run_get domain_of topic] in *;
    exact (sendCommand_reply _ _ _ _ modbusClient w SC SD GC GD GT commandString).
Qed.

Lemma command_reply_matches_store_witness :
  reply_matches_store Extended.initial
    (Extended.sendCommand (register_device (fun _ => 0) (fun _ => 7))
                          (replace_quotes "{'command': 'getTouDischarging'}")
                          Extended.initial).
Proof.
  apply (command_reply_matches_store
           ExtendedRevision (register_device (fun _ => 0) (fun _ => 7))
           (replace_quotes "{'command': 'getTouDischarging'}") Extended.initial).
  reflexivity.
Defined.

(** ** The backup scripts *)

Lemma append_assoc (a b c : string) : ((a ++ b) ++ c = a ++ (b ++ c))%string.
Proof.
  induction a as [|x a IH]; [reflexivity|].
  change (String x ((a ++ b) ++ c) = String x (a ++ (b ++ c))). f_equal. exact IH.
Qed.

Lemma append_nil_r (a : string) : (a ++ "" = a)%string.
Proof.
  induction a as [|x a IH]; [reflexivity|].
  change (String x (a ++ "") = String x a). f_equal. exact IH.
Qed.

Lemma unlines_cons (line : string) (lines : list string) :
  unlines (line :: lines) = (line ++ Backup.nl ++ unlines lines)%string.
Proof. reflexivity. Qed.

Lemma unlines_app (a b : list string) :
  unlines (a ++ b)%list = (unlines a ++ unlines b)%string.
Proof.
  induction a as [|line a IH]; [reflexivity|].
  change ((line :: a) ++ b)%list with (line :: (a ++ b))%list.
  rewrite !unlines_cons, IH, !append_assoc. reflexivity.
Qed.

Lemma register_lines_from_listed (i : nat) (backupText : string) (data : list Z) :
  Backup.register_lines_from i backupText data
  = (backupText ++ unlines (listed_from i data))%string.
Proof.
  revert i backupText. induction data as [|z rest IH]; intros i backupText.
  - symmetry. apply append_nil_r.
  - cbn [Backup.register_lines_from listed_from].
    rewrite IH, unlines_cons, !append_assoc. reflexivity.
Qed.

Lemma register_lines_unlines (lines : list string) (data : list Z) :
  Backup.register_lines (unlines lines) data = unlines (lines ++ listed data)%list.
Proof.
  unfold Backup.register_lines, listed.
  rewrite register_lines_from_listed, unlines_app. reflexivity.
Qed.

Lemma header_unlines (lines : list string) (header : string) :
  (unlines lines ++ header ++ Backup.nl)%string = unlines (lines ++ [header])%list.
Proof.
  rewrite unlines_app, unlines_cons. change (unlines []) with "".
  rewrite append_nil_r. reflexivity.
Qed.

Lemma listed_from_lookup (k i : nat) (data : list Z) (z : Z) :
  data !! i = Some z ->
  listed_from k data !! i = Some (pretty (k + i)%nat ++ " " ++ pretty z)%string.
Proof.
  revert k i. induction data as [|x rest IH]; intros k i H; [discriminate|].
  destruct i as [|i].
  - injection H as ->. rewrite Nat.add_0_r. reflexivity.
  - change (listed_from (S k) rest !! i
            = Some (pretty (k + S i)%nat ++ " " ++ pretty z)%string).
    rewrite Nat.add_succ_r. exact (IH (S k) i H).
Qed.

Section ReadsInOrder.
Variable modbusClient : ModbusRTU.

Lemma reads_in_order_ret {A} (a : A) : reads_in_order [] (ret a).
Proof. intros w. cbn. rewrite app_nil_r. reflexivity. Qed.

Lemma reads_in_order_log {A} (reads : list call) (line : string) (m : M A) :
  reads_in_order reads m -> reads_in_order reads (console_log line ;; m).
Proof.
  intros H w. unfold bind, console_log, modify.
  specialize (H (add_console line w)).
  assert (calls (add_console line w) = calls w) as C by (destruct w; reflexivity).
  rewrite C in H. exact H.
Qed.

Lemma reads_in_order_call {A} (c : call) (reads : list call) (k : list Z -> M A) :
  (forall data, reads_in_order reads (k data)) ->
  reads_in_order (c :: reads) (bind (channel_call modbusClient c) k).
Proof.
  intros H w. unfold bind, channel_call.
  assert (calls (add_call c w) = (calls w ++ [c])%list) as C
    by (destruct w; reflexivity).
  destruct (modbusClient (calls w) c) as [data|reason].
  - specialize (H data (add_call c w)). rewrite C in H.
    destruct (fst (k data (add_call c w))) as [a| e |].
    + rewrite H, <- app_assoc. reflexivity.
    + destruct H as (n & reason & E & L & H).
      exists (S n), reason. split; [exact E|]. split; [cbn; lia|].
      rewrite H, <- app_assoc. reflexivity.
    + exact H.
  - cbn [fst snd]. exists 0%nat, reason. split; [reflexivity|].
    split; [cbn; lia|]. rewrite C. reflexivity.
Qed.

End ReadsInOrder.

(** X19.  A backup script writes the file only after every read has been
    answered.  The whole-window script makes two reads (162 holding
    registers, 90 input registers), the windowed one eleven (seven windows of
    holding registers, four of input registers), in the order of the
    source and with no write among them.  A rejected read ends the script
    with the channel's error: the later reads are not made and no text is
    handed to the file system. *)
Theorem backup_reads_before_it_writes
    (s : backup_script) (modbusClient : ModbusRTU) (w : world) :
  let run := run_backup s modbusClient w in
  match fst run with
  | Ret _ => calls (snd run) = (calls w ++ backup_reads s)%list
  | Throw e =>
      exists (n : nat) (reason : string),
        e = ChannelError reason /\ (n < length (backup_reads s))%nat
        /\ calls (snd run) = (calls w ++ take (S n) (backup_reads s))%list
  | OutOfModel => False
  end.
Proof.
  cbv zeta. revert w.
  change (reads_in_order (backup_reads s) (run_backup s modbusClient)).
  destruct s; cbn [run_backup backup_reads];
    [ unfold Backup.runBackup | unfold Backup.runBackup_windows ];
    unfold Backup.readHoldingRegisters, Backup.readInputRegisters;
    do 3 apply reads_in_order_log;
    repeat (apply reads_in_order_call; intros ?);
    do 2 apply reads_in_order_log;
    apply reads_in_order_ret.
Qed.

(** X20.  What a backup file lists.  On a device with the given registers
    the text is the lines below, each ended by a line feed: a window's
    header, then one line per word read, the index of the word in its
    window followed by the word.  In the windowed script the index starts at
    0 again in every window, so it is not the register's address; the
    whole-window script lists the holding registers 0..161 under its header
    0-162, and both scripts list the input registers 0..89 under 0-90 and
    76-90. *)
Theorem backup_lists_windows (input holding : Z -> Z) (w : world) :
  let device := register_device input holding in
  fst (Backup.runBackup device w)
  = Ret (unlines
           ([ "Growatt Registers Backup" ]
            ++ window_lines "Holding Registers 0-162" holding 0 162
            ++ window_lines "Input Registers 0-90" input 0 90
            ++ [ "End" ]))
  /\ fst (Backup.runBackup_windows device w)
     = Ret (unlines
              (window_lines "Holding Registers 0-25" holding 0 26
               ++ window_lines "Holding Registers 26-50" holding 26 25
               ++ window_lines "Holding Registers 51-75" holding 51 25
               ++ window_lines "Holding Registers 76-100" holding 76 25
               ++ window_lines "Holding Registers 101-125" holding 101 25
               ++ window_lines "Holding Registers 126-150" holding 126 25
               ++ window_lines "Holding Registers 151-162" holding 151 12
               ++ window_lines "Input Registers 0-25" input 0 26
               ++ window_lines "Input Registers 26-50" input 26 25
               ++ window_lines "Input Registers 51-75" input 51 25
               ++ window_lines "Input Registers 76-90" input 76 14
               ++ [ "End" ]))
  /\ forall (header : string) (registers : Z -> Z) (first len : Z) (i : nat),
       Z.of_nat i < len ->
       window_lines header registers first len !! S i
       = Some (pretty i ++ " " ++ pretty (registers (first + Z.of_nat i)))%string.
Proof.
  cbv zeta. split; [|split].
  - unfold Backup.runBackup, bind, console_log, modify,
      Backup.readHoldingRegisters, Backup.readInputRegisters, channel_call.
    cbn [register_device fst snd ret]. f_equal.
    change ("" ++ "Growatt Registers Backup" ++ Backup.nl
            ++ "Holding Registers 0-162" ++ Backup.nl)%string
      with (unlines [ "Growatt Registers Backup"; "Holding Registers 0-162" ]).
    rewrite !register_lines_unlines, !header_unlines, !register_lines_unlines,
      !header_unlines.
    reflexivity.
  - unfold Backup.runBackup_windows, bind, console_log, modify,
      Backup.readHoldingRegisters, Backup.readInputRegisters, channel_call.
    cbn [register_device fst snd ret]. f_equal.
    change ("" ++ "Holding Registers 0-25" ++ Backup.nl)%string
      with (unlines [ "Holding Registers 0-25" ]).
    repeat rewrite ?register_lines_unlines, ?header_unlines.
    reflexivity.
  - intros header registers first len i Hi. unfold window_lines, listed.
    change ((header :: ?l) !! S i) with (l !! i).
    apply (listed_from_lookup 0 i).
    change (map ?f ?l) with (f <$> l).
    rewrite list_lookup_fmap, (lookup_seqZ_lt _ _ _ Hi). reflexivity.
Qed.

(** ** Guarded calls in order *)

Section CallsInOrder.
Variable modbusClient : ModbusRTU.

Lemma ends_in_order_ret {A} (a : A) (w : world) :
  mutex w = false -> ends_in_order [] w (ret a w).
Proof.
  intros Hm. split; [exact Hm|]. split; [split; reflexivity|].
  cbn. rewrite app_nil_r. reflexivity.
Qed.

Lemma ends_in_order_guarded {A} (c : call) (expected : list call)
      (k : list Z -> M A) (w : world) :
  mutex w = false ->
  (forall data w1, mutex w1 = false -> ends_in_order expected w1 (k data w1)) ->
  ends_in_order (c :: expected) w
    (bind (acquire ;; try_finally (channel_call modbusClient c) release) k w).
Proof.
  intros Hm H. unfold bind at 1. rewrite (guarded_call_run modbusClient c w Hm).
  destruct (add_call_frame c w) as (C & M' & T & D). rewrite Hm in M'.
  destruct (modbusClient (calls w) c) as [data|reason].
  - destruct (H data (add_call c w) M') as (Hm' & [T' D'] & R).
    unfold ends_in_order.
    split; [exact Hm'|]. split; [split; congruence|].
    destruct (fst (k data (add_call c w))) as [a| e |].
    + rewrite R, C, <- app_assoc. reflexivity.
    + destruct R as (n & reason & E & L & R).
      exists (S n), reason. split; [exact E|]. split; [cbn; lia|].
      rewrite R, C, <- app_assoc. reflexivity.
    + exact R.
  - unfold ends_in_order. cbn [fst snd].
    split; [exact M'|]. split; [split; assumption|].
    exists 0%nat, reason. split; [reflexivity|]. split; [cbn; lia|].
    rewrite C. reflexivity.
Qed.

Lemma write_all_in_order (groups : list (Z * list value)) (w : world) :
  mutex w = false ->
  ends_in_order (map write_call groups) w (write_all modbusClient groups w).
Proof.
  revert w. induction groups as [|[a vs] rest IH]; intros w Hm.
  - exact (ends_in_order_ret tt w Hm).
  - cbn [write_all map]. unfold writeRegisters.
    apply ends_in_order_guarded; [exact Hm|].
    intros _ w1 Hm1. exact (IH w1 Hm1).
Qed.

End CallsInOrder.

(** X21.  A rejected write stops a [set] method.  On a valid cache and a
    free mutex the method issues its write groups in order; the first
    rejected write makes it throw the channel's error, the later groups are
    not written and the earlier ones stay written: the flush is not
    all-or-nothing.  It returns only when every group was acknowledged.
    Either way the caches are as before and the mutex is free. *)
Theorem rejected_write_stops_set
    (m : set_method) (modbusClient : ModbusRTU) (w : world) :
  mutex w = false ->
  validate (schema_of m) (cache_of m w) = true ->
  exists groups,
    groups_of m (cache_of m w) = Some groups
    /\ map fst groups = write_order m
    /\ ends_in_order (map write_call groups) w (run_set m modbusClient w).
Proof.
  intros Hm V.
  destruct (groups_of_valid m _ V) as (groups & G & O).
  exists groups. split; [exact G|]. split; [exact O|].
  rewrite (run_set_valid m modbusClient w V), G.
  exact (write_all_in_order modbusClient groups w Hm).
Qed.

Lemma rejected_write_stops_set_witness :
  exists groups,
    groups_of ExtendedCharging (touChargingValues Extended.initial) = Some groups
    /\ map fst groups = [ 1090; 1100 ]
    /\ ends_in_order (map write_call groups) Extended.initial
         (Extended.setTouCharging one_write_device Extended.initial).
Proof.
  apply (rejected_write_stops_set ExtendedCharging one_write_device Extended.initial).
  - reflexivity.
  - vm_compute. reflexivity.
Defined.

(** On that device the first group is written and the second is
    rejected. *)
Example setTouCharging_stops_half_way :
  let run := Extended.setTouCharging one_write_device Extended.initial in
  fst run = Throw (ChannelError "Timed out")
  /\ calls (snd run)
     = [ WriteRegisters 1090 [ num 100; num 100; num 0 ];
         WriteRegisters 1100 [ num 0; num 0; num 0; num 0; num 0; num 0;
                               num 0; num 0; num 0 ] ].
Proof. cbv zeta. split; vm_compute; reflexivity. Qed.

(** X22.  The sensor snapshot and the clock are read in order and leave the
    caches alone.  [getSensorData] makes one read of 90 input registers (the
    tenths revision four reads, of 26, 25, 25 and 15) and [getTime] one read
    of six holding registers from 45.  A rejected read makes the method
    throw the channel's error without reading further, so no partial
    snapshot is returned; both caches are as before and the mutex is
    free. *)
Theorem sensor_reads_in_order
    {RT : Runtime} (r : revision) (modbusClient : ModbusRTU) (w : world) :
  mutex w = false ->
  ends_in_order (sensor_reads r) w (getSensorData_of r modbusClient w)
  /\ ends_in_order [ ReadHoldingRegisters 45 6 ] w (getTime modbusClient w).
Proof.
  intros Hm. split.
  - destruct r; cbn [getSensorData_of sensor_reads];
      [ unfold getSensorData | unfold Tenths.getSensorData | unfold getSensorData ];
      cbv zeta; unfold readInputRegisters;
      repeat (apply ends_in_order_guarded;
              [assumption|intros ? ? ?]);
      apply ends_in_order_ret; assumption.
  - unfold getTime, readHoldingRegisters.
    apply ends_in_order_guarded; [exact Hm|]. intros data w1 Hm1.
    apply ends_in_order_ret. exact Hm1.
Qed.

Lemma sensor_reads_in_order_witness :
  ends_in_order (sensor_reads TenthsRevision) Tenths.initial
    (getSensorData_of TenthsRevision one_answer_device Tenths.initial)
  /\ ends_in_order [ ReadHoldingRegisters 45 6 ] Tenths.initial
       (getTime one_answer_device Tenths.initial).
Proof.
  apply (sensor_reads_in_order TenthsRevision one_answer_device Tenths.initial).
  reflexivity.
Defined.

(** ** Messages that are no mapping *)

Lemma pretty_N_char_digit (y : N) :
  starts_with_digit (String (pretty_N_char y) "") = true.
Proof.
  destruct y as [|p]; [reflexivity|].
  do 4 (try (destruct p as [p|p|])); reflexivity.
Qed.

Lemma pretty_N_go_digit (x : N) (s : string) :
  (0 < x)%N \/ starts_with_digit s = true ->
  starts_with_digit (pretty_N_go x s) = true.
Proof.
  revert s. induction (N.lt_wf_0 x) as [x _ IH]. intros s H.
  destruct (N.eq_dec x 0%N) as [->|Hx].
  - rewrite pretty_N_go_0. destruct H as [H|H]; [lia|exact H].
  - rewrite pretty_N_go_step by lia. apply IH.
    + apply N.div_lt; lia.
    + right. exact (pretty_N_char_digit (x mod 10)).
Qed.

Lemma pretty_nat_digit (i : nat) : starts_with_digit (pretty i) = true.
Proof.
  unfold pretty, pretty_nat, pretty, pretty_N.
  destruct (decide (N.of_nat i = 0%N)) as [_|Hi]; [reflexivity|].
  apply pretty_N_go_digit. left. lia.
Qed.

Lemma indexed_keys {A} (f : A -> value) (l : list A) (key : string) :
  In key ((indexed f l).*1) -> starts_with_digit key = true.
Proof.
  intros Hin. apply list_elem_of_In in Hin.
  apply list_elem_of_fmap in Hin as ([k v] & -> & Hin).
  unfold indexed in Hin. apply elem_of_lookup_imap in Hin as (i & x & E & _).
  injection E as -> _. apply pretty_nat_digit.
Qed.

(** No declared field and no inherited name starts with a digit, so a valid
    cache has no field under an index. *)
Lemma valid_cache_no_index (m : set_method) (v : obj) (key : string) :
  validate (schema_of m) v = true -> starts_with_digit key = true ->
  has_field v key = false.
Proof.
  intros V D. unfold has_field.
  destruct (v !! key) as [x|] eqn:E.
  - exfalso.
    assert (key ∈ (properties (schema_of m)).*1) as Hin
      by (apply (validate_declared _ v key V); [destruct m; reflexivity|eauto]).
    apply list_elem_of_In in Hin.
    destruct m; cbn in Hin; decompose [or] Hin; subst; discriminate || assumption.
  - unfold inherited. apply not_true_is_false. intros H.
    apply existsb_exists in H as (name & Hin & Heq).
    apply String.eqb_eq in Heq. subst name.
    unfold Object_prototype_names in Hin. cbn in Hin.
    decompose [or] Hin; subst; discriminate || assumption.
Qed.

(** X23.  A message that is no mapping is ignored by valid caches.  When
    both caches pass their schemas, a control message that does not parse,
    or parses to an array, a string, a number, a boolean or [null], changes
    nothing: [updateControl] returns both caches as they were, and the only
    trace is the console line of a message on which the [try] block threw.
    (The indices of an array or string name no field: every field name and
    every inherited name starts with a letter or an underscore.) *)
Theorem non_mapping_message_is_ignored
    {RT : Runtime} (r : revision) (subTopic controlMessage : string) (w : world) :
  let parsed := JSON_parse (replace_quotes controlMessage) in
  validate (schema_of (charging r)) (touChargingValues w) = true ->
  validate (schema_of (discharging r)) (touDischargingValues w) = true ->
  is_mapping parsed = false ->
  updateControl subTopic controlMessage w
  = (Ret (control_data w),
     if try_block_throws parsed then add_console parse_error_line w else w).
Proof.
  intros parsed VC VD Hmap. subst parsed.
  assert (forall key, starts_with_digit key = true ->
                      recognized subTopic w key = false) as U.
  { intros key D. unfold recognized.
    rewrite (valid_cache_no_index _ _ key VC D),
      (valid_cache_no_index _ _ key VD D), !andb_false_r. reflexivity. }
  destruct (JSON_parse (replace_quotes controlMessage)) as [control|] eqn:P;
    [|apply updateControl_caught; rewrite P; exact I].
  destruct control as [| |b|q| |s|elems|props|]; try discriminate Hmap;
    cbn [try_block_throws];
    try (apply updateControl_caught; rewrite P; exact I);
    (eapply (updateControl_parsed _ _ w w _ _ P); [reflexivity|]);
    apply forEach_unrecognized; intros key Hk;
    apply list_elem_of_In in Hk;
    apply (proj1 (elem_of_remove_dups _ _)) in Hk;
    apply list_elem_of_In in Hk;
    first [ destruct Hk | apply U; exact (indexed_keys _ _ key Hk) ].
Qed.

Lemma non_mapping_message_is_ignored_witness :
  updateControl "touCharging" "[1, 2, 3]" Extended.initial
  = (Ret (control_data Extended.initial), Extended.initial).
Proof.
  assert (updateControl "touCharging" "[1, 2, 3]" Extended.initial
          = (Ret (control_data Extended.initial),
             if try_block_throws (JSON_parse (replace_quotes "[1, 2, 3]"))
             then add_console parse_error_line Extended.initial
             else Extended.initial)) as H.
  { apply (non_mapping_message_is_ignored ExtendedRevision "touCharging"
             "[1, 2, 3]" Extended.initial).
    - vm_compute. reflexivity.
    - vm_compute. reflexivity.
    - vm_compute. reflexivity. }
  exact H.
Defined.

(** ** Reading a domain and writing it back *)

Section Literal.
Variables (sch : schema) (fields : list (string * value)).
Hypothesis same_names : fields.*1 = (properties sch).*1.
Hypothesis distinct : NoDup (properties sch).*1.

Lemma literal_lookup (key : string) (v : value) :
  In (key, v) fields -> (list_to_map fields : obj) !! key = Some v.
Proof.
  intros Hin. apply elem_of_list_to_map_1.
  - rewrite same_names. exact distinct.
  - apply list_elem_of_In. exact Hin.
Qed.

Lemma literal_get (key : string) (v : value) :
  In (key, v) fields -> get (list_to_map fields) key = v.
Proof. intros Hin. unfold get. rewrite (literal_lookup key v Hin). reflexivity. Qed.

Lemma literal_names (key : string) (v : value) :
  (list_to_map fields : obj) !! key = Some v -> key ∈ (properties sch).*1.
Proof.
  intros H. rewrite <- same_names.
  apply elem_of_list_to_map_2 in H.
  apply list_elem_of_fmap. exists (key, v). split; [reflexivity|exact H].
Qed.

(** An object literal with the schema's names, in the schema's order, each
    value meeting its property, passes validation. *)
Lemma validate_literal :
  (forall key, In key (required sch) -> key ∈ (properties sch).*1) ->
  Forall2 (fun field entry => check_prop (snd entry) (snd field) = true)
          fields (properties sch) ->
  validate sch (list_to_map fields) = true.
Proof.
  intros Hr F.
  assert (forall key ps, (key, ps) ∈ properties sch ->
            exists v, In (key, v) fields /\ check_prop ps v = true) as Each.
  { intros key ps Hin. apply list_elem_of_lookup in Hin as [i Hi].
    destruct (Forall2_lookup_r _ _ _ i _ F Hi) as ([k v] & Hf & C).
    cbn in C. exists v. split; [|exact C].
    assert (k = key) as <-.
    { assert (fields.*1 !! i = Some k) as E1
        by (rewrite list_lookup_fmap, Hf; reflexivity).
      assert ((properties sch).*1 !! i = Some key) as E2
        by (rewrite list_lookup_fmap, Hi; reflexivity).
      rewrite same_names in E1. congruence. }
    apply list_elem_of_In. apply (list_elem_of_lookup_2 _ i). exact Hf. }
  unfold validate. apply andb_true_intro. split; [apply andb_true_intro; split|].
  - apply forallb_forall. intros key Hin.
    pose proof (Hr key Hin) as Hk.
    apply list_elem_of_fmap in Hk as ([k ps] & -> & Hp).
    destruct (Each k ps Hp) as (v & Hv & C). cbn.
    rewrite (literal_lookup k v Hv).
    destruct ps, v; try discriminate C; reflexivity.
  - apply orb_true_intro. right. apply bool_decide_eq_true.
    intros key v H. exact (literal_names key v H).
  - apply forallb_forall. intros [key ps] Hin.
    apply list_elem_of_In in Hin.
    destruct (Each key ps Hin) as (v & Hv & C).
    rewrite (literal_lookup key v Hv).
    destruct v; try exact C; destruct ps; discriminate C.
Qed.

End Literal.

Lemma check_number_word (lo hi z : Z) :
  lo <= z <= hi ->
  check_prop (SNumber (inject_Z lo) (inject_Z hi)) (num z) = true.
Proof.
  intros H. cbn. apply andb_true_intro.
  split; apply Qle_bool_iff; rewrite <- Zle_Qle; lia.
Qed.

Lemma onoff_cases (word : option Z) :
  (onoff word = VStr "ON" /\ switch_back word = 1)
  \/ (onoff word = VStr "OFF" /\ switch_back word = 0).
Proof.
  destruct word as [[|[p|p|]|p]|]; cbn; auto.
Qed.

Lemma check_switch_word (word : option Z) :
  check_prop Extended.switch (onoff word) = true.
Proof. destruct (onoff_cases word) as [[-> _]|[-> _]]; reflexivity. Qed.

Lemma on_word_onoff (word : option Z) :
  on_word (onoff word) = num (switch_back word).
Proof. destruct (onoff_cases word) as [[-> ->]|[-> ->]]; reflexivity. Qed.

Lemma clock_word_checks (word : Z) :
  clock_in_range word ->
  check_prop Extended.hour (num (unpackHour (Some word))) = true
  /\ check_prop Extended.minute (num (unpackMinute (Some word))) = true
  /\ packHM (num (unpackHour (Some word))) (num (unpackMinute (Some word)))
     = Some (num word).
Proof.
  intros (B & H & M).
  destruct (word_unpack_pack word B) as (P & Eh & Em).
  pose proof (Z.mod_pos_bound word 256 ltac:(lia)) as Bm.
  assert (0 <= word / 256) as Bh by (apply Z.div_pos; lia).
  split; [|split; [|exact P]].
  - rewrite Eh. apply (check_number_word 0 23). lia.
  - rewrite Em. apply (check_number_word 0 59). lia.
Qed.

Lemma window_words_decode (m : set_method) (first second : list Z) :
  ascending_revision m = true ->
  Extended.window_words (decode m first second)
  = let d (i : nat) := second !! i in
    [ packHM (num (unpackHour (d 0%nat))) (num (unpackMinute (d 0%nat)));
      packHM (num (unpackHour (d 1%nat))) (num (unpackMinute (d 1%nat)));
      Some (on_word (onoff (d 2%nat)));
      packHM (num (unpackHour (d 3%nat))) (num (unpackMinute (d 3%nat)));
      packHM (num (unpackHour (d 4%nat))) (num (unpackMinute (d 4%nat)));
      Some (on_word (onoff (d 5%nat)));
      packHM (num (unpackHour (d 6%nat))) (num (unpackMinute (d 6%nat)));
      packHM (num (unpackHour (d 7%nat))) (num (unpackMinute (d 7%nat)));
      Some (on_word (onoff (d 8%nat))) ].
Proof. destruct m; try discriminate; intros _; reflexivity. Qed.

Section ReadBack.
Variables (first second : list Z).
Hypothesis head : head_in_range first.
Hypothesis windows : windows_in_range second.

Lemma window_fields_check :
  Forall2 (fun field entry => check_prop (snd entry) (snd field) = true)
          (Extended.window_fields second) Extended.windows.
Proof.
  destruct (windows 0%nat "startHour1" "startMinute1" ltac:(cbn; tauto))
    as (s0 & E0 & R0).
  destruct (windows 1%nat "stopHour1" "stopMinute1" ltac:(cbn; tauto))
    as (s1 & E1 & R1).
  destruct (windows 3%nat "startHour2" "startMinute2" ltac:(cbn; tauto))
    as (s3 & E3 & R3).
  destruct (windows 4%nat "stopHour2" "stopMinute2" ltac:(cbn; tauto))
    as (s4 & E4 & R4).
  destruct (windows 6%nat "startHour3" "startMinute3" ltac:(cbn; tauto))
    as (s6 & E6 & R6).
  destruct (windows 7%nat "stopHour3" "stopMinute3" ltac:(cbn; tauto))
    as (s7 & E7 & R7).
  unfold Extended.window_fields, Extended.windows.
  rewrite E0, E1, E3, E4, E6, E7.
  destruct (clock_word_checks s0 R0) as (H0 & M0 & _).
  destruct (clock_word_checks s1 R1) as (H1 & M1 & _).
  destruct (clock_word_checks s3 R3) as (H3 & M3 & _).
  destruct (clock_word_checks s4 R4) as (H4 & M4 & _).
  destruct (clock_word_checks s6 R6) as (H6 & M6 & _).
  destruct (clock_word_checks s7 R7) as (H7 & M7 & _).
  repeat (apply Forall2_cons; split;
          [first [assumption | apply check_switch_word]|]).
  apply Forall2_nil_2.
Qed.

Lemma head_check (i : nat) :
  (i < 2)%nat -> check_prop Extended.percent (word_value (first !! i)) = true.
Proof.
  intros Hi. destruct (head i Hi) as (word & -> & R).
  exact (check_number_word 0 100 word R).
Qed.

Lemma decode_valid (m : set_method) :
  ascending_revision m = true ->
  validate (schema_of m) (decode m first second) = true.
Proof.
  intros Ha. destruct (schema_closed m) as (_ & ND & Hr).
  destruct m; try discriminate Ha; unfold decode;
    (apply validate_literal;
     [ reflexivity | exact ND
     | intros key Hk; apply list_elem_of_In; cbn in Hk |- *; tauto | ]);
    cbn [schema_of properties Extended.touCharging_schema
         Extended.touDischarging_schema];
    (apply Forall2_app; [|exact window_fields_check]);
    repeat (apply Forall2_cons; split;
            [first [apply head_check; lia | apply check_switch_word]|]);
    apply Forall2_nil_2.
Qed.

Lemma window_back_words (m : set_method) :
  ascending_revision m = true ->
  mapM id (Extended.window_words (decode m first second))
  = Some (window_back second).
Proof.
  intros Ha. rewrite (window_words_decode m first second Ha). cbv zeta.
  destruct (windows 0%nat "startHour1" "startMinute1" ltac:(cbn; tauto))
    as (s0 & E0 & R0).
  destruct (windows 1%nat "stopHour1" "stopMinute1" ltac:(cbn; tauto))
    as (s1 & E1 & R1).
  destruct (windows 3%nat "startHour2" "startMinute2" ltac:(cbn; tauto))
    as (s3 & E3 & R3).
  destruct (windows 4%nat "stopHour2" "stopMinute2" ltac:(cbn; tauto))
    as (s4 & E4 & R4).
  destruct (windows 6%nat "startHour3" "startMinute3" ltac:(cbn; tauto))
    as (s6 & E6 & R6).
  destruct (windows 7%nat "stopHour3" "stopMinute3" ltac:(cbn; tauto))
    as (s7 & E7 & R7).
  unfold window_back. rewrite E0, E1, E3, E4, E6, E7.
  destruct (clock_word_checks s0 R0) as (_ & _ & ->).
  destruct (clock_word_checks s1 R1) as (_ & _ & ->).
  destruct (clock_word_checks s3 R3) as (_ & _ & ->).
  destruct (clock_word_checks s4 R4) as (_ & _ & ->).
  destruct (clock_word_checks s6 R6) as (_ & _ & ->).
  destruct (clock_word_checks s7 R7) as (_ & _ & ->).
  rewrite !on_word_onoff. reflexivity.
Qed.

Lemma groups_of_decode (m : set_method) :
  ascending_revision m = true ->
  groups_of m (decode m first second) = Some (written_back m first second).
Proof.
  intros Ha. pose proof (window_back_words m Ha) as W.
  destruct m; try discriminate Ha; cbn [groups_of written_back]; rewrite W;
    cbn [mbind option_bind]; do 3 f_equal.
  - change (get (decode ExtendedCharging first second) "ac")
      with (onoff (first !! 2%nat)).
    rewrite on_word_onoff. reflexivity.
Qed.

End ReadBack.

(** X24.  Reading a domain and writing it back (extended revision).  When
    the [get] method has read windows whose two percentages are within
    0..100 and whose six clock words hold an hour up to 23 in the high byte
    and a minute up to 59 in the low byte, the cache it stores passes
    validation, and the [set] method that follows writes back exactly the
    words that were read, to the registers they were read from; only a
    switch word is normalised: it is written as 1 if it was 1 and as 0
    otherwise. *)
Theorem get_then_set_writes_back
    (m : set_method) (modbusClient : ModbusRTU) (w : world)
    (first second : list Z) :
  ascending_revision m = true ->
  mutex w = false -> acknowledges modbusClient ->
  modbusClient (calls w) (holding_read (first_read m)) = Data first ->
  modbusClient (calls w ++ [ holding_read (first_read m) ])%list
               (holding_read (second_read m)) = Data second ->
  head_in_range first -> windows_in_range second ->
  let w1 := snd (run_get m modbusClient w) in
  cache_of m w1 = decode m first second
  /\ validate (schema_of m) (cache_of m w1) = true
  /\ fst (run_set m modbusClient w1) = Ret tt
  /\ calls (snd (run_set m modbusClient w1))
     = (calls w
        ++ [ holding_read (first_read m); holding_read (second_read m) ]
        ++ map write_call (written_back m first second))%list
  /\ map fst (written_back m first second)
     = [ fst (first_read m); fst (second_read m) ].
Proof.
  intros Ha Hm Hack R1 R2 Hh Hw w1.
  assert (run_get m modbusClient w
          = (Ret (decode m first second),
             set_cached (domain_of m) (decode m first second)
               (add_call (holding_read (second_read m))
                  (add_call (holding_read (first_read m)) w)))) as G.
  { rewrite (run_get_run m modbusClient w Hm). unfold get_result.
    rewrite R1.
    assert (calls (add_call (holding_read (first_read m)) w)
            = (calls w ++ [holding_read (first_read m)])%list) as ->
      by (destruct w; reflexivity).
    rewrite R2. reflexivity. }
  subst w1. rewrite G. cbn [snd].
  set (v := decode m first second) in *.
  set (w1 := set_cached (domain_of m) v _).
  assert (cache_of m w1 = v) as C
    by (rewrite cache_of_domain; apply cached_set_cached).
  assert (mutex w1 = false) as Hm1 by (destruct m, w; exact Hm).
  assert (calls w1 = (calls w ++ [holding_read (first_read m);
                                   holding_read (second_read m)])%list) as Cs
    by (destruct m, w; cbn; rewrite <- app_assoc; reflexivity).
  pose proof (decode_valid first second Hh Hw m Ha) as V. fold v in V.
  pose proof (groups_of_decode first second Hw m Ha) as Gr. fold v in Gr.
  split; [exact C|]. rewrite C. split; [exact V|].
  pose proof (run_set_valid m modbusClient w1) as R. rewrite C, Gr in R.
  rewrite (R V).
  destruct (write_all_acknowledged modbusClient (written_back m first second)
              w1 Hm1 Hack) as (Rt & Cw & _).
  split; [exact Rt|]. split; [rewrite Cw, Cs, <- app_assoc; reflexivity|].
  destruct m; try discriminate Ha; reflexivity.
Qed.

Lemma get_then_set_writes_back_witness :
  let w1 := snd (Extended.getTouCharging clock_device Extended.initial) in
  touChargingValues w1
  = decode ExtendedCharging [ 40; 40; 40 ] [ 0x061E; 0x112D; 7; 0; 0; 0; 0; 0; 0 ]
  /\ validate Extended.touCharging_schema (touChargingValues w1) = true
  /\ fst (Extended.setTouCharging clock_device w1) = Ret tt
  /\ calls (snd (Extended.setTouCharging clock_device w1))
     = [ ReadHoldingRegisters 1090 3; ReadHoldingRegisters 1100 9;
         WriteRegisters 1090 [ num 40; num 40; num 0 ];
         WriteRegisters 1100 [ num 0x061E; num 0x112D; num 0;
                               num 0; num 0; num 0; num 0; num 0; num 0 ] ]
  /\ [ 1090; 1100 ] = [ 1090; 1100 ].
Proof.
  apply (get_then_set_writes_back ExtendedCharging clock_device Extended.initial
           [ 40; 40; 40 ] [ 0x061E; 0x112D; 7; 0; 0; 0; 0; 0; 0 ]).
  - reflexivity.
  - reflexivity.
  - intros history dataAddress values. exists []. reflexivity.
  - reflexivity.
  - reflexivity.
  - intros i Hi. destruct i as [|[|i]]; [| |lia];
      (eexists; split; [reflexivity|]; unfold percent_in_range; lia).
  - intros i hk mk Hin. unfold window_boundaries in Hin.
    repeat (destruct Hin as [[= <- <- <-]|Hin];
            [ eexists; split; [reflexivity|];
              unfold clock_in_range; repeat split; try lia;
              vm_compute; discriminate | ]).
    destruct Hin.
Defined.

